(** * Spare-parts inventory: normalisation, query and dashboard statistics

    A shallow embedding of [src/backend/server.js] (the Express back end:
    [readExcelData], [processSparePartsData], [getStockLevel], the
    [/api/spare-parts] and [/api/dashboard/stats] handlers) and of
    [filterSpareParts] in [src/frontend/src/services/apiService.jsx].

    Conventions of the model.
    - A JavaScript value that can sit in a spreadsheet cell or in a record
      field is a [JsVal]: [undefined], a boolean, a number or a string.
    - A number is [NaN], an infinity or an exact decimal [Dec m e] standing
      for [m * 10^e]; the negative zero is identified with zero (this code
      never distinguishes them).  [round64] is the rounding of a decimal to
      binary64; the stock classifier, which compares a product, applies it.
      Elsewhere the arithmetic is exact, and a statement that needs an
      integer to be the double the code holds says so: the integer is at
      most [2^53] in absolute value.
    - A string is a sequence of code units below 256.
    - A raw row, as produced by [xlsx.utils.sheet_to_json], is a finite map
      from column names to cell values.
    - [Math.random] and [new Date()] are inputs: a supply of tokens threaded
      through the loader, and the load date.
    - A query parameter is absent or a string.
    - [Array.prototype.sort] is stable (ECMAScript 2019); it is modelled by
      a stable insertion sort.  For a consistent comparator every stable
      sort returns the same array. *)

From Stdlib Require Import ZArith Lia Ascii.
From stdpp Require Import base numbers strings gmap list sorting.

Local Open Scope Z_scope.

(** ** Numbers *)

Inductive number :=
  | NaN
  | Inf (neg : bool)
  | Dec (m e : Z).

Global Instance number_eq_dec : EqDecision number.
Proof. solve_decision. Defined.

(** Removal of trailing decimal zeros from a mantissa. *)
Fixpoint strip_zeros (fuel : nat) (m e : Z) : Z * Z :=
  match fuel with
  | O => (m, e)
  | S f => if m mod 10 =? 0 then strip_zeros f (m / 10) (e + 1) else (m, e)
  end.

(** The canonical decimal of value [m * 10^e]: the mantissa has no trailing
    zero, and zero is [Dec 0 0]. *)
Definition dec (m e : Z) : number :=
  if m =? 0 then Dec 0 0
  else let '(m', e') := strip_zeros (Z.to_nat (Z.log2 (Z.abs m))) m e in
       Dec m' e'.

Definition canonical (x : number) : Prop :=
  match x with
  | Dec m e => (m = 0 ∧ e = 0) ∨ (m ≠ 0 ∧ m mod 10 ≠ 0)
  | _ => True
  end.

Definition num_of_Z (z : Z) : number := dec z 0.

Definition num_is_zero (x : number) : bool :=
  match x with Dec m _ => m =? 0 | _ => false end.

(** [x * y] of JavaScript. *)
Definition num_mul (x y : number) : number :=
  match x, y with
  | NaN, _ | _, NaN => NaN
  | Dec a e, Dec b f => dec (a * b) (e + f)
  | Inf n, Inf n' => Inf (xorb n n')
  | Inf n, Dec b _ | Dec b _, Inf n =>
      if b =? 0 then NaN else Inf (xorb n (b <? 0))
  end.

(** [x + y] of JavaScript. *)
Definition num_add (x y : number) : number :=
  match x, y with
  | NaN, _ | _, NaN => NaN
  | Dec a e, Dec b f =>
      let g := Z.min e f in dec (a * 10 ^ (e - g) + b * 10 ^ (f - g)) g
  | Inf n, Inf n' => if Bool.eqb n n' then Inf n else NaN
  | Inf n, Dec _ _ | Dec _ _, Inf n => Inf n
  end.

(** [x < y] of JavaScript on numbers: false as soon as one side is [NaN]. *)
Definition num_ltb (x y : number) : bool :=
  match x, y with
  | NaN, _ | _, NaN => false
  | Dec a e, Dec b f =>
      let g := Z.min e f in a * 10 ^ (e - g) <? b * 10 ^ (f - g)
  | Inf n, Inf n' => n && negb n'
  | Inf n, Dec _ _ => n
  | Dec _ _, Inf n => negb n
  end.

Definition num_leb (x y : number) : bool :=
  match x, y with
  | NaN, _ | _, NaN => false
  | Dec a e, Dec b f =>
      let g := Z.min e f in a * 10 ^ (e - g) <=? b * 10 ^ (f - g)
  | Inf n, Inf n' => n || negb n'
  | Inf n, Dec _ _ => n
  | Dec _ _, Inf n => negb n
  end.

(** *** Rounding to binary64

    The Number value of a real: the nearest double, a tie going to the even
    significand, an infinity from [2^1024] on.  The real is the ratio
    [p / q] of two positive integers; [t] is the binary exponent of the
    unit in the last place, at least [-1074], and the significand
    [p / (q * 2^t)] is below [2^53]. *)

(** [p / (q * 2^t)] as a ratio of integers. *)
Definition scaled (p q t : Z) : Z * Z :=
  (p * 2 ^ Z.max 0 (- t), q * 2 ^ Z.max 0 t).

Definition binary_exponent (p q : Z) : Z :=
  let t0 := Z.log2 p - Z.log2 q - 53 in
  let '(n, d) := scaled p q t0 in
  Z.max (if n / d <? 2 ^ 53 then t0 else t0 + 1) (-1074).

(** The integer nearest to [n / d], a tie going to the even one. *)
Definition round_half_even (n d : Z) : Z :=
  let k := n / d in
  let r := n mod d in
  if 2 * r <? d then k
  else if d <? 2 * r then k + 1
  else if Z.even k then k else k + 1.

(** [M * 2^t] as a decimal. *)
Definition dyadic (M t : Z) : number :=
  if 0 <=? t then dec (M * 2 ^ t) 0 else dec (M * 5 ^ (- t)) t.

Definition round_ratio (neg : bool) (p q : Z) : number :=
  let t := binary_exponent p q in
  let '(n, d) := scaled p q t in
  let M := round_half_even n d in
  if (0 <=? t) && (2 ^ 1024 <=? M * 2 ^ t) then Inf neg
  else dyadic (if neg then - M else M) t.

Definition round64 (x : number) : number :=
  match x with
  | Dec m e =>
      if m =? 0 then Dec 0 0
      else round_ratio (m <? 0) (Z.abs m * 10 ^ Z.max 0 e) (10 ^ Z.max 0 (- e))
  | _ => x
  end.

(** ** Strings *)

Definition code (c : ascii) : Z := Z.of_N (N_of_ascii c).
Definition char_of (z : Z) : ascii := ascii_of_N (Z.to_N z).

(** White space and line terminators of ECMAScript among the code units
    below 256: TAB, LF, VT, FF, CR, SP and NBSP. *)
Definition is_white (c : ascii) : bool :=
  let n := code c in
  ((9 <=? n) && (n <=? 13)) || (n =? 32) || (n =? 160).

Fixpoint trim_start (s : string) : string :=
  match s with
  | String c s' => if is_white c then trim_start s' else s
  | EmptyString => EmptyString
  end.

(** True when only white space remains. *)
Fixpoint all_white (s : string) : bool :=
  match s with
  | String c s' => is_white c && all_white s'
  | EmptyString => true
  end.

(** [String.prototype.toLowerCase] on code units below 256. *)
Definition lower_char (c : ascii) : ascii :=
  let n := code c in
  if ((65 <=? n) && (n <=? 90))
     || ((192 <=? n) && (n <=? 222) && negb (n =? 215))
  then char_of (n + 32) else c.

Fixpoint toLowerCase (s : string) : string :=
  match s with
  | String c s' => String (lower_char c) (toLowerCase s')
  | EmptyString => EmptyString
  end.

Fixpoint starts_with (p s : string) : bool :=
  match p, s with
  | EmptyString, _ => true
  | String a p', String b s' => if decide (a = b) then starts_with p' s' else false
  | String _ _, EmptyString => false
  end.

(** [String.prototype.includes]. *)
Fixpoint includes (s p : string) : bool :=
  starts_with p s ||
  match s with
  | String _ s' => includes s' p
  | EmptyString => false
  end.

Fixpoint drop_chars (n : nat) (s : string) : string :=
  match n, s with
  | S n', String _ s' => drop_chars n' s'
  | _, _ => s
  end.

Fixpoint take_chars (n : nat) (s : string) : string :=
  match n, s with
  | S n', String c s' => String c (take_chars n' s')
  | _, _ => EmptyString
  end.

Fixpoint repeat_char (c : ascii) (n : nat) : string :=
  match n with
  | O => EmptyString
  | S n' => String c (repeat_char c n')
  end.

(** ** Digits *)

(** Value of a digit in the given radix (letters in either case). *)
Definition digit_val (radix : Z) (c : ascii) : option Z :=
  let n := code c in
  let v := if (48 <=? n) && (n <=? 57) then n - 48
           else if (97 <=? n) && (n <=? 122) then n - 87
           else if (65 <=? n) && (n <=? 90) then n - 55
           else radix in
  if v <? radix then Some v else None.

(** The longest prefix of digits: accumulated value, number of digits read
    and the rest of the string. *)
Fixpoint take_digits (radix : Z) (s : string) (acc : Z) (cnt : nat)
  : Z * nat * string :=
  match s with
  | String c s' =>
      match digit_val radix c with
      | Some d => take_digits radix s' (acc * radix + d) (S cnt)
      | None => (acc, cnt, s)
      end
  | EmptyString => (acc, cnt, s)
  end.

(** Decimal digits of a non-negative integer, most significant first. *)
Fixpoint render_digits (fuel : nat) (n : Z) (acc : string) : string :=
  let acc' := String (char_of (48 + n mod 10)) acc in
  match fuel with
  | O => acc'
  | S f => if n <? 10 then acc' else render_digits f (n / 10) acc'
  end.

Definition digits (n : Z) : string :=
  render_digits (Z.to_nat (Z.log2 n)) n EmptyString.

(** [Number::toString] for a positive mantissa [s] without trailing zero and
    an exponent [e]: with [k] the number of digits of [s] and [n = k + e],
    the four layouts of ECMAScript. *)
Definition render_abs (s e : Z) : string :=
  let ds := digits s in
  let k := Z.of_nat (String.length ds) in
  let n := k + e in
  if (k <=? n) && (n <=? 21) then
    ds +:+ repeat_char "0" (Z.to_nat (n - k))
  else if (0 <? n) && (n <=? 21) then
    take_chars (Z.to_nat n) ds +:+ "." +:+ drop_chars (Z.to_nat n) ds
  else if (-6 <? n) && (n <=? 0) then
    "0." +:+ repeat_char "0" (Z.to_nat (- n)) +:+ ds
  else
    let ex := n - 1 in
    let tail := "e" +:+ (if ex <? 0 then "-" else "+") +:+ digits (Z.abs ex) in
    if k =? 1 then ds +:+ tail
    else take_chars 1 ds +:+ "." +:+ drop_chars 1 ds +:+ tail.

Definition num_to_string (x : number) : string :=
  match x with
  | NaN => "NaN"
  | Inf neg => if neg then "-Infinity" else "Infinity"
  | Dec m e =>
      match dec m e with
      | Dec m' e' =>
          if m' =? 0 then "0"
          else (if m' <? 0 then "-" else "") +:+ render_abs (Z.abs m') e'
      | _ => "NaN"
      end
  end.

(** An optional sign: whether it is a minus, and the rest. *)
Definition read_sign (s : string) : bool * string :=
  match s with
  | String "-" s' => (true, s')
  | String "+" s' => (false, s')
  | _ => (false, s)
  end.

Definition signed (neg : bool) (v : Z) : Z := if neg then - v else v.

(** [parseInt(string)] without a radix argument: leading white space is
    skipped, then a sign, then "0x" or "0X" selects radix 16, then the
    longest run of digits is read; [None] stands for [NaN]. *)
Definition parseInt_str (s : string) : option Z :=
  let '(neg, s2) := read_sign (trim_start s) in
  let '(radix, s3) :=
    if starts_with "0x" s2 || starts_with "0X" s2
    then (16, drop_chars 2 s2) else (10, s2) in
  let '(v, cnt, _) := take_digits radix s3 0 0 in
  match cnt with
  | O => None
  | S _ => Some (signed neg v)
  end.

(** An exponent part, read only when "e" or "E" is followed by an optional
    sign and at least one digit. *)
Definition read_exponent (s : string) : Z * string :=
  match s with
  | String c s1 =>
      if decide (c = "e"%char ∨ c = "E"%char) then
        let '(neg, s2) := read_sign s1 in
        let '(v, cnt, s3) := take_digits 10 s2 0 0 in
        match cnt with
        | O => (0, s)
        | S _ => (signed neg v, s3)
        end
      else (0, s)
  | EmptyString => (0, s)
  end.

(** The longest prefix that is a StrUnsignedDecimalLiteral other than
    "Infinity": mantissa, decimal exponent and the rest. *)
Definition read_unsigned (s : string) : option (Z * Z * string) :=
  let '(ip, ni, s1) := take_digits 10 s 0 0 in
  match s1 with
  | String "." s2 =>
      let '(m, nt, s3) := take_digits 10 s2 ip ni in
      match nt with
      | O => None
      | S _ =>
          let '(ex, s4) := read_exponent s3 in
          Some (m, ex - (Z.of_nat nt - Z.of_nat ni), s4)
      end
  | _ =>
      match ni with
      | O => None
      | S _ => let '(ex, s4) := read_exponent s1 in Some (ip, ex, s4)
      end
  end.

Definition read_decimal_literal (s : string) : option (number * string) :=
  let '(neg, s1) := read_sign s in
  if starts_with "Infinity" s1 then Some (Inf neg, drop_chars 8 s1)
  else match read_unsigned s1 with
       | Some (m, e, rest) => Some (dec (signed neg m) e, rest)
       | None => None
       end.

(** [parseFloat(string)]. *)
Definition parseFloat_str (s : string) : number :=
  match read_decimal_literal (trim_start s) with
  | Some (x, _) => x
  | None => NaN
  end.

(** A whole string of digits in the given radix, white space allowed after. *)
Definition read_radix (radix : Z) (s : string) : number :=
  let '(v, cnt, rest) := take_digits radix s 0 0 in
  match cnt with
  | O => NaN
  | S _ => if all_white rest then dec v 0 else NaN
  end.

(** [StringToNumber]: the conversion applied by [<] and [-] to a string. *)
Definition string_to_number (s : string) : number :=
  let t := trim_start s in
  if all_white t then Dec 0 0
  else if starts_with "0x" t || starts_with "0X" t then read_radix 16 (drop_chars 2 t)
  else if starts_with "0o" t || starts_with "0O" t then read_radix 8 (drop_chars 2 t)
  else if starts_with "0b" t || starts_with "0B" t then read_radix 2 (drop_chars 2 t)
  else match read_decimal_literal t with
       | Some (x, rest) => if all_white rest then x else NaN
       | None => NaN
       end.

(** ** JavaScript values *)

Inductive JsVal :=
  | JUndefined
  | JBool (b : bool)
  | JNum (x : number)
  | JStr (s : string).

Global Instance JsVal_eq_dec : EqDecision JsVal.
Proof. solve_decision. Defined.

Definition ToString (v : JsVal) : string :=
  match v with
  | JUndefined => "undefined"
  | JBool b => if b then "true" else "false"
  | JNum x => num_to_string x
  | JStr s => s
  end.

Definition ToNumber (v : JsVal) : number :=
  match v with
  | JUndefined => NaN
  | JBool b => Dec (if b then 1 else 0) 0
  | JNum x => x
  | JStr s => string_to_number s
  end.

(** [ToBoolean]. *)
Definition truthy (v : JsVal) : bool :=
  match v with
  | JUndefined => false
  | JBool b => b
  | JNum NaN => false
  | JNum x => negb (num_is_zero x)
  | JStr s => negb (bool_decide (s = ""))
  end.

(** [v || d]. *)
Definition or_else (v d : JsVal) : JsVal := if truthy v then v else d.

(** [parseInt(v)] and [parseFloat(v)]: the argument is converted to a string
    first. *)
Definition parseInt (v : JsVal) : option Z := parseInt_str (ToString v).
Definition parseFloat (v : JsVal) : number := parseFloat_str (ToString v).

(** [parseInt(v) || 0]: [NaN] and zero both give 0. *)
Definition int_or_zero (o : option Z) : Z := default 0 o.

(** [parseFloat(v) || 0]. *)
Definition num_or_zero (x : number) : number :=
  match x with
  | NaN => Dec 0 0
  | Dec m e => if m =? 0 then Dec 0 0 else x
  | Inf _ => x
  end.

(** [a < b] on values: two strings are compared by code units, anything else
    numerically. *)
Definition js_lt (a b : JsVal) : bool :=
  match a, b with
  | JStr s, JStr t => String.ltb s t
  | _, _ => num_ltb (ToNumber a) (ToNumber b)
  end.

(** [a === s] for a string [s]. *)
Definition strict_eq_str (a : JsVal) (s : string) : bool :=
  match a with
  | JStr t => bool_decide (t = s)
  | _ => false
  end.

(** ** The canonical record *)

Inductive StockLevel := OUT_OF_STOCK | LOW_STOCK | MEDIUM_STOCK | HIGH_STOCK.

Global Instance StockLevel_eq_dec : EqDecision StockLevel.
Proof. solve_decision. Defined.

(** The string that the code stores for each level. *)
Definition level_name (l : StockLevel) : string :=
  match l with
  | OUT_OF_STOCK => "OUT_OF_STOCK"
  | LOW_STOCK => "LOW_STOCK"
  | MEDIUM_STOCK => "MEDIUM_STOCK"
  | HIGH_STOCK => "HIGH_STOCK"
  end.

Record SparePart := mkSparePart {
  id : JsVal;
  equipmentCategory : JsVal;
  partName : JsVal;
  partCode : JsVal;
  currentStock : Z;
  minRequired : Z;
  maxThreshold : Z;
  inProcess : Z;
  unitCost : number;
  supplier : JsVal;
  lastUpdated : JsVal;
  status : JsVal;
  stockLevel : StockLevel;
  totalValue : number
}.

Global Instance SparePart_eq_dec : EqDecision SparePart.
Proof. solve_decision. Defined.

(** A raw row: column name to cell. *)
Abbreviation Row := (gmap string JsVal).

(** [item.column]: a missing column reads as [undefined]. *)
Definition cell (item : Row) (column : string) : JsVal :=
  default JUndefined (item !! column).

(** ** Stock classifier: [getStockLevel]

    The two arguments are the integers [parseInt(...) || 0] of the
    normaliser; [minRequired * 1.5] is the product of two doubles, rounded
    to binary64 before the comparison. *)

Definition getStockLevel (currentStock minRequired : Z) : StockLevel :=
  if currentStock =? 0 then OUT_OF_STOCK
  else if currentStock <=? minRequired then LOW_STOCK
  else if num_leb (num_of_Z currentStock)
                  (round64 (num_mul (num_of_Z minRequired) (Dec 15 (-1))))
       then MEDIUM_STOCK
  else HIGH_STOCK.

(** ** Field normaliser: one element of [processSparePartsData]

    [today] is [new Date().toISOString().split('T')[0]] and [token] is
    [Math.random().toString(36).substr(2, 9)]; the token is used only when
    the part code is falsy. *)
Definition normalize (today token : string) (item : Row) : SparePart :=
  {| id := or_else (cell item "Part_Code")
             (JStr (ToString (cell item "Equipment_Category") +:+ "-" +:+ token));
     equipmentCategory := or_else (cell item "Equipment_Category") (JStr "UNKNOWN");
     partName := or_else (cell item "Part_Name") (JStr "Unknown Part");
     partCode := or_else (cell item "Part_Code") (JStr "N/A");
     currentStock := int_or_zero (parseInt (cell item "Current_Stock"));
     minRequired := int_or_zero (parseInt (cell item "Minimum_Required"));
     maxThreshold := int_or_zero (parseInt (cell item "Maximum_Threshold"));
     inProcess := int_or_zero (parseInt (cell item "In_Process"));
     unitCost := num_or_zero (parseFloat (cell item "Unit_Cost"));
     supplier := or_else (cell item "Supplier") (JStr "Unknown");
     lastUpdated := or_else (cell item "Last_Updated") (JStr today);
     status := or_else (cell item "Status") (JStr "Active");
     stockLevel :=
       getStockLevel (int_or_zero (parseInt (cell item "Current_Stock")))
                     (int_or_zero (parseInt (cell item "Minimum_Required")));
     totalValue :=
       num_mul (num_of_Z (int_or_zero (parseInt (cell item "Current_Stock"))))
               (num_or_zero (parseFloat (cell item "Unit_Cost"))) |}.

(** The source of random tokens: the [k]-th call of [Math.random] yields
    [rnd k]; the state is the number of calls made so far. *)
Definition draws (item : Row) : nat :=
  if truthy (cell item "Part_Code") then 0%nat else 1%nat.

(** [processSparePartsData]: [rawData.map(item => ...)], a token being drawn
    for each row without a part code. *)
Fixpoint processSparePartsData (today : string) (rnd : nat → string)
    (k : nat) (rawData : list Row) : list SparePart :=
  match rawData with
  | [] => []
  | item :: rest =>
      normalize today (rnd k) item
        :: processSparePartsData today rnd (k + draws item)%nat rest
  end.

(** ** Dataset loader: [readExcelData] *)

(** What [xlsx.readFile] returns: the sheet names in workbook order and the
    sheets by name, each sheet already converted by [sheet_to_json]. *)
Record Workbook := {
  SheetNames : list string;
  Sheets : gmap string (list Row)
}.

(** The file on disk as the loader meets it. *)
Inductive Source :=
  | NotFound
  | ReadThrows
  | Readable (workbook : Workbook).

(** [sheet_to_json] of a sheet that may be [undefined]. *)
Definition sheet_to_json (worksheet : option (list Row)) : list Row :=
  default [] worksheet.

Definition readExcelData (today : string) (rnd : nat → string) (k : nat)
    (src : Source) : list SparePart :=
  match src with
  | NotFound => []
  | ReadThrows => []
  | Readable workbook =>
      let sheetName := "Spare_Parts_Inventory" in
      match Sheets workbook !! sheetName with
      | None =>
          match SheetNames workbook with
          | [] => []
          | firstSheetName :: _ =>
              if bool_decide (firstSheetName = "") then []
              else
                let worksheet := Sheets workbook !! firstSheetName in
                processSparePartsData today rnd k (sheet_to_json worksheet)
          end
      | Some worksheet =>
          processSparePartsData today rnd k (sheet_to_json (Some worksheet))
      end
  end.

(** ** The server state *)

Record Server := {
  sparePartsData : list SparePart;
  lastSyncTime : string
}.

(** [/api/refresh-data]: the loader runs and its result replaces the data. *)
Definition refresh_data (today now : string) (rnd : nat → string) (k : nat)
    (src : Source) (st : Server) : Server :=
  {| sparePartsData := readExcelData today rnd k src; lastSyncTime := now |}.

(** ** Arrays *)

(** [Array.prototype.slice(start, end)]: a negative index counts from the
    end of the array. *)
Definition slice {A} (l : list A) (start final : Z) : list A :=
  let len := Z.of_nat (length l) in
  let k := if start <? 0 then Z.max (len + start) 0 else Z.min start len in
  let f := if final <? 0 then Z.max (len + final) 0 else Z.min final len in
  take (Z.to_nat (f - k)) (drop (Z.to_nat k) l).

(** [Array.prototype.sort(comparefn)]: [x] is placed after [y] only when
    [comparefn(x, y) > 0], so equal elements keep their order. *)
Fixpoint insert_sorted {A} (comparefn : A → A → Z) (x : A) (l : list A) : list A :=
  match l with
  | [] => [x]
  | y :: l' =>
      if comparefn x y >? 0 then y :: insert_sorted comparefn x l' else x :: l
  end.

Fixpoint sort {A} (comparefn : A → A → Z) (l : list A) : list A :=
  match l with
  | [] => []
  | x :: l' => insert_sorted comparefn x (sort comparefn l')
  end.

(** The same sort with a comparator that can throw: [None] is the
    exception. *)
Fixpoint insert_sortedM {A} (comparefn : A → A → option Z) (x : A) (l : list A)
  : option (list A) :=
  match l with
  | [] => Some [x]
  | y :: l' =>
      c ← comparefn x y;
      if c >? 0 then (y ::.) <$> insert_sortedM comparefn x l' else Some (x :: l)
  end.

Fixpoint sortM {A} (comparefn : A → A → option Z) (l : list A) : option (list A) :=
  match l with
  | [] => Some []
  | x :: l' => sortM comparefn l' ≫= insert_sortedM comparefn x
  end.

(** [Array.prototype.filter] with a predicate that can throw. *)
Fixpoint filterM {A} (p : A → option bool) (l : list A) : option (list A) :=
  match l with
  | [] => Some []
  | x :: l' =>
      b ← p x;
      r ← filterM p l';
      Some (if b : bool then x :: r else r)
  end.

(** ** Records as objects *)

(** The record as the JavaScript object it is: its own property names. *)
Definition to_object (a : SparePart) : Row :=
  list_to_map
    [ ("id", id a);
      ("equipmentCategory", equipmentCategory a);
      ("partName", partName a);
      ("partCode", partCode a);
      ("currentStock", JNum (num_of_Z (currentStock a)));
      ("minRequired", JNum (num_of_Z (minRequired a)));
      ("maxThreshold", JNum (num_of_Z (maxThreshold a)));
      ("inProcess", JNum (num_of_Z (inProcess a)));
      ("unitCost", JNum (unitCost a));
      ("supplier", supplier a);
      ("lastUpdated", lastUpdated a);
      ("status", status a);
      ("stockLevel", JStr (level_name (stockLevel a)));
      ("totalValue", JNum (totalValue a)) ].

(** [a[sortField]]: [undefined] for a name that is not a property of the
    record.  (A name inherited from [Object.prototype] reads the same object
    on every record; like [undefined] it is neither below nor above
    itself.) *)
Definition field (a : SparePart) (sortField : string) : JsVal :=
  cell (to_object a) sortField.

(** ** Query engine: [app.get('/api/spare-parts')] *)

(** [req.query]: each parameter is absent or a string. *)
Record Query := {
  q_equipment : option string;
  q_stockLevel : option string;
  q_status : option string;
  q_search : option string;
  q_sortBy : option string;
  q_sortOrder : option string;
  q_page : option string;
  q_limit : option string
}.

Definition param (p : option string) : JsVal :=
  match p with Some s => JStr s | None => JUndefined end.

(** [if (req.query.x)]: the parameter when it is present and not empty. *)
Definition supplied (p : option string) : option string :=
  match p with
  | Some s => if bool_decide (s = "") then None else Some s
  | None => None
  end.

(** [v.toLowerCase()]: a [TypeError] unless [v] is a string. *)
Definition lower_of (v : JsVal) : option string :=
  match v with JStr s => Some (toLowerCase s) | _ => None end.

(** The search predicate of the back end; [||] evaluates its right operand
    only when the left one is false. *)
Definition search_match (searchTerm : string) (item : SparePart) : option bool :=
  n ← lower_of (partName item);
  if includes n searchTerm then Some true
  else c ← lower_of (partCode item); Some (includes c searchTerm).

Definition when {A} (p : option string) (f : string → list A → option (list A))
    (l : list A) : option (list A) :=
  match supplied p with Some s => f s l | None => Some l end.

(** The comparator of the back end. *)
Definition compare_field (sortField : string) (sortOrder : Z) (a b : SparePart) : Z :=
  if js_lt (field a sortField) (field b sortField) then -1 * sortOrder
  else if js_lt (field b sortField) (field a sortField) then 1 * sortOrder
  else 0.

Definition sort_order (q : Query) : Z :=
  if bool_decide (q_sortOrder q = Some "desc") then -1 else 1.

(** The filtering and sorting part of the handler: [filteredData] when the
    pagination starts, [None] when a filter threw. *)
Definition filteredData (data : list SparePart) (q : Query) : option (list SparePart) :=
  l1 ← when (q_equipment q)
         (λ s l, Some (filter (λ item, strict_eq_str (equipmentCategory item) s = true) l))
         data;
  l2 ← when (q_stockLevel q)
         (λ s l, Some (filter (λ item, level_name (stockLevel item) = s) l)) l1;
  l3 ← when (q_status q)
         (λ s l, Some (filter (λ item, strict_eq_str (status item) s = true) l)) l2;
  l4 ← when (q_search q) (λ s l, filterM (search_match (toLowerCase s)) l) l3;
  when (q_sortBy q) (λ s l, Some (sort (compare_field s (sort_order q)) l)) l4.

(** [parseInt(req.query.page) || 1] and [parseInt(req.query.limit) || 50]. *)
Definition int_or (d : Z) (o : option Z) : Z :=
  match o with
  | Some z => if z =? 0 then d else z
  | None => d
  end.

(** [Math.ceil(a / b)] for integers, [b] not zero. *)
Definition ceil_div (a b : Z) : Z := - ((- a) / b).

Record Page := {
  data : list SparePart;
  total : Z;
  page : Z;
  limit : Z;
  totalPages : Z;
  lastSync : string
}.

(** What the handler answers: the JSON body, or status 500 from the
    [catch]. *)
Inductive Response (A : Type) :=
  | Ok (body : A)
  | InternalServerError.
Arguments Ok {A} body.
Arguments InternalServerError {A}.

Definition paginate (st : Server) (q : Query) (filtered : list SparePart) : Page :=
  let page := int_or 1 (parseInt (param (q_page q))) in
  let limit := int_or 50 (parseInt (param (q_limit q))) in
  let startIndex := (page - 1) * limit in
  let endIndex := page * limit in
  {| data := slice filtered startIndex endIndex;
     total := Z.of_nat (length filtered);
     page := page;
     limit := limit;
     totalPages := ceil_div (Z.of_nat (length filtered)) limit;
     lastSync := lastSyncTime st |}.

Definition get_spare_parts (st : Server) (q : Query) : Response Page :=
  match filteredData (sparePartsData st) q with
  | Some filtered => Ok (paginate st q filtered)
  | None => InternalServerError
  end.

(** ** Dates *)

(** Exactly [n] decimal digits. *)
Fixpoint read_fixed (n : nat) (s : string) (acc : Z) : option (Z * string) :=
  match n with
  | O => Some (acc, s)
  | S n' =>
      match s with
      | String c s' =>
          match digit_val 10 c with
          | Some d => read_fixed n' s' (acc * 10 + d)
          | None => None
          end
      | EmptyString => None
      end
  end.

(** Days from 1970-01-01 to the given day of the proleptic Gregorian
    calendar; a day past the end of its month runs into the next month. *)
Definition days_from_civil (y m d : Z) : Z :=
  let y' := if m <=? 2 then y - 1 else y in
  let era := y' / 400 in
  let yoe := y' - era * 400 in
  let doy := (153 * (if m >? 2 then m - 3 else m + 9) + 2) / 5 + d - 1 in
  let doe := yoe * 365 + yoe / 4 - yoe / 100 + doy in
  era * 146097 + doe - 719468.

Definition utc_midnight (y m d : Z) : option Z :=
  if (1 <=? m) && (m <=? 12) && (1 <=? d) && (d <=? 31)
  then Some (days_from_civil y m d * 86400000) else None.

(** The time of day "HH:mm", "HH:mm:ss" or "HH:mm:ss.sss", in
    milliseconds, and what follows it. *)
Definition read_time (s : string) : option (Z * string) :=
  match read_fixed 2 s 0 with
  | Some (h, String ":" s1) =>
      match read_fixed 2 s1 0 with
      | Some (m, s2) =>
          if (h <=? 23) && (m <=? 59) then
            match s2 with
            | String ":" s3 =>
                match read_fixed 2 s3 0 with
                | Some (sec, s4) =>
                    if sec <=? 59 then
                      match s4 with
                      | String "." s5 =>
                          match read_fixed 3 s5 0 with
                          | Some (ms, s6) =>
                              Some (h * 3600000 + m * 60000 + sec * 1000 + ms, s6)
                          | None => None
                          end
                      | _ => Some (h * 3600000 + m * 60000 + sec * 1000, s4)
                      end
                    else None
                | None => None
                end
            | _ => Some (h * 3600000 + m * 60000, s2)
            end
          else None
      | None => None
      end
  | _ => None
  end.

(** The UTC offset that ends a date-time: "Z", "+HH:mm" or "-HH:mm", in
    milliseconds. *)
Definition read_offset (s : string) : option Z :=
  match s with
  | String "Z" EmptyString => Some 0
  | String c s1 =>
      if bool_decide (c = "+"%char) || bool_decide (c = "-"%char) then
        match read_fixed 2 s1 0 with
        | Some (h, String ":" s2) =>
            match read_fixed 2 s2 0 with
            | Some (m, EmptyString) =>
                if (h <=? 23) && (m <=? 59)
                then Some (signed (bool_decide (c = "-"%char))
                                  (h * 3600000 + m * 60000))
                else None
            | _ => None
            end
        | _ => None
        end
      else None
  | EmptyString => None
  end.

(** [Date.parse] on the ISO format: the date-only forms "YYYY", "YYYY-MM"
    and "YYYY-MM-DD", which are read as UTC, and the date-time forms
    "YYYY-MM-DDTHH:mm", "YYYY-MM-DDTHH:mm:ss" and "YYYY-MM-DDTHH:mm:ss.sss"
    followed by "Z" or by an offset "+HH:mm" or "-HH:mm".  Any other string
    is taken as unparseable: what [Date.parse] makes of it (a date-time
    without offset, a format outside ISO) depends on the time zone and on
    the engine. *)
Definition Date_parse (s : string) : option Z :=
  match read_fixed 4 s 0 with
  | Some (y, EmptyString) => utc_midnight y 1 1
  | Some (y, String "-" s1) =>
      match read_fixed 2 s1 0 with
      | Some (m, EmptyString) => utc_midnight y m 1
      | Some (m, String "-" s2) =>
          match read_fixed 2 s2 0 with
          | Some (d, EmptyString) => utc_midnight y m d
          | Some (d, String "T" s3) =>
              match utc_midnight y m d, read_time s3 with
              | Some day, Some (t, s4) =>
                  match read_offset s4 with
                  | Some offset => Some (day + t - offset)
                  | None => None
                  end
              | _, _ => None
              end
          | _ => None
          end
      | _ => None
      end
  | _ => None
  end.

(** Truncation of a decimal towards zero. *)
Definition trunc (m e : Z) : Z :=
  if 0 <=? e then m * 10 ^ e else Z.quot m (10 ^ (- e)).

(** The time value of [new Date(v)]; [None] is the invalid date ([NaN]). *)
Definition date_value (v : JsVal) : option Z :=
  match v with
  | JStr s => Date_parse s
  | _ =>
      match ToNumber v with
      | Dec m e =>
          let t := trunc m e in
          if Z.abs t <=? 8640000000000000 then Some t else None
      | _ => None
      end
  end.

(** ** Aggregator: [app.get('/api/dashboard/stats')] *)

(** [new Date(b.lastUpdated) - new Date(a.lastUpdated)]; the sort reads a
    [NaN] result as 0. *)
Definition by_recency (a b : SparePart) : Z :=
  match date_value (lastUpdated b), date_value (lastUpdated a) with
  | Some tb, Some ta => tb - ta
  | _, _ => 0
  end.

Record Breakdown := {
  b_totalParts : Z;
  b_totalValue : number;
  b_criticalParts : Z
}.

Record LevelCounts := {
  n_OUT_OF_STOCK : Z;
  n_LOW_STOCK : Z;
  n_MEDIUM_STOCK : Z;
  n_HIGH_STOCK : Z
}.

Record Stats := {
  s_totalParts : Z;
  s_totalValue : number;
  s_outOfStock : Z;
  s_lowStock : Z;
  s_inProcess : Z;
  equipmentBreakdown : gmap string Breakdown;
  stockLevelBreakdown : LevelCounts;
  recentActivity : list SparePart;
  s_lastSync : string
}.

Definition is_level (l : StockLevel) (item : SparePart) : bool :=
  bool_decide (stockLevel item = l).

Definition count_level (l : StockLevel) (items : list SparePart) : Z :=
  Z.of_nat (length (filter (λ item, stockLevel item = l) items)).

(** One step of the [forEach]: the category key is created on first use
    (keys inherited from [Object.prototype] are not modelled). *)
Definition add_equipment (m : gmap string Breakdown) (item : SparePart)
  : gmap string Breakdown :=
  let key := ToString (equipmentCategory item) in
  let b := default {| b_totalParts := 0; b_totalValue := Dec 0 0; b_criticalParts := 0 |}
                   (m !! key) in
  <[ key := {| b_totalParts := b_totalParts b + 1;
               b_totalValue := num_add (b_totalValue b) (totalValue item);
               b_criticalParts :=
                 if is_level OUT_OF_STOCK item || is_level LOW_STOCK item
                 then b_criticalParts b + 1 else b_criticalParts b |} ]> m.

Definition add_level (c : LevelCounts) (item : SparePart) : LevelCounts :=
  match stockLevel item with
  | OUT_OF_STOCK =>
      {| n_OUT_OF_STOCK := n_OUT_OF_STOCK c + 1; n_LOW_STOCK := n_LOW_STOCK c;
         n_MEDIUM_STOCK := n_MEDIUM_STOCK c; n_HIGH_STOCK := n_HIGH_STOCK c |}
  | LOW_STOCK =>
      {| n_OUT_OF_STOCK := n_OUT_OF_STOCK c; n_LOW_STOCK := n_LOW_STOCK c + 1;
         n_MEDIUM_STOCK := n_MEDIUM_STOCK c; n_HIGH_STOCK := n_HIGH_STOCK c |}
  | MEDIUM_STOCK =>
      {| n_OUT_OF_STOCK := n_OUT_OF_STOCK c; n_LOW_STOCK := n_LOW_STOCK c;
         n_MEDIUM_STOCK := n_MEDIUM_STOCK c + 1; n_HIGH_STOCK := n_HIGH_STOCK c |}
  | HIGH_STOCK =>
      {| n_OUT_OF_STOCK := n_OUT_OF_STOCK c; n_LOW_STOCK := n_LOW_STOCK c;
         n_MEDIUM_STOCK := n_MEDIUM_STOCK c; n_HIGH_STOCK := n_HIGH_STOCK c + 1 |}
  end.

(** The handler: the statistics it answers and the server state it leaves.
    [sparePartsData.sort(...)] sorts the shared array in place, so the
    array the server holds afterwards is the sorted one, and the [forEach]
    that follows walks it in that order. *)
Definition dashboard_stats (st : Server) : Stats * Server :=
  let before := sparePartsData st in
  let sorted := sort by_recency before in
  ({| s_totalParts := Z.of_nat (length before);
      s_totalValue := foldl (λ sum item, num_add sum (totalValue item)) (Dec 0 0) before;
      s_outOfStock := count_level OUT_OF_STOCK before;
      s_lowStock := count_level LOW_STOCK before;
      s_inProcess := foldl (λ sum item, sum + inProcess item) 0 before;
      equipmentBreakdown := foldl add_equipment ∅ sorted;
      stockLevelBreakdown :=
        foldl add_level
          {| n_OUT_OF_STOCK := 0; n_LOW_STOCK := 0;
             n_MEDIUM_STOCK := 0; n_HIGH_STOCK := 0 |} sorted;
      recentActivity := slice sorted 0 10;
      s_lastSync := lastSyncTime st |},
   {| sparePartsData := sorted; lastSyncTime := lastSyncTime st |}).

(** ** The front end: [filterSpareParts] of [apiService.jsx] *)

Record Filters := {
  f_equipment : option string;
  f_stockLevel : option string;
  f_status : option string;
  f_search : option string;
  f_sortBy : option string;
  f_sortOrder : option string
}.

(** [filters.x && filters.x !== 'ALL']. *)
Definition chosen (p : option string) : option string :=
  match supplied p with
  | Some s => if bool_decide (s = "ALL") then None else Some s
  | None => None
  end.

Definition search_match_front (searchTerm : string) (part : SparePart) : option bool :=
  n ← lower_of (partName part);
  if includes n searchTerm then Some true
  else c ← lower_of (partCode part);
       if includes c searchTerm then Some true
       else s ← lower_of (supplier part); Some (includes s searchTerm).

Definition three_way (sortOrder : Z) (aVal bVal : JsVal) : Z :=
  if js_lt aVal bVal then -1 * sortOrder
  else if js_lt bVal aVal then 1 * sortOrder
  else 0.

(** The comparator of the front end: when [aVal] is a string both values
    are lower-cased, which throws if [bVal] is not a string. *)
Definition compare_field_front (sortField : string) (sortOrder : Z)
    (a b : SparePart) : option Z :=
  let aVal := field a sortField in
  let bVal := field b sortField in
  match aVal with
  | JStr s =>
      t ← lower_of bVal;
      Some (three_way sortOrder (JStr (toLowerCase s)) (JStr t))
  | _ => Some (three_way sortOrder aVal bVal)
  end.

Definition with_choice {A} (p : option string)
    (f : string → list A → option (list A)) (l : list A) : option (list A) :=
  match p with Some s => f s l | None => Some l end.

Definition filterSpareParts (spareParts : list SparePart) (filters : Filters)
  : option (list SparePart) :=
  l1 ← with_choice (chosen (f_equipment filters))
         (λ s l, Some (filter (λ part, strict_eq_str (equipmentCategory part) s = true) l))
         spareParts;
  l2 ← with_choice (chosen (f_stockLevel filters))
         (λ s l, Some (filter (λ part, level_name (stockLevel part) = s) l)) l1;
  l3 ← with_choice (chosen (f_status filters))
         (λ s l, Some (filter (λ part, strict_eq_str (status part) s = true) l)) l2;
  l4 ← with_choice (supplied (f_search filters))
         (λ s l, filterM (search_match_front (toLowerCase s)) l) l3;
  with_choice (supplied (f_sortBy filters))
    (λ s l, sortM (compare_field_front s
                     (if bool_decide (f_sortOrder filters = Some "desc") then -1 else 1)) l)
    l4.

(** ** Vocabulary of the statements and sample data *)

(** The columns that [processSparePartsData] reads. *)
Definition columns : list string :=
  [ "Part_Code"; "Equipment_Category"; "Part_Name"; "Current_Stock";
    "Minimum_Required"; "Maximum_Threshold"; "In_Process"; "Unit_Cost";
    "Supplier"; "Last_Updated"; "Status" ].

(** The columns read with [parseInt] or [parseFloat]. *)
Definition numeric_columns : list string :=
  [ "Current_Stock"; "Minimum_Required"; "Maximum_Threshold"; "In_Process";
    "Unit_Cost" ].

(** The five numeric fields of a record are non-negative. *)
Definition nonneg_fields (r : SparePart) : Prop :=
  0 ≤ currentStock r ∧ 0 ≤ minRequired r ∧ 0 ≤ maxThreshold r
  ∧ 0 ≤ inProcess r ∧ num_leb (Dec 0 0) (unitCost r) = true.

(** A row whose numeric cells all hold the text "-5". *)
Definition negative_row : Row :=
  list_to_map ((λ column, (column, JStr "-5")) <$> numeric_columns).

(** A cell carries no minus sign: converted to a string, it does not start
    with "-" once leading white space is skipped.  This holds for an absent
    cell, a boolean, a number that is not negative, and any text without a
    leading minus. *)
Definition unsigned_cell (v : JsVal) : bool :=
  negb (starts_with "-" (trim_start (ToString v))).

(** A row with a textual stock, a numeric minimum and a fractional cost. *)
Definition plain_row : Row :=
  <["Current_Stock" := JStr "7"]>
    (<["Minimum_Required" := JNum (Dec 3 0)]>
       (<["Unit_Cost" := JNum (Dec 25 (-1))]> ∅)).

(** The property names of a record. *)
Definition property_names : list string :=
  [ "id"; "equipmentCategory"; "partName"; "partCode"; "currentStock";
    "minRequired"; "maxThreshold"; "inProcess"; "unitCost"; "supplier";
    "lastUpdated"; "status"; "stockLevel"; "totalValue" ].

(** The [page] and [limit] of the handler. *)
Definition page_of (q : Query) : Z := int_or 1 (parseInt (param (q_page q))).
Definition limit_of (q : Query) : Z := int_or 50 (parseInt (param (q_limit q))).

(** The query without its [sortBy] parameter. *)
Definition without_sort (q : Query) : Query :=
  {| q_equipment := q_equipment q; q_stockLevel := q_stockLevel q;
     q_status := q_status q; q_search := q_search q;
     q_sortBy := None; q_sortOrder := q_sortOrder q;
     q_page := q_page q; q_limit := q_limit q |}.

(** A record as the loader builds it from a row with a name, a code and a
    date. *)
Definition sample (name code updated : string) : SparePart :=
  normalize "2024-05-01" "k3j9x0q2a"
    (<["Part_Name" := JStr name]>
       (<["Part_Code" := JStr code]>
          (<["Last_Updated" := JStr updated]> ∅))).

(** Queries: no parameter at all, a [sortBy] only, a [page] and a [limit]
    only. *)
Definition no_criteria : Query :=
  {| q_equipment := None; q_stockLevel := None; q_status := None;
     q_search := None; q_sortBy := None; q_sortOrder := None;
     q_page := None; q_limit := None |}.

Definition sort_by (sortField : string) : Query :=
  {| q_equipment := None; q_stockLevel := None; q_status := None;
     q_search := None; q_sortBy := Some sortField; q_sortOrder := None;
     q_page := None; q_limit := None |}.

(** A server holding two records, the older one first. *)
Definition two_parts : Server :=
  {| sparePartsData :=
       [ sample "apple" "A1" "2024-01-01"; sample "Zebra" "Z1" "2024-02-01" ];
     lastSyncTime := "2024-05-01T00:00:00.000Z" |}.

Definition page_query (page limit : string) : Query :=
  {| q_equipment := None; q_stockLevel := None; q_status := None;
     q_search := None; q_sortBy := None; q_sortOrder := None;
     q_page := Some page; q_limit := Some limit |}.

(** A server holding 120 records. *)
Definition many_parts : Server :=
  {| sparePartsData := replicate 120 (sample "Bolt" "B7" "2024-03-01");
     lastSyncTime := "2024-05-01T00:00:00.000Z" |}.

Definition part_names (l : list SparePart) : list JsVal := partName <$> l.

(** Two rows, and two workbooks that hold them: under the first sheet of a
    workbook without the expected sheet, and under the expected sheet placed
    second. *)
Definition two_rows : list Row :=
  [ <["Part_Code" := JStr "A1"]> (<["Current_Stock" := JNum (Dec 5 0)]> ∅);
    <["Equipment_Category" := JStr "PCT"]> ∅ ].

Definition first_sheet_only : Workbook :=
  {| SheetNames := ["Sheet1"]; Sheets := {[ "Sheet1" := two_rows ]} |}.

Definition named_sheet : Workbook :=
  {| SheetNames := ["Notes"; "Spare_Parts_Inventory"];
     Sheets := <["Notes" := []]> {[ "Spare_Parts_Inventory" := two_rows ]} |}.

(** The canonical record with each field under the raw column it was read
    from. *)
Definition to_columns (r : SparePart) : Row :=
  list_to_map
    [ ("Part_Code", partCode r);
      ("Equipment_Category", equipmentCategory r);
      ("Part_Name", partName r);
      ("Current_Stock", JNum (num_of_Z (currentStock r)));
      ("Minimum_Required", JNum (num_of_Z (minRequired r)));
      ("Maximum_Threshold", JNum (num_of_Z (maxThreshold r)));
      ("In_Process", JNum (num_of_Z (inProcess r)));
      ("Unit_Cost", JNum (unitCost r));
      ("Supplier", supplier r);
      ("Last_Updated", lastUpdated r);
      ("Status", status r) ].

(** Field for field the same record, the [id] apart. *)
Definition same_but_id (r' r : SparePart) : Prop :=
  equipmentCategory r' = equipmentCategory r
  ∧ partName r' = partName r
  ∧ partCode r' = partCode r
  ∧ currentStock r' = currentStock r
  ∧ minRequired r' = minRequired r
  ∧ maxThreshold r' = maxThreshold r
  ∧ inProcess r' = inProcess r
  ∧ unitCost r' = unitCost r
  ∧ supplier r' = supplier r
  ∧ lastUpdated r' = lastUpdated r
  ∧ status r' = status r
  ∧ stockLevel r' = stockLevel r
  ∧ totalValue r' = totalValue r.

(** A complete row, and a row whose stock is the text of 10^21. *)
Definition bolt_row : Row :=
  <["Part_Code" := JStr "B7"]>
    (<["Part_Name" := JStr "Bolt"]>
       (<["Equipment_Category" := JStr "PCT"]>
          (<["Current_Stock" := JStr "12"]>
             (<["Minimum_Required" := JStr "4"]>
                (<["Unit_Cost" := JStr "2.5"]> ∅))))).

Definition huge_row : Row :=
  <["Part_Code" := JStr "B7"]>
    (<["Current_Stock" := JStr "1000000000000000000000"]> ∅).

(** Every character is a decimal digit. *)
Fixpoint all_digits (s : string) : bool :=
  match s with
  | String c s' => bool_decide (is_Some (digit_val 10 c)) && all_digits s'
  | EmptyString => true
  end.

(** Value of a string of decimal digits read after [acc]. *)
Fixpoint dval (s : string) (acc : Z) : Z :=
  match s with
  | String c s' =>
      match digit_val 10 c with
      | Some d => dval s' (acc * 10 + d)
      | None => acc
      end
  | EmptyString => acc
  end.

(** The string is empty or starts with something that is not a digit. *)
Definition stops (s : string) : Prop :=
  match s with
  | String c _ => digit_val 10 c = None
  | EmptyString => True
  end.

(** Number of decimal digits, with the fuel of [render_digits]. *)
Fixpoint ndigits (fuel : nat) (n : Z) : nat :=
  match fuel with
  | O => 1
  | S f => if n <? 10 then 1 else S (ndigits f (n / 10))
  end.

(** The tail of a printed number: nothing, or an exponent part. *)
Definition exponent_tail (tail : string) : Prop :=
  tail = "" ∨ ∃ t, tail = String "e" t.

(** ** Further handlers, front-end helpers and vocabulary *)

(** The property names that an object literal inherits from
    [Object.prototype]. *)
Definition prototype_names : list string :=
  [ "constructor"; "__proto__"; "hasOwnProperty"; "isPrototypeOf";
    "propertyIsEnumerable"; "toLocaleString"; "toString"; "valueOf";
    "__defineGetter__"; "__defineSetter__"; "__lookupGetter__";
    "__lookupSetter__" ].

(** Sum of one figure over the categories of [equipmentBreakdown]. *)
Definition breakdown_sum (f : Breakdown → Z) (m : gmap string Breakdown) : Z :=
  map_fold (λ _ b acc, f b + acc) 0 m.

(** Whether a record counts as critical. *)
Definition critical (item : SparePart) : bool :=
  is_level OUT_OF_STOCK item || is_level LOW_STOCK item.

(** What holds of every category entry while the [forEach] runs. *)
Definition breakdown_ok (l : list SparePart) (m : gmap string Breakdown) : Prop :=
  ∀ k b, m !! k = Some b →
    1 ≤ b_totalParts b ∧ 0 ≤ b_criticalParts b ≤ b_totalParts b
    ∧ ∃ item, item ∈ l ∧ ToString (equipmentCategory item) = k.

(** The time of the last update, for a record whose date [date_value]
    reads. *)
Definition time_of (item : SparePart) : Z :=
  default 0 (date_value (lastUpdated item)).

(** The record has a date that [date_value] reads: [lastUpdated] is a
    number (or a boolean) whose time value lies within 8640000000000000 ms
    of the epoch, or a string in one of the ISO forms of [Date_parse]: a date
    "YYYY", "YYYY-MM" or "YYYY-MM-DD", or a date-time
    "YYYY-MM-DDTHH:mm[:ss[.sss]]" that ends in "Z" or in an offset "+HH:mm"
    or "-HH:mm"; the month is from 01 to 12, the day from 01 to 31, the hour
    up to 23, minutes and seconds up to 59. *)
Definition dated (item : SparePart) : Prop :=
  is_Some (date_value (lastUpdated item)).

(** Two dated records, the first one not older than the second. *)
Definition not_older (a b : SparePart) : Prop :=
  dated a ∧ dated b ∧ time_of b ≤ time_of a.

(** A criterion holds of a record when it is not supplied or its test
    passes. *)
Definition criterion (p : option string) (test : string → SparePart → bool)
    (item : SparePart) : bool :=
  match supplied p with Some s => test s item | None => true end.

(** The record passes the three exact-match filters of the query. *)
Definition matches (q : Query) (item : SparePart) : bool :=
  criterion (q_equipment q) (λ s item, strict_eq_str (equipmentCategory item) s) item
  && criterion (q_stockLevel q)
       (λ s item, bool_decide (level_name (stockLevel item) = s)) item
  && criterion (q_status q) (λ s item, strict_eq_str (status item) s) item.

Definition is_str (v : JsVal) : bool :=
  match v with JStr _ => true | _ => false end.

(** The search test on a record whose name and code are strings. *)
Definition search_hit (searchTerm : string) (item : SparePart) : bool :=
  match partName item, partCode item with
  | JStr n, JStr c =>
      includes (toLowerCase n) searchTerm || includes (toLowerCase c) searchTerm
  | _, _ => false
  end.

(** A row whose name is a numeric cell. *)
Definition numeric_name_row : Row :=
  <["Part_Name" := JNum (Dec 4711 0)]> (<["Part_Code" := JStr "N1"]> ∅).

(** The query with a search term only. *)
Definition search_for (term : string) : Query :=
  {| q_equipment := None; q_stockLevel := None; q_status := None;
     q_search := Some term; q_sortBy := None; q_sortOrder := None;
     q_page := None; q_limit := None |}.

(** The integer fields of a record, by property name. *)
Definition int_field (sortField : string) : option (SparePart → Z) :=
  if decide (sortField = "currentStock") then Some currentStock
  else if decide (sortField = "minRequired") then Some minRequired
  else if decide (sortField = "maxThreshold") then Some maxThreshold
  else if decide (sortField = "inProcess") then Some inProcess
  else None.

(** A row with the given text as stock. *)
Definition stock_row (stock : string) : Row :=
  <["Part_Code" := JStr "S"]> (<["Current_Stock" := JStr stock]> ∅).

(** [Array.prototype.find]. *)
Fixpoint array_find {A} (p : A → bool) (l : list A) : option A :=
  match l with
  | [] => None
  | x :: l' => if p x then Some x else array_find p l'
  end.

(** The answer of the handler: the record, or status 404. *)
Inductive PartResponse :=
  | PartOk (part : SparePart)
  | PartNotFound.

(** [app.get('/api/spare-parts/:id')]:
    [sparePartsData.find(item => item.id === req.params.id)]. *)
Definition get_spare_part (st : Server) (id_param : string) : PartResponse :=
  match array_find (λ item, strict_eq_str (id item) id_param) (sparePartsData st) with
  | Some part => PartOk part
  | None => PartNotFound
  end.

(** A number in canonical form. *)
Definition canon (x : number) : number :=
  match x with Dec m e => dec m e | _ => x end.

(** The equality of [Set]: [SameValueZero]. *)
Definition same_value_zero (a b : JsVal) : bool :=
  match a, b with
  | JNum x, JNum y => bool_decide (canon x = canon y)
  | _, _ => bool_decide (a = b)
  end.

(** [[...new Set(l)]]: the first occurrence of each value, in order. *)
Fixpoint set_values (seen l : list JsVal) : list JsVal :=
  match l with
  | [] => []
  | x :: l' =>
      if existsb (same_value_zero x) seen then set_values seen l'
      else x :: set_values (x :: seen) l'
  end.

(** The comparator of [sort()] without argument: by the strings of the
    values, in code-unit order. *)
Definition default_compare (x y : JsVal) : Z :=
  if String.ltb (ToString x) (ToString y) then -1
  else if String.ltb (ToString y) (ToString x) then 1
  else 0.

(** [app.get('/api/equipment-categories')]: the distinct categories, without
    the falsy ones and "UNKNOWN", sorted. *)
Definition get_equipment_categories (st : Server) : list JsVal :=
  sort default_compare
    (filter (λ category,
               truthy category && negb (strict_eq_str category "UNKNOWN") = true)
       (set_values [] (equipmentCategory <$> sparePartsData st))).

(** A row whose part code is a numeric cell. *)
Definition numeric_code_row : Row :=
  <["Part_Code" := JNum (Dec 4711 0)]> (<["Part_Name" := JStr "Valve"]> ∅).

(** A row of the given category, and a server holding five such rows. *)
Definition category_row (category : string) : Row :=
  <["Part_Code" := JStr "C"]> (<["Equipment_Category" := JStr category]> ∅).

Definition mixed_categories : Server :=
  {| sparePartsData :=
       (normalize "2024-05-01" "k3j9x0q2a" ∘ category_row)
         <$> ["pct"; "PCT"; "HAIL_TESTER"; "pct"; "UNKNOWN"];
     lastSyncTime := "" |}.

(** [getStockLevelColor] and [getStockLevelLabel]: a [switch], which
    compares with [===]. *)
Definition getStockLevelColor (stockLevel : JsVal) : string :=
  if strict_eq_str stockLevel "OUT_OF_STOCK" then "#f44336"
  else if strict_eq_str stockLevel "LOW_STOCK" then "#ff9800"
  else if strict_eq_str stockLevel "MEDIUM_STOCK" then "#2196f3"
  else if strict_eq_str stockLevel "HIGH_STOCK" then "#4caf50"
  else "#757575".

Definition getStockLevelLabel (stockLevel : JsVal) : string :=
  if strict_eq_str stockLevel "OUT_OF_STOCK" then "Out of Stock"
  else if strict_eq_str stockLevel "LOW_STOCK" then "Low Stock"
  else if strict_eq_str stockLevel "MEDIUM_STOCK" then "Medium Stock"
  else if strict_eq_str stockLevel "HIGH_STOCK" then "High Stock"
  else "Unknown".

(** A word character of a regular expression: [\w]. *)
Definition is_word (c : ascii) : bool :=
  let n := code c in
  ((48 <=? n) && (n <=? 57)) || ((65 <=? n) && (n <=? 90))
  || ((97 <=? n) && (n <=? 122)) || (n =? 95).

(** [l.toUpperCase()] for a word character [l]. *)
Definition upper_word (c : ascii) : ascii :=
  let n := code c in
  if (97 <=? n) && (n <=? 122) then char_of (n - 32) else c.

(** [s.replace(/_/g, ' ')]. *)
Fixpoint replace_underscores (s : string) : string :=
  match s with
  | String c s' =>
      String (if decide (c = "_"%char) then " "%char else c) (replace_underscores s')
  | EmptyString => EmptyString
  end.

(** [s.replace(/\b\w/g, l => l.toUpperCase())]: a word character is put in
    upper case when the character before it is not a word character;
    [after_word] tells whether the character before is one. *)
Fixpoint capitalize_words (after_word : bool) (s : string) : string :=
  match s with
  | String c s' =>
      String (if negb after_word && is_word c then upper_word c else c)
             (capitalize_words (is_word c) s')
  | EmptyString => EmptyString
  end.

(** [getEquipmentDisplayName]; [None] is the [TypeError] of
    [category.replace] on a value that is not a string. *)
Definition getEquipmentDisplayName (category : JsVal) : option string :=
  match category with
  | JStr s =>
      Some (if decide (s = "HAIL_TESTER") then "Hail Tester"
            else if decide (s = "MLT_TESTER") then "MLT Tester"
            else if decide (s = "THERMAL_CYCLING") then "Thermal Cycling"
            else if decide (s = "DAMP_HEAT") then "Damp Heat"
            else if decide (s = "PCT") then "PCT"
            else if decide (s = "COMMON_PARTS") then "Common Parts"
            else capitalize_words false (replace_underscores s))
  | _ => None
  end.

(** No underscore in the string. *)
Fixpoint no_underscore (s : string) : bool :=
  match s with
  | String c s' => negb (bool_decide (c = "_"%char)) && no_underscore s'
  | EmptyString => true
  end.

(** A test that passes when no value is chosen. *)
Definition test_opt (o : option string) (test : string → SparePart → bool)
    (item : SparePart) : bool :=
  match o with Some s => test s item | None => true end.

(** The record passes the three exact-match filters of [filterSpareParts]. *)
Definition matches_front (f : Filters) (part : SparePart) : bool :=
  test_opt (chosen (f_equipment f))
    (λ s part, strict_eq_str (equipmentCategory part) s) part
  && test_opt (chosen (f_stockLevel f))
       (λ s part, bool_decide (level_name (stockLevel part) = s)) part
  && test_opt (chosen (f_status f)) (λ s part, strict_eq_str (status part) s) part.

(** The search test of the front end on a record whose name, code and
    supplier are strings. *)
Definition search_hit_front (searchTerm : string) (part : SparePart) : bool :=
  match partName part, partCode part, supplier part with
  | JStr n, JStr c, JStr s =>
      includes (toLowerCase n) searchTerm || includes (toLowerCase c) searchTerm
      || includes (toLowerCase s) searchTerm
  | _, _, _ => false
  end.

(** The filters of the front end left on 'ALL', with a search term. *)
Definition front_search (term : string) : Filters :=
  {| f_equipment := Some "ALL"; f_stockLevel := Some "ALL"; f_status := Some "ALL";
     f_search := Some term; f_sortBy := None; f_sortOrder := None |}.

(** The [filters] and [paginationModel] states of the inventory page. *)
Record FilterState := {
  fs_search : string;
  fs_equipment : string;
  fs_stockLevel : string;
  fs_status : string
}.

Record PaginationModel := {
  pm_page : Z;
  pm_pageSize : Z
}.

(** A key whose value is ['ALL'] is deleted from the parameters. *)
Definition unless_all (value : string) : option string :=
  if bool_decide (value = "ALL") then None else Some value.

(** The query that reaches the back end: each parameter travels as the
    string of its value. *)
Definition loadSpareParts_query (filters : FilterState)
    (paginationModel : PaginationModel) : Query :=
  {| q_equipment := unless_all (fs_equipment filters);
     q_stockLevel := unless_all (fs_stockLevel filters);
     q_status := unless_all (fs_status filters);
     q_search := unless_all (fs_search filters);
     q_sortBy := None;
     q_sortOrder := None;
     q_page := Some (ToString (JNum (num_of_Z (pm_page paginationModel + 1))));
     q_limit := Some (ToString (JNum (num_of_Z (pm_pageSize paginationModel)))) |}.

(** An entry of the pie chart. *)
Record Slice := {
  slice_name : string;
  slice_value : Z;
  slice_color : string
}.

(** [getStockLevelData] of the dashboard page; [None] is the state before
    the statistics have arrived. *)
Definition getStockLevelData (stats : option Stats) : list Slice :=
  match stats with
  | None => []
  | Some stats =>
      filter (λ item, slice_value item > 0)
        [ {| slice_name := "Out of Stock";
             slice_value := n_OUT_OF_STOCK (stockLevelBreakdown stats);
             slice_color := "#f44336" |};
          {| slice_name := "Low Stock";
             slice_value := n_LOW_STOCK (stockLevelBreakdown stats);
             slice_color := "#ff9800" |};
          {| slice_name := "Medium Stock";
             slice_value := n_MEDIUM_STOCK (stockLevelBreakdown stats);
             slice_color := "#2196f3" |};
          {| slice_name := "High Stock";
             slice_value := n_HIGH_STOCK (stockLevelBreakdown stats);
             slice_color := "#4caf50" |} ]
  end.

(** The sum of the values of the chart. *)
Definition slice_total (l : list Slice) : Z :=
  foldr (λ item sum, slice_value item + sum) 0 l.

(** The comparator of the front end on two strings. *)
Definition compare_lower (sortOrder : Z) (key : SparePart → string)
    (a b : SparePart) : Z :=
  three_way sortOrder (JStr (toLowerCase (key a))) (JStr (toLowerCase (key b))).

(** * Properties *)

(** ** Decimals *)

Lemma strip_zeros_spec fuel : ∀ m e m' e',
  strip_zeros fuel m e = (m', e') → e ≤ e' ∧ m = m' * 10 ^ (e' - e).
Proof.
  induction fuel as [|fuel IH]; simpl; intros m e m' e' H.
  - injection H as <- <-. rewrite Z.sub_diag. simpl. lia.
  - destruct (m mod 10 =? 0) eqn:Hm.
    + apply Z.eqb_eq in Hm. apply IH in H as [Hle Hq].
      split; [lia|].
      replace (e' - e) with (Z.succ (e' - (e + 1))) by lia.
      rewrite Z.pow_succ_r by lia.
      pose proof (Z.div_mod m 10). lia.
    + injection H as <- <-. rewrite Z.sub_diag. simpl. lia.
Qed.

Lemma strip_zeros_canonical fuel : ∀ m e m' e',
  m ≠ 0 → Z.abs m < 10 ^ Z.of_nat (S fuel) →
  strip_zeros fuel m e = (m', e') → m' ≠ 0 ∧ m' mod 10 ≠ 0.
Proof.
  induction fuel as [|fuel IH]; intros m e m' e' Hm Hlt H.
  - simpl in H. injection H as <- <-. split; [done|].
    change (10 ^ Z.of_nat 1) with 10 in Hlt.
    intros Hmod. pose proof (Z.div_mod m 10). lia.
  - simpl in H. destruct (m mod 10 =? 0) eqn:Hmod.
    + apply Z.eqb_eq in Hmod.
      pose proof (Z.div_mod m 10) as Hdm.
      apply IH in H; [done| lia |].
      rewrite Nat2Z.inj_succ, Z.pow_succ_r in Hlt by lia. lia.
    + injection H as <- <-. apply Z.eqb_neq in Hmod. done.
Qed.

Lemma log2_fuel m : m ≠ 0 → Z.abs m < 10 ^ Z.of_nat (S (Z.to_nat (Z.log2 (Z.abs m)))).
Proof.
  intros Hm.
  assert (0 < Z.abs m) as Hpos by lia.
  pose proof (Z.log2_nonneg (Z.abs m)) as Hnn.
  destruct (Z.log2_spec (Z.abs m) Hpos) as [_ Hlt].
  rewrite Nat2Z.inj_succ, Z2Nat.id by done.
  eapply Z.lt_le_trans; [exact Hlt|].
  apply Z.pow_le_mono_l. lia.
Qed.

(** What [dec] returns: zero, or the same value with a mantissa that ends in
    a digit other than 0. *)
Lemma dec_spec m e :
  ∃ m' e', dec m e = Dec m' e' ∧
    ((m = 0 ∧ m' = 0 ∧ e' = 0) ∨
     (m ≠ 0 ∧ m' ≠ 0 ∧ m' mod 10 ≠ 0 ∧ e ≤ e' ∧ m = m' * 10 ^ (e' - e))).
Proof.
  unfold dec. destruct (m =? 0) eqn:Hm.
  - apply Z.eqb_eq in Hm. exists 0, 0. split; [done|]. left. done.
  - apply Z.eqb_neq in Hm.
    destruct (strip_zeros _ m e) as [m' e'] eqn:Hs.
    exists m', e'. split; [done|]. right.
    pose proof (strip_zeros_spec _ _ _ _ _ Hs) as [? ?].
    pose proof (strip_zeros_canonical _ _ _ _ _ Hm (log2_fuel m Hm) Hs) as [? ?].
    done.
Qed.

Lemma dec_canonical m e : canonical (dec m e).
Proof.
  destruct (dec_spec m e) as (m' & e' & -> & [(_ & -> & ->)|(_ & ? & ? & _)]);
    simpl; [left|right]; done.
Qed.

(** A canonical decimal is a fixed point of [dec]. *)
Lemma dec_id m e : canonical (Dec m e) → dec m e = Dec m e.
Proof.
  intros [[-> ->]|[Hm Hmod]]; [done|].
  unfold dec. apply Z.eqb_neq in Hm as Hm'. rewrite Hm'.
  destruct (Z.to_nat _); simpl; [done|].
  apply Z.eqb_neq in Hmod. by rewrite Hmod.
Qed.

(** Comparison of two decimals at any common scale [10^g]. *)
Lemma num_leb_scale a e b f g :
  g ≤ e → g ≤ f →
  num_leb (Dec a e) (Dec b f) = (a * 10 ^ (e - g) <=? b * 10 ^ (f - g)).
Proof.
  intros He Hf. simpl.
  set (h := Z.min e f).
  assert (0 < 10 ^ (h - g)) as Hpos by (apply Z.pow_pos_nonneg; lia).
  replace (e - g) with ((e - h) + (h - g)) by lia.
  replace (f - g) with ((f - h) + (h - g)) by lia.
  rewrite !Z.pow_add_r by lia.
  apply eq_true_iff_eq. rewrite !Z.leb_le. nia.
Qed.

Lemma num_leb_dec a e b f g :
  g ≤ e → g ≤ f → g ≤ 0 →
  num_leb (dec a e) (dec b f) = (a * 10 ^ (e - g) <=? b * 10 ^ (f - g)).
Proof.
  intros He Hf Hg.
  destruct (dec_spec a e) as (a' & e' & -> & Ha).
  destruct (dec_spec b f) as (b' & f' & -> & Hb).
  assert (g ≤ e') by (destruct Ha as [(_ & _ & ->)|(_ & _ & _ & ? & _)]; lia).
  assert (g ≤ f') by (destruct Hb as [(_ & _ & ->)|(_ & _ & _ & ? & _)]; lia).
  rewrite (num_leb_scale _ _ _ _ g) by done.
  assert (a' * 10 ^ (e' - g) = a * 10 ^ (e - g)) as ->.
  { destruct Ha as [(-> & -> & ->)|(_ & _ & _ & ? & ->)]; [done|].
    rewrite <- Z.mul_assoc, <- Z.pow_add_r by lia. do 2 f_equal. lia. }
  assert (b' * 10 ^ (f' - g) = b * 10 ^ (f - g)) as ->.
  { destruct Hb as [(-> & -> & ->)|(_ & _ & _ & ? & ->)]; [done|].
    rewrite <- Z.mul_assoc, <- Z.pow_add_r by lia. do 2 f_equal. lia. }
  done.
Qed.

Lemma mul_pow10_mod x j : 0 < j → (x * 10 ^ j) mod 10 = 0.
Proof.
  intros Hj. replace j with (Z.succ (j - 1)) by lia.
  rewrite Z.pow_succ_r by lia.
  replace (x * (10 * 10 ^ (j - 1))) with (x * 10 ^ (j - 1) * 10) by lia.
  apply Z.mod_mul. lia.
Qed.

(** The canonical form is determined by the value. *)
Lemma dec_of_value m e m' e' :
  m' ≠ 0 → m' mod 10 ≠ 0 → e ≤ e' → m = m' * 10 ^ (e' - e) →
  dec m e = Dec m' e'.
Proof.
  intros Hm' Hmod' He Hv.
  assert (0 < 10 ^ (e' - e)) by (apply Z.pow_pos_nonneg; lia).
  destruct (dec_spec m e) as (m1 & e1 & -> & [(-> & _)|(_ & Hm1 & Hmod1 & He1 & Hv1)]);
    [nia|].
  assert (0 < 10 ^ (e1 - e)) by (apply Z.pow_pos_nonneg; lia).
  destruct (Z.lt_trichotomy e1 e') as [Hlt|[->|Hgt]].
  - exfalso. apply Hmod1.
    assert (m1 = m' * 10 ^ (e' - e1)) as ->; [|apply mul_pow10_mod; lia].
    replace (e' - e) with ((e' - e1) + (e1 - e)) in Hv by lia.
    rewrite Z.pow_add_r in Hv by lia. nia.
  - f_equal. nia.
  - exfalso. apply Hmod'.
    assert (m' = m1 * 10 ^ (e1 - e')) as ->; [|apply mul_pow10_mod; lia].
    replace (e1 - e) with ((e1 - e') + (e' - e)) in Hv1 by lia.
    rewrite Z.pow_add_r in Hv1 by lia. nia.
Qed.

(** *** Rounding to binary64 *)

(** Two decimals of the same value have the same canonical form. *)
Lemma dec_same_value m1 e1 m2 e2 g :
  g ≤ e1 → g ≤ e2 → m1 * 10 ^ (e1 - g) = m2 * 10 ^ (e2 - g) →
  dec m1 e1 = dec m2 e2.
Proof.
  intros H1 H2 Hv.
  assert (0 < 10 ^ (e1 - g)) by (apply Z.pow_pos_nonneg; lia).
  assert (0 < 10 ^ (e2 - g)) by (apply Z.pow_pos_nonneg; lia).
  destruct (dec_spec m2 e2) as (m' & e' & -> & [(-> & -> & ->)|(Hm2 & Hm' & Hmod & He & Hm)]).
  - assert (m1 = 0) as -> by nia. done.
  - apply dec_of_value; [done|done| |].
    + destruct (Z.le_gt_cases e1 e') as [|Hgt]; [done|]. exfalso. apply Hmod.
      assert (m' = m1 * 10 ^ (e1 - e')) as ->; [|apply mul_pow10_mod; lia].
      assert (0 < 10 ^ (e' - g)) by (apply Z.pow_pos_nonneg; lia).
      replace (e1 - g) with ((e1 - e') + (e' - g)) in Hv by lia.
      replace (e2 - g) with ((e2 - g)) in Hv by lia.
      rewrite Hm in Hv.
      rewrite <- Z.mul_assoc, <- Z.pow_add_r in Hv by lia.
      replace (e' - e2 + (e2 - g)) with (e' - g) in Hv by lia.
      rewrite Z.pow_add_r in Hv by lia. nia.
    + destruct (Z.le_gt_cases e1 e') as [Hle|Hgt].
      * assert (0 < 10 ^ (e1 - g)) by (apply Z.pow_pos_nonneg; lia).
        rewrite Hm in Hv.
        rewrite <- Z.mul_assoc, <- Z.pow_add_r in Hv by lia.
        replace (e' - e2 + (e2 - g)) with ((e' - e1) + (e1 - g)) in Hv by lia.
        rewrite Z.pow_add_r in Hv by lia. nia.
      * exfalso. apply Hmod.
        assert (m' = m1 * 10 ^ (e1 - e')) as ->; [|apply mul_pow10_mod; lia].
        assert (0 < 10 ^ (e' - g)) by (apply Z.pow_pos_nonneg; lia).
        replace (e1 - g) with ((e1 - e') + (e' - g)) in Hv by lia.
        rewrite Hm in Hv.
        rewrite <- Z.mul_assoc, <- Z.pow_add_r in Hv by lia.
        replace (e' - e2 + (e2 - g)) with (e' - g) in Hv by lia.
        rewrite Z.pow_add_r in Hv by lia. nia.
Qed.

(** The binary exponent of a half-integer [A / 2] below [2^52]. *)
Lemma binary_exponent_half p q A :
  0 < q → 0 < A < 2 ^ 53 → 2 * p = A * q →
  -1074 ≤ binary_exponent p q ≤ -1.
Proof.
  intros Hq HA Hpq.
  assert (0 < p) as Hp by nia.
  destruct (Z.log2_spec p Hp) as [Hp1 Hp2].
  destruct (Z.log2_spec q Hq) as [Hq1 Hq2].
  pose proof (Z.log2_nonneg p) as Hlp. pose proof (Z.log2_nonneg q) as Hlq.
  assert (Z.log2 p < Z.log2 q + 53) as Hlt.
  { apply Z.log2_lt_pow2; [done|].
    replace (Z.log2 q + 53) with (Z.succ (Z.log2 q) + 52) by lia.
    rewrite Z.pow_add_r by lia.
    change (2 ^ 53) with (2 * 2 ^ 52) in HA.
    assert (0 < 2 ^ 52) by done. nia. }
  unfold binary_exponent, scaled.
  set (t0 := Z.log2 p - Z.log2 q - 53).
  assert (t0 ≤ -1) as Ht0 by (unfold t0; lia).
  destruct (Z.eq_dec t0 (-1)) as [->|Hne].
  - change (2 ^ Z.max 0 (- -1)) with 2. change (2 ^ Z.max 0 (-1)) with 1.
    replace (p * 2) with (A * q) by lia. rewrite Z.mul_1_r, Z.div_mul by lia.
    destruct (Z.ltb_spec A (2 ^ 53)); lia.
  - destruct (_ <? _); lia.
Qed.

Lemma round_ratio_half neg p q A :
  0 < q → 0 < A < 2 ^ 53 → 2 * p = A * q →
  round_ratio neg p q = dec ((if neg then - A else A) * 5) (-1).
Proof.
  intros Hq HA Hpq.
  pose proof (binary_exponent_half p q A Hq HA Hpq) as Ht.
  unfold round_ratio. generalize dependent (binary_exponent p q). intros t Ht.
  assert (∃ j, 0 ≤ j ∧ t = - Z.succ j) as (j & Hj & ->)
    by (exists (- t - 1); lia).
  unfold scaled.
  rewrite Z.opp_involutive, (Z.max_l 0 (- Z.succ j)), (Z.max_r 0 (Z.succ j)),
    Z.mul_1_r by lia.
  rewrite Z.pow_succ_r by lia.
  replace (p * (2 * 2 ^ j)) with (A * 2 ^ j * q) by lia.
  unfold round_half_even.
  rewrite Z.div_mul, Z.mod_mul by lia.
  destruct (Z.ltb_spec (2 * 0) q); [|lia].
  unfold dyadic.
  destruct (Z.leb_spec 0 (- Z.succ j)); [lia|].
  simpl andb. cbv iota.
  apply (dec_same_value _ _ _ _ (- Z.succ j)); [lia|lia|].
  rewrite Z.sub_diag, Z.mul_1_r, Z.opp_involutive.
  replace (-1 - - Z.succ j) with j by lia.
  change 10 with (2 * 5). rewrite Z.pow_mul_l, Z.pow_succ_r by lia.
  destruct neg; lia.
Qed.

(** A half-integer below [2^52] is a double. *)
Lemma round64_half a :
  Z.abs a < 2 ^ 53 → round64 (dec (a * 5) (-1)) = dec (a * 5) (-1).
Proof.
  intros Ha.
  destruct (dec_spec (a * 5) (-1)) as (m & e & Hd & [(H0 & -> & ->)|(Ha0 & Hm & Hmod & He & Hv)]).
  { rewrite Hd. done. }
  rewrite Hd. simpl. apply Z.eqb_neq in Hm as Hm'. rewrite Hm'.
  assert (0 < 10 ^ (e - -1)) as Hpow by (apply Z.pow_pos_nonneg; lia).
  rewrite (round_ratio_half _ _ _ (Z.abs a)).
  - rewrite <- Hd. f_equal.
    destruct (Z.ltb_spec m 0); nia.
  - apply Z.pow_pos_nonneg; lia.
  - lia.
  - destruct (Z.le_gt_cases 0 e).
    + rewrite (Z.max_r 0 e), (Z.max_l 0 (- e)) by lia.
      replace (e - -1) with (Z.succ e) in Hv by lia.
      rewrite Z.pow_succ_r in Hv by lia.
      assert (0 < 10 ^ e) by (apply Z.pow_pos_nonneg; lia).
      change (10 ^ 0) with 1. nia.
    + assert (e = -1) as -> by lia.
      change (10 ^ Z.max 0 (-1)) with 1. change (10 ^ Z.max 0 (- -1)) with 10.
      change (10 ^ (-1 - -1)) with 1 in Hv. lia.
Qed.

(** ** Stock classifier *)

(** The third test of [getStockLevel], [currentStock <= minRequired * 1.5],
    on integers. *)
Lemma medium_threshold cs mr :
  3 * Z.abs mr < 2 ^ 53 →
  num_leb (num_of_Z cs) (round64 (num_mul (num_of_Z mr) (Dec 15 (-1))))
  = (2 * cs <=? 3 * mr).
Proof.
  intros Hr. unfold num_of_Z.
  destruct (dec_spec mr 0) as (b & f & Hb & Hval).
  rewrite Hb. simpl num_mul.
  assert (0 ≤ f) by (destruct Hval as [(_ & _ & ->)|(_ & _ & _ & ? & _)]; lia).
  assert (b * 10 ^ f = mr) as Hmr.
  { destruct Hval as [(-> & -> & ->)|(_ & _ & _ & _ & ->)]; [done|].
    by rewrite Z.sub_0_r. }
  assert (dec (b * 15) (f + -1) = dec (3 * mr * 5) (-1)) as ->.
  { apply (dec_same_value _ _ _ _ (-1)); [lia|lia|].
    replace (f + -1 - -1) with f by lia.
    change (10 ^ (-1 - -1)) with 1. lia. }
  rewrite round64_half by lia.
  rewrite (num_leb_dec _ _ _ _ (-1)) by lia.
  change (10 ^ (0 - -1)) with 10. change (10 ^ (-1 - -1)) with 1.
  apply eq_true_iff_eq. rewrite !Z.leb_le. lia.
Qed.

(** C2, the claim as stated: for every pair of arguments the third test is
    "current stock at most 1.5 times the minimum".  It fails where the
    product [minRequired * 1.5] is not a double: 1.5 times 3002399751580333
    is 4503599627370499.5, which rounds to 4503599627370500, so a stock of
    4503599627370500 is MEDIUM_STOCK although it exceeds 1.5 times the
    minimum. *)
Lemma getStockLevel_rounds :
  getStockLevel 4503599627370500 3002399751580333 = MEDIUM_STOCK
  ∧ 3002399751580333 < 4503599627370500
  ∧ 3 * 3002399751580333 < 2 * 4503599627370500
  ∧ round64 (num_mul (num_of_Z 3002399751580333) (Dec 15 (-1)))
    = num_of_Z 4503599627370500
  ∧ num_mul (num_of_Z 3002399751580333) (Dec 15 (-1))
    = Dec 45035996273704995 (-1).
Proof. by vm_compute. Qed.

(** C2 (amended): when three times the minimum is at most [2^53] in absolute
    value, so that [minRequired * 1.5] is a double, the classifier returns
    OUT_OF_STOCK exactly when the current stock is 0, whatever the minimum;
    otherwise LOW_STOCK exactly when the current stock is at most the
    minimum; otherwise MEDIUM_STOCK exactly when the current stock is at most
    1.5 times the minimum (twice the stock at most three times the minimum),
    the boundary included; otherwise HIGH_STOCK.  With a minimum of 10, a
    stock of 15 is MEDIUM_STOCK and 16 is HIGH_STOCK. *)
Theorem getStockLevel_spec (currentStock minRequired : Z) :
  3 * Z.abs minRequired ≤ 2 ^ 53 →
  (getStockLevel currentStock minRequired = OUT_OF_STOCK ↔ currentStock = 0)
  ∧ (getStockLevel currentStock minRequired = LOW_STOCK
     ↔ currentStock ≠ 0 ∧ currentStock ≤ minRequired)
  ∧ (getStockLevel currentStock minRequired = MEDIUM_STOCK
     ↔ currentStock ≠ 0 ∧ minRequired < currentStock
       ∧ 2 * currentStock ≤ 3 * minRequired)
  ∧ (getStockLevel currentStock minRequired = HIGH_STOCK
     ↔ currentStock ≠ 0 ∧ minRequired < currentStock
       ∧ 3 * minRequired < 2 * currentStock)
  ∧ getStockLevel 0 minRequired = OUT_OF_STOCK
  ∧ getStockLevel 15 10 = MEDIUM_STOCK
  ∧ getStockLevel 16 10 = HIGH_STOCK.
Proof.
  intros Hr. change (2 ^ 53) with 9007199254740992 in Hr.
  assert (∀ cs mr, 3 * Z.abs mr < 2 ^ 53 →
    getStockLevel cs mr =
      if cs =? 0 then OUT_OF_STOCK
      else if cs <=? mr then LOW_STOCK
      else if 2 * cs <=? 3 * mr then MEDIUM_STOCK else HIGH_STOCK) as Heq.
  { intros. unfold getStockLevel. by rewrite medium_threshold. }
  assert (3 * Z.abs minRequired < 2 ^ 53) as Hr'
    by (change (2 ^ 53) with 9007199254740992; lia).
  split_and!; try reflexivity;
    rewrite (Heq _ _ Hr');
    destruct (Z.eqb_spec currentStock 0);
    destruct (Z.leb_spec currentStock minRequired);
    destruct (Z.leb_spec (2 * currentStock) (3 * minRequired));
    split; (done || lia || (intros; split_and!; lia)).
Qed.

Lemma getStockLevel_spec_witness :
  getStockLevel 15 10 = MEDIUM_STOCK ↔ 15 ≠ 0 ∧ 10 < 15 ∧ 2 * 15 ≤ 3 * 10.
Proof.
  refine (proj1 (proj2 (proj2 (getStockLevel_spec 15 10 _)))).
  by vm_compute.
Defined.

(** ** Field normaliser *)

(** C6: a row in which every column the normaliser reads is absent gives
    the record of defaults: "UNKNOWN", "Unknown Part", "N/A", "Unknown",
    "Active", every numeric field 0, OUT_OF_STOCK and a total value of 0 (the
    date is the load date and the id is synthetic).  [normalize] is a total
    function: it returns a record for every row. *)
Theorem normalize_absent (today token : string) (item : Row) :
  Forall (λ column, item !! column = None) columns →
  normalize today token item =
    {| id := JStr ("undefined-" +:+ token);
       equipmentCategory := JStr "UNKNOWN";
       partName := JStr "Unknown Part";
       partCode := JStr "N/A";
       currentStock := 0;
       minRequired := 0;
       maxThreshold := 0;
       inProcess := 0;
       unitCost := Dec 0 0;
       supplier := JStr "Unknown";
       lastUpdated := JStr today;
       status := JStr "Active";
       stockLevel := OUT_OF_STOCK;
       totalValue := Dec 0 0 |}.
Proof.
  intros H. unfold columns in H.
  repeat match goal with
         | H : Forall _ (_ :: _) |- _ => apply Forall_cons in H as [? H]
         end.
  unfold normalize, cell.
  repeat match goal with H : _ !! _ = None |- _ => rewrite H; clear H end.
  reflexivity.
Qed.

Lemma normalize_absent_witness :
  Forall (λ column, (∅ : Row) !! column = None) columns
  ∧ stockLevel (normalize "2024-05-01" "k3j9x0q2a" ∅) = OUT_OF_STOCK.
Proof.
  assert (Forall (λ column, (∅ : Row) !! column = None) columns) as H
    by (repeat constructor).
  split; [exact H|].
  rewrite (normalize_absent "2024-05-01" "k3j9x0q2a" ∅ H). reflexivity.
Defined.

(** C3 fails as stated: the text "-5" is parsed to -5 and kept; nothing
    clamps a negative value to 0. *)
Lemma normalize_keeps_negative :
  let r := normalize "2024-05-01" "k3j9x0q2a" negative_row in
  currentStock r = -5 ∧ minRequired r = -5 ∧ maxThreshold r = -5
  ∧ inProcess r = -5 ∧ unitCost r = Dec (-5) 0 ∧ ¬ nonneg_fields r.
Proof.
  vm_compute. split_and!; try reflexivity.
  intros (H & _). by apply H.
Qed.

Lemma digit_val_range radix c d : digit_val radix c = Some d → 0 ≤ d < radix.
Proof.
  unfold digit_val. intros H.
  repeat match type of H with
         | context [if ?b then _ else _] => destruct b eqn:?
         end; simplify_eq; lia.
Qed.

Lemma take_digits_nonneg radix s : ∀ acc cnt v n rest,
  0 < radix → 0 ≤ acc →
  take_digits radix s acc cnt = (v, n, rest) → 0 ≤ v.
Proof.
  induction s as [|c s IH]; simpl; intros acc cnt v n rest Hr Hacc H.
  - by simplify_eq.
  - destruct (digit_val radix c) as [d|] eqn:Hd; [|by simplify_eq].
    apply digit_val_range in Hd. eapply IH in H; [done|done|nia].
Qed.

Lemma read_sign_unsigned s :
  starts_with "-" s = false → ∃ s', read_sign s = (false, s').
Proof.
  destruct s as [|c s]; [by eexists|].
  destruct c as [[] [] [] [] [] [] [] []]; intros H;
    try (by vm_compute in H); simpl; by eexists.
Qed.

Lemma parseInt_str_nonneg s z :
  starts_with "-" (trim_start s) = false → parseInt_str s = Some z → 0 ≤ z.
Proof.
  unfold parseInt_str. intros Hs.
  destruct (read_sign_unsigned _ Hs) as [s2 ->]. intros H. revert H.
  destruct (starts_with "0x" s2 || starts_with "0X" s2);
    destruct (take_digits _ _ 0 0) as [[v cnt] rest] eqn:Ht;
    destruct cnt; intros H; simplify_eq; simpl;
    (eapply take_digits_nonneg; [| |exact Ht]; lia).
Qed.

Lemma dec_nonneg m e m' e' : 0 ≤ m → dec m e = Dec m' e' → 0 ≤ m'.
Proof.
  intros Hm H. destruct (dec_spec m e) as (m1 & e1 & H1 & Hs).
  rewrite H1 in H. simplify_eq.
  destruct Hs as [(_ & -> & _)|(_ & _ & _ & Hle & Hv)]; [done|].
  assert (0 < 10 ^ (e' - e)) by (apply Z.pow_pos_nonneg; lia). nia.
Qed.

Lemma num_leb_zero m e : 0 ≤ m → num_leb (Dec 0 0) (Dec m e) = true.
Proof.
  intros Hm. simpl. apply Z.leb_le.
  assert (0 ≤ 10 ^ (e - 0 `min` e)) by (apply Z.pow_nonneg; lia). nia.
Qed.

Lemma read_unsigned_nonneg s m e rest :
  read_unsigned s = Some (m, e, rest) → 0 ≤ m.
Proof.
  unfold read_unsigned. intros H.
  destruct (take_digits 10 s 0 0) as [[ip ni] s1] eqn:H1.
  assert (0 ≤ ip) by (eapply take_digits_nonneg; [| |exact H1]; lia).
  assert (∀ s2, (let '(m0, nt, s3) := take_digits 10 s2 ip ni in
                 match nt with
                 | O => None
                 | S _ => let '(ex, s4) := read_exponent s3 in
                          Some (m0, ex - (Z.of_nat nt - Z.of_nat ni), s4)
                 end) = Some (m, e, rest) → 0 ≤ m) as Hfrac.
  { intros s2 H2.
    destruct (take_digits 10 s2 ip ni) as [[m0 nt] s3] eqn:H3.
    assert (0 ≤ m0) by (eapply take_digits_nonneg; [| |exact H3]; lia).
    destruct nt; [done|]. destruct (read_exponent s3). by simplify_eq. }
  assert (match ni with
          | O => None
          | S _ => let '(ex, s4) := read_exponent s1 in Some (ip, ex, s4)
          end = Some (m, e, rest) → 0 ≤ m) as Hint.
  { intros H2. destruct ni; [done|]. destruct (read_exponent s1). by simplify_eq. }
  destruct s1 as [|c s2]; [by apply Hint|].
  destruct (decide (c = "."%char)) as [->|Hc]; [by eapply Hfrac|].
  apply Hint. revert H.
  destruct c as [[] [] [] [] [] [] [] []]; try done.
Qed.

Lemma parseFloat_str_nonneg s :
  starts_with "-" (trim_start s) = false →
  num_leb (Dec 0 0) (num_or_zero (parseFloat_str s)) = true.
Proof.
  unfold parseFloat_str, read_decimal_literal. intros Hs.
  destruct (read_sign_unsigned _ Hs) as [s1 ->].
  destruct (starts_with "Infinity" s1); [done|].
  destruct (read_unsigned s1) as [[[m e] rest]|] eqn:Hr; [|done].
  apply read_unsigned_nonneg in Hr. simpl signed.
  destruct (dec m e) as [| |m' e'] eqn:Hd;
    [done| by (unfold dec in Hd; repeat case_match) |].
  apply dec_nonneg in Hd; [|done].
  simpl. destruct (m' =? 0); [done|]. by apply num_leb_zero.
Qed.

(** C3, amended: the five numeric fields are non-negative for every row
    whose numeric cells carry no minus sign; a negative cell is kept as it
    is. *)
Theorem normalize_nonneg (today token : string) (item : Row) :
  Forall (λ column, unsigned_cell (cell item column) = true) numeric_columns →
  nonneg_fields (normalize today token item).
Proof.
  intros H. unfold numeric_columns in H.
  repeat match goal with
         | H : Forall _ (_ :: _) |- _ => apply Forall_cons in H as [? H]
         end.
  assert (∀ v, unsigned_cell v = true → 0 ≤ int_or_zero (parseInt v)) as Hint.
  { intros v Hv. unfold unsigned_cell in Hv. apply negb_true_iff in Hv.
    unfold parseInt. destruct (parseInt_str _) as [z|] eqn:Hz; [|done].
    simpl. by eapply parseInt_str_nonneg. }
  unfold nonneg_fields, normalize; simpl.
  split_and!; try by apply Hint.
  apply parseFloat_str_nonneg.
  match goal with H : unsigned_cell (cell item "Unit_Cost") = true |- _ =>
    unfold unsigned_cell in H; by apply negb_true_iff in H end.
Qed.

Lemma normalize_nonneg_witness :
  Forall (λ column, unsigned_cell (cell plain_row column) = true) numeric_columns
  ∧ nonneg_fields (normalize "2024-05-01" "k3j9x0q2a" plain_row).
Proof.
  assert (Forall (λ column, unsigned_cell (cell plain_row column) = true)
            numeric_columns) as H
    by (repeat constructor).
  split; [exact H|].
  exact (normalize_nonneg "2024-05-01" "k3j9x0q2a" plain_row H).
Defined.

(** ** Sorting *)

(** When the comparator never answers a positive number, nothing moves. *)
Lemma sort_no_swap {A} (comparefn : A → A → Z) (l : list A) :
  (∀ a b, comparefn a b ≤ 0) → sort comparefn l = l.
Proof.
  intros H. induction l as [|x l IH]; simpl; [done|].
  rewrite IH. destruct l as [|y l]; simpl; [done|].
  specialize (H x y). destruct (Z.gtb_spec (comparefn x y) 0); [lia|done].
Qed.

Lemma insert_sorted_perm {A} (comparefn : A → A → Z) x (l : list A) :
  insert_sorted comparefn x l ≡ₚ x :: l.
Proof.
  induction l as [|y l IH]; simpl; [done|].
  destruct (comparefn x y >? 0); [|done].
  rewrite IH. apply Permutation_swap.
Qed.

(** Sorting keeps the elements: only their order can change. *)
Lemma sort_perm {A} (comparefn : A → A → Z) (l : list A) :
  sort comparefn l ≡ₚ l.
Proof.
  induction l as [|x l IH]; simpl; [done|].
  by rewrite insert_sorted_perm, IH.
Qed.

(** ** Query engine *)

Lemma field_unknown (a : SparePart) (sortField : string) :
  sortField ∉ property_names → field a sortField = JUndefined.
Proof.
  intros H. unfold field, cell, to_object.
  rewrite not_elem_of_list_to_map_1; [done|]. exact H.
Qed.

(** C8: for a [sortBy] that names no property of the records, the comparator
    answers 0 on every pair, the sort leaves the filtered records in their
    order, and the handler answers exactly what it answers without
    [sortBy]: same records, same total, and no error that the query without
    sorting would not have. *)
Theorem sort_unknown_field (st : Server) (q : Query) (sortField : string) :
  q_sortBy q = Some sortField →
  sortField ∉ property_names →
  (∀ a b, compare_field sortField (sort_order q) a b = 0)
  ∧ (∀ l, sort (compare_field sortField (sort_order q)) l = l)
  ∧ filteredData (sparePartsData st) q
    = filteredData (sparePartsData st) (without_sort q)
  ∧ get_spare_parts st q = get_spare_parts st (without_sort q).
Proof.
  intros Hq Hf.
  assert (∀ a b, compare_field sortField (sort_order q) a b = 0) as Hcmp.
  { intros a b. unfold compare_field. by rewrite !field_unknown. }
  assert (∀ l, sort (compare_field sortField (sort_order q)) l = l) as Hsort.
  { intros l. apply sort_no_swap. intros a b. by rewrite Hcmp. }
  assert (filteredData (sparePartsData st) q
          = filteredData (sparePartsData st) (without_sort q)) as Hfd.
  { unfold filteredData. simpl. rewrite Hq.
    destruct (when (q_equipment q) _ _) as [l1|]; simpl; [|done].
    destruct (when (q_stockLevel q) _ _) as [l2|]; simpl; [|done].
    destruct (when (q_status q) _ _) as [l3|]; simpl; [|done].
    destruct (when (q_search q) _ _) as [l4|]; simpl; [|done].
    unfold when. simpl. case_bool_decide; [done|]. by rewrite Hsort. }
  split_and!; try done.
  unfold get_spare_parts. rewrite Hfd.
  destruct (filteredData _ _); done.
Qed.

Lemma sort_unknown_field_witness :
  get_spare_parts two_parts (sort_by "colour")
  = get_spare_parts two_parts (without_sort (sort_by "colour")).
Proof.
  assert (q_sortBy (sort_by "colour") = Some "colour") as H1 by reflexivity.
  assert ("colour" ∉ property_names) as H2.
  { apply (bool_decide_unpack _). by vm_compute. }
  exact (proj2 (proj2 (proj2 (sort_unknown_field two_parts _ "colour" H1 H2)))).
Defined.

(** ** Pagination *)

Lemma ceil_div_ge a b : 0 < b → a ≤ ceil_div a b * b.
Proof.
  intros Hb. unfold ceil_div.
  pose proof (Z.mul_div_le (- a) b Hb). nia.
Qed.







(** ** Case of letters in the sort *)

Lemma string_ltb_irrefl s : String.ltb s s = false.
Proof.
  unfold String.ltb.
  pose proof (String.compare_antisym s s) as H.
  by destruct (String.compare s s).
Qed.

(** The comparator of the front end answers 0 for two strings that differ
    only in the case of their letters. *)
Lemma compare_field_front_case (sortField : string) (sortOrder : Z)
    (a b : SparePart) (s t : string) :
  field a sortField = JStr s → field b sortField = JStr t →
  toLowerCase s = toLowerCase t →
  compare_field_front sortField sortOrder a b = Some 0.
Proof.
  intros Ha Hb Hst. unfold compare_field_front. rewrite Ha, Hb. simpl.
  unfold three_way, js_lt. by rewrite Hst, string_ltb_irrefl.
Qed.

(** C7 on the code: sorting the two parts named "apple" and "Zebra" by
    [partName], ascending, the back end compares code units, finds
    "Zebra" < "apple" and answers Zebra first; on "apple" against "Apple" its
    comparator answers 1, not 0.  The front end, which lower-cases both
    strings, keeps apple first and answers 0 on "apple" against "Apple". *)
Theorem backend_sort_case_sensitive :
  (part_names <$> filteredData (sparePartsData two_parts) (sort_by "partName"))
    = Some [JStr "Zebra"; JStr "apple"]
  ∧ compare_field "partName" 1 (sample "apple" "A1" "2024-01-01")
      (sample "Apple" "A2" "2024-01-01") = 1
  ∧ (part_names <$>
       filterSpareParts (sparePartsData two_parts)
         {| f_equipment := None; f_stockLevel := None; f_status := None;
            f_search := None; f_sortBy := Some "partName"; f_sortOrder := None |})
    = Some [JStr "apple"; JStr "Zebra"]
  ∧ compare_field_front "partName" 1 (sample "apple" "A1" "2024-01-01")
      (sample "Apple" "A2" "2024-01-01") = Some 0.
Proof. by vm_compute. Qed.

(** ** The aggregator and the shared array *)

(** The statistics handler only permutes the records it holds. *)
Lemma dashboard_stats_perm (st : Server) :
  sparePartsData (dashboard_stats st).2 ≡ₚ sparePartsData st.
Proof. apply sort_perm. Qed.

(** C1 on the code: with two records dated 2024-01-01 and 2024-02-01, in
    that order, one call of the statistics handler leaves the server holding
    them in the opposite order: the state after the call is not the state
    before it, and the same query answers differently before and after. *)
Theorem dashboard_stats_reorders :
  let st := two_parts in
  let st' := (dashboard_stats st).2 in
  part_names (sparePartsData st) = [JStr "apple"; JStr "Zebra"]
  ∧ part_names (sparePartsData st') = [JStr "Zebra"; JStr "apple"]
  ∧ sparePartsData st' = reverse (sparePartsData st)
  ∧ st' ≠ st
  ∧ get_spare_parts st' no_criteria ≠ get_spare_parts st no_criteria.
Proof.
  split_and!; by vm_compute.
Qed.

(** ** Dataset loader *)

Lemma processSparePartsData_length today rnd rows : ∀ k,
  length (processSparePartsData today rnd k rows) = length rows.
Proof. induction rows as [|item rows IH]; intros k; simpl; [done|]. by rewrite IH. Qed.

Lemma processSparePartsData_lookup today rnd rows : ∀ k (i : nat) item,
  rows !! i = Some item →
  ∃ token, processSparePartsData today rnd k rows !! i
           = Some (normalize today token item).
Proof.
  induction rows as [|item0 rows IH]; intros k i item Hi; [done|].
  destruct i as [|i]; simpl in *.
  - simplify_eq. by eexists.
  - by apply IH.
Qed.

(** C9: the loader always returns a list of records.  A missing file and a
    read that throws give the empty list; so does a workbook without any
    sheet.  The sheet "Spare_Parts_Inventory" is used when present, otherwise
    the first sheet of the workbook (sheet names are not empty).  The rows of
    the chosen sheet are normalised one by one in their order: as many
    records as rows, the i-th record being the normalised i-th row. *)
Theorem readExcelData_spec (today : string) (rnd : nat → string) (k : nat) :
  readExcelData today rnd k NotFound = []
  ∧ readExcelData today rnd k ReadThrows = []
  ∧ (∀ wb, Sheets wb !! "Spare_Parts_Inventory" = None → SheetNames wb = [] →
       readExcelData today rnd k (Readable wb) = [])
  ∧ (∀ wb rows, Sheets wb !! "Spare_Parts_Inventory" = Some rows →
       readExcelData today rnd k (Readable wb)
       = processSparePartsData today rnd k rows)
  ∧ (∀ wb first others rows,
       Sheets wb !! "Spare_Parts_Inventory" = None →
       SheetNames wb = first :: others → first ≠ "" →
       Sheets wb !! first = Some rows →
       readExcelData today rnd k (Readable wb)
       = processSparePartsData today rnd k rows)
  ∧ (∀ rows,
       length (processSparePartsData today rnd k rows) = length rows
       ∧ ∀ (i : nat) item, rows !! i = Some item →
           ∃ token, processSparePartsData today rnd k rows !! i
                    = Some (normalize today token item)).
Proof.
  split_and!; try done.
  - intros wb Hs Hn. simpl. by rewrite Hs, Hn.
  - intros wb rows Hs. simpl. by rewrite Hs.
  - intros wb first others rows Hs Hn Hne Hf. simpl. rewrite Hs, Hn.
    case_bool_decide; [done|]. by rewrite Hf.
  - intros rows. split.
    + apply processSparePartsData_length.
    + apply processSparePartsData_lookup.
Qed.

Lemma readExcelData_spec_witness :
  let load := readExcelData "2024-05-01" (λ _, "k3j9x0q2a") 0 in
  load (Readable first_sheet_only)
    = processSparePartsData "2024-05-01" (λ _, "k3j9x0q2a") 0 two_rows
  ∧ load (Readable named_sheet)
    = processSparePartsData "2024-05-01" (λ _, "k3j9x0q2a") 0 two_rows
  ∧ load (Readable {| SheetNames := []; Sheets := ∅ |}) = []
  ∧ length (load (Readable first_sheet_only)) = 2%nat.
Proof.
  destruct (readExcelData_spec "2024-05-01" (λ _, "k3j9x0q2a") 0)
    as (_ & _ & Hnone & Hnamed & Hfirst & Hrows).
  assert ("Sheet1" ≠ "") as Hne by done.
  pose proof (Hfirst first_sheet_only "Sheet1" [] two_rows
                eq_refl eq_refl Hne eq_refl) as H1.
  split_and!.
  - exact H1.
  - exact (Hnamed named_sheet two_rows eq_refl).
  - exact (Hnone {| SheetNames := []; Sheets := ∅ |} eq_refl eq_refl).
  - cbv zeta. rewrite H1. exact (proj1 (Hrows two_rows)).
Defined.

(** ** Normalising a canonical record again *)

(** *** Printing and reading digits *)

Lemma app_String c s t : String c s +:+ t = String c (s +:+ t).
Proof. reflexivity. Qed.

Lemma app_empty t : "" +:+ t = t.
Proof. reflexivity. Qed.

Lemma app_length s t :
  String.length (s +:+ t) = (String.length s + String.length t)%nat.
Proof. induction s as [|c s IH]; [done|]. rewrite app_String. simpl. by rewrite IH. Qed.

Lemma all_digits_app s t : all_digits (s +:+ t) = all_digits s && all_digits t.
Proof.
  induction s as [|c s IH]; [done|]. rewrite app_String. simpl.
  by rewrite IH, andb_assoc.
Qed.

Lemma take_digits_app ds rest : all_digits ds = true → ∀ a c,
  take_digits 10 (ds +:+ rest) a c
  = take_digits 10 rest (dval ds a) (c + String.length ds)%nat.
Proof.
  induction ds as [|d ds IH]; intros Hd a c.
  - rewrite app_empty. simpl. by rewrite Nat.add_0_r.
  - rewrite app_String. simpl in *.
    apply andb_true_iff in Hd as [Hd Hds]. apply bool_decide_eq_true in Hd.
    destruct Hd as [v Hv]. rewrite Hv. rewrite IH by done.
    f_equal. lia.
Qed.

Lemma take_digits_stop rest a c : stops rest → take_digits 10 rest a c = (a, c, rest).
Proof. destruct rest as [|x rest]; simpl; [done|]. by intros ->. Qed.

Lemma dval_app ds t a : all_digits ds = true → dval (ds +:+ t) a = dval t (dval ds a).
Proof.
  revert a. induction ds as [|d ds IH]; intros a Hd; [done|].
  rewrite app_String. simpl in *.
  apply andb_true_iff in Hd as [Hd Hds]. apply bool_decide_eq_true in Hd.
  destruct Hd as [v Hv]. rewrite Hv. by apply IH.
Qed.

(** Reading digits after [a] shifts [a] and adds what is read after 0. *)
Lemma dval_shift ds : all_digits ds = true → ∀ a,
  dval ds a = a * 10 ^ Z.of_nat (String.length ds) + dval ds 0.
Proof.
  induction ds as [|d ds IH]; intros Hd a.
  - simpl. lia.
  - simpl in *. apply andb_true_iff in Hd as [Hd Hds].
    apply bool_decide_eq_true in Hd. destruct Hd as [v Hv]. rewrite Hv.
    rewrite (IH Hds (a * 10 + v)), (IH Hds (0 * 10 + v)).
    rewrite ?Zpos_P_of_succ_nat, ?Nat2Z.inj_succ, Z.pow_succ_r by lia. lia.
Qed.

Lemma digit_char d : 0 ≤ d < 10 → digit_val 10 (char_of (48 + d)) = Some d.
Proof.
  intros H.
  assert (d = 0 ∨ d = 1 ∨ d = 2 ∨ d = 3 ∨ d = 4 ∨ d = 5 ∨ d = 6 ∨ d = 7
          ∨ d = 8 ∨ d = 9) as Hd by lia.
  repeat (destruct Hd as [-> | Hd]; [reflexivity|]). by subst.
Qed.

Lemma render_digits_all fuel : ∀ n acc,
  all_digits acc = true → all_digits (render_digits fuel n acc) = true.
Proof.
  assert (∀ n acc, all_digits acc = true →
            all_digits (String (char_of (48 + n mod 10)) acc) = true) as Hstep.
  { intros n acc Ha. simpl. rewrite Ha, andb_true_r. apply bool_decide_eq_true.
    rewrite digit_char; [done|]. apply Z.mod_pos_bound. lia. }
  induction fuel as [|fuel IH]; intros n acc Ha; simpl.
  - rewrite Ha, andb_true_r. apply bool_decide_eq_true.
    rewrite digit_char; [done|]. apply Z.mod_pos_bound. lia.
  - destruct (n <? 10); [by apply Hstep|]. apply IH. by apply Hstep.
Qed.

Lemma render_digits_length fuel : ∀ n acc,
  String.length (render_digits fuel n acc) = (ndigits fuel n + String.length acc)%nat.
Proof.
  induction fuel as [|fuel IH]; intros n acc; simpl; [done|].
  destruct (n <? 10); [done|]. rewrite IH. simpl. lia.
Qed.

Lemma render_digits_dval fuel : ∀ n acc a,
  0 ≤ n < 10 ^ Z.of_nat (S fuel) →
  dval (render_digits fuel n acc) a
  = dval acc (a * 10 ^ Z.of_nat (ndigits fuel n) + n).
Proof.
  induction fuel as [|fuel IH]; intros n acc a Hn.
  - change (10 ^ Z.of_nat 1) with 10 in Hn. simpl.
    rewrite digit_char by (apply Z.mod_pos_bound; lia).
    rewrite Z.mod_small by lia. f_equal.
  - rewrite Nat2Z.inj_succ, Z.pow_succ_r in Hn by lia. simpl.
    destruct (Z.ltb_spec n 10).
    + simpl. rewrite digit_char by (apply Z.mod_pos_bound; lia).
      rewrite Z.mod_small by lia. f_equal.
    + pose proof (Z.div_mod n 10) as Hdm.
      pose proof (Z.mod_pos_bound n 10) as Hmod.
      rewrite IH by lia.
      simpl. rewrite digit_char by lia. f_equal.
      rewrite ?Zpos_P_of_succ_nat, ?Nat2Z.inj_succ, Z.pow_succ_r by lia. lia.
Qed.

(** The digits of a positive number have at least its magnitude. *)
Lemma ndigits_lower fuel : ∀ n, 0 < n → 10 ^ (Z.of_nat (ndigits fuel n) - 1) ≤ n.
Proof.
  induction fuel as [|fuel IH]; intros n Hn; simpl.
  - change (10 ^ (1 - 1)) with 1. lia.
  - destruct (Z.ltb_spec n 10).
    + change (10 ^ (1 - 1)) with 1. lia.
    + rewrite ?Zpos_P_of_succ_nat, ?Nat2Z.inj_succ.
      replace (Z.succ (Z.of_nat (ndigits fuel (n / 10))) - 1)
        with (Z.succ (Z.of_nat (ndigits fuel (n / 10)) - 1)) by lia.
      assert (0 < Z.of_nat (ndigits fuel (n / 10))) by (destruct fuel; simpl; [lia|]; destruct (_ <? _); lia).
      rewrite Z.pow_succ_r by lia.
      pose proof (Z.div_mod n 10). pose proof (Z.mod_pos_bound n 10).
      assert (0 < n / 10) by lia.
      specialize (IH (n / 10)). lia.
Qed.

Lemma log2_fuel_pos n : 0 ≤ n → 0 ≤ n < 10 ^ Z.of_nat (S (Z.to_nat (Z.log2 n))).
Proof.
  intros Hn. split; [done|].
  destruct (decide (n = 0)) as [->|Hne]; [done|].
  pose proof (log2_fuel n Hne) as H. by rewrite Z.abs_eq in H by lia.
Qed.

Lemma digits_all n : all_digits (digits n) = true.
Proof. by apply render_digits_all. Qed.

Lemma digits_dval n a :
  0 ≤ n → dval (digits n) a = a * 10 ^ Z.of_nat (String.length (digits n)) + n.
Proof.
  intros Hn. unfold digits.
  rewrite render_digits_dval by (by apply log2_fuel_pos).
  rewrite render_digits_length. simpl. by rewrite Nat.add_0_r.
Qed.

Lemma digits_length_pos n : (0 < String.length (digits n))%nat.
Proof.
  unfold digits. rewrite render_digits_length.
  destruct (Z.to_nat _); simpl; [lia|]. destruct (_ <? _); lia.
Qed.

Lemma digits_lower n :
  0 < n → 10 ^ (Z.of_nat (String.length (digits n)) - 1) ≤ n.
Proof.
  intros Hn. unfold digits. rewrite render_digits_length. simpl.
  rewrite Nat.add_0_r. by apply ndigits_lower.
Qed.

Lemma app_nil_r_str s : s +:+ "" = s.
Proof. induction s as [|c s IH]; [done|]. by rewrite app_String, IH. Qed.

Lemma take_drop_chars j s : take_chars j s +:+ drop_chars j s = s.
Proof.
  revert s. induction j as [|j IH]; intros [|c s]; try done.
  simpl. by rewrite app_String, IH.
Qed.

Lemma take_chars_length j s :
  (j ≤ String.length s)%nat → String.length (take_chars j s) = j.
Proof.
  revert s. induction j as [|j IH]; intros [|c s] H; simpl in *; try done; try lia.
  rewrite IH; [done|lia].
Qed.

Lemma take_drop_digits j s :
  all_digits s = true →
  all_digits (take_chars j s) = true ∧ all_digits (drop_chars j s) = true.
Proof.
  intros H. rewrite <- (take_drop_chars j s), all_digits_app in H.
  by apply andb_true_iff in H.
Qed.

Lemma zeros_all j : all_digits (repeat_char "0" j) = true.
Proof. induction j as [|j IH]; [done|]. simpl. by rewrite IH. Qed.

Lemma zeros_length j : String.length (repeat_char "0" j) = j.
Proof. induction j as [|j IH]; [done|]. simpl. by rewrite IH. Qed.

Lemma zeros_dval j a : dval (repeat_char "0" j) a = a * 10 ^ Z.of_nat j.
Proof.
  rewrite dval_shift by apply zeros_all. rewrite zeros_length.
  assert (dval (repeat_char "0" j) 0 = 0) as ->; [|lia].
  induction j as [|j IH]; [done|]. simpl. exact IH.
Qed.

(** What a leading digit rules out. *)
Lemma digit_start c s :
  is_Some (digit_val 10 c) →
  trim_start (String c s) = String c s
  ∧ read_sign (String c s) = (false, String c s)
  ∧ starts_with "Infinity" (String c s) = false
  ∧ starts_with "-" (String c s) = false.
Proof.
  intros [v Hv].
  destruct c as [[] [] [] [] [] [] [] []]; try (by vm_compute in Hv); done.
Qed.

Lemma digit_not_x c :
  is_Some (digit_val 10 c) → c ≠ "x"%char ∧ c ≠ "X"%char.
Proof.
  intros [v Hv].
  destruct c as [[] [] [] [] [] [] [] []]; try (by vm_compute in Hv); done.
Qed.

Lemma no_hex_prefix ds :
  all_digits ds = true → starts_with "0x" ds || starts_with "0X" ds = false.
Proof.
  intros H. destruct ds as [|c1 [|c2 ds]]; [done| |].
  - simpl. by destruct (decide _).
  - simpl in H. apply andb_true_iff in H as [_ H].
    apply andb_true_iff in H as [H _]. apply bool_decide_eq_true in H.
    apply digit_not_x in H as [Hx HX].
    simpl. destruct (decide ("0"%char = c1)); [|done].
    destruct (decide ("x"%char = c2)); [done|].
    destruct (decide ("X"%char = c2)); done.
Qed.

Lemma all_digits_head c s :
  all_digits (String c s) = true → is_Some (digit_val 10 c).
Proof.
  simpl. intros H. apply andb_true_iff in H as [H _].
  by apply bool_decide_eq_true in H.
Qed.

(** [parseInt] on a run of digits, with or without a minus sign. *)
Lemma parseInt_str_digits ds (neg : bool) :
  all_digits ds = true → ds ≠ "" →
  parseInt_str ((if neg then "-" else "") +:+ ds) = Some (signed neg (dval ds 0)).
Proof.
  intros Hd Hne. destruct ds as [|c ds]; [done|].
  destruct (digit_start c ds (all_digits_head _ _ Hd)) as (Ht & Hs & _ & _).
  unfold parseInt_str.
  assert (read_sign (trim_start ((if neg then "-" else "") +:+ String c ds))
          = (neg, String c ds)) as ->.
  { destruct neg; [reflexivity|]. rewrite app_empty. by rewrite Ht, Hs. }
  rewrite (no_hex_prefix _ Hd).
  rewrite <- (app_nil_r_str (String c ds)) at 1.
  rewrite take_digits_app by done. reflexivity.
Qed.

Lemma pow10_lt a b : 0 ≤ a → 10 ^ a < 10 ^ b → a < b.
Proof.
  intros Ha H. destruct (Z.lt_ge_cases a b) as [|Hge]; [done|].
  destruct (Z.lt_ge_cases b 0) as [Hneg|Hnn].
  - rewrite (Z.pow_neg_r 10 b) in H by done.
    assert (0 < 10 ^ a) by (apply Z.pow_pos_nonneg; lia). lia.
  - assert (10 ^ b ≤ 10 ^ a) by (apply Z.pow_le_mono_r; lia). lia.
Qed.

(** An integer below 10^21 in absolute value is printed in full, and read
    back as itself. *)
Lemma parseInt_num_of_Z z :
  Z.abs z < 10 ^ 21 → parseInt (JNum (num_of_Z z)) = Some z.
Proof.
  intros Hz. unfold parseInt, num_of_Z. simpl ToString.
  destruct (dec_spec z 0) as (m & e & Hdec & Hs).
  rewrite Hdec. unfold num_to_string.
  rewrite dec_id by (rewrite <- Hdec; apply dec_canonical).
  destruct Hs as [(-> & -> & ->)|(Hz0 & Hm0 & Hmod & He & Hval)]; [done|].
  rewrite Z.sub_0_r in Hval.
  apply Z.eqb_neq in Hm0 as Hm0'. rewrite Hm0'.
  unfold render_abs.
  set (ds := digits (Z.abs m)).
  set (k := Z.of_nat (String.length ds)).
  assert (0 < 10 ^ e) as Hpow by (apply Z.pow_pos_nonneg; lia).
  assert (k + e ≤ 21) as Hn.
  { pose proof (digits_lower (Z.abs m) ltac:(lia)) as Hlow. fold ds k in Hlow.
    pose proof (digits_length_pos (Z.abs m)) as Hpos. fold ds in Hpos.
    assert (10 ^ (k - 1 + e) < 10 ^ 21) as Hlt.
    { rewrite Z.pow_add_r by lia. nia. }
    apply pow10_lt in Hlt; lia. }
  assert ((k <=? k + e) && (k + e <=? 21) = true) as ->.
  { apply andb_true_iff. split; apply Z.leb_le; lia. }
  replace (k + e - k) with e by lia.
  transitivity (parseInt_str ((if m <? 0 then "-" else "")
                              +:+ (ds +:+ repeat_char "0" (Z.to_nat e)))).
  { done. }
  rewrite parseInt_str_digits.
  - f_equal. rewrite dval_app by apply digits_all.
    rewrite zeros_dval, Z2Nat.id by lia.
    unfold ds. rewrite digits_dval by lia.
    unfold signed. destruct (Z.ltb_spec m 0); nia.
  - rewrite all_digits_app. unfold ds. by rewrite digits_all, zeros_all.
  - pose proof (digits_length_pos (Z.abs m)) as Hpos. fold ds in Hpos.
    destruct ds; [simpl in Hpos; lia|done].
Qed.

(** *** Printing and reading decimals *)

Lemma read_exponent_render ex :
  read_exponent ("e" +:+ (if ex <? 0 then "-" else "+") +:+ digits (Z.abs ex))
  = (ex, "").
Proof.
  assert (take_digits 10 (digits (Z.abs ex)) 0 0
          = (Z.abs ex, String.length (digits (Z.abs ex)), "")) as Ht.
  { rewrite <- (app_nil_r_str (digits _)) at 1.
    rewrite take_digits_app by apply digits_all.
    rewrite digits_dval by lia. simpl. f_equal. }
  pose proof (digits_length_pos (Z.abs ex)) as Hpos.
  destruct (String.length (digits (Z.abs ex))) as [|len] eqn:Hlen; [lia|].
  destruct (Z.ltb_spec ex 0).
  - transitivity (let '(v, cnt, s3) := take_digits 10 (digits (Z.abs ex)) 0 0 in
                  match cnt with
                  | O => (0, "e" +:+ "-" +:+ digits (Z.abs ex))
                  | S _ => (signed true v, s3)
                  end); [reflexivity|].
    rewrite Ht. simpl. f_equal. lia.
  - transitivity (let '(v, cnt, s3) := take_digits 10 (digits (Z.abs ex)) 0 0 in
                  match cnt with
                  | O => (0, "e" +:+ "+" +:+ digits (Z.abs ex))
                  | S _ => (signed false v, s3)
                  end); [reflexivity|].
    rewrite Ht. simpl. f_equal. lia.
Qed.

Lemma exponent_tail_stops tail : exponent_tail tail → stops tail.
Proof. by intros [->|[t ->]]. Qed.

(** Digits followed by an optional exponent. *)
Lemma read_unsigned_int d1 tail ex rest :
  all_digits d1 = true → d1 ≠ "" → exponent_tail tail →
  read_exponent tail = (ex, rest) →
  read_unsigned (d1 +:+ tail) = Some (dval d1 0, ex, rest).
Proof.
  intros H1 Hne Ht Hex. unfold read_unsigned.
  rewrite take_digits_app by done.
  rewrite take_digits_stop by (by apply exponent_tail_stops).
  assert (∃ len, (0 + String.length d1)%nat = S len) as [len ->].
  { destruct d1; [done|]. simpl. by eexists. }
  destruct Ht as [->|[t ->]]; by rewrite Hex.
Qed.

(** Digits, a point, digits and an optional exponent. *)
Lemma read_unsigned_frac d1 d2 tail ex rest :
  all_digits d1 = true → all_digits d2 = true → d1 ≠ "" → exponent_tail tail →
  read_exponent tail = (ex, rest) →
  read_unsigned (d1 +:+ "." +:+ d2 +:+ tail)
  = Some (dval (d1 +:+ d2) 0, ex - Z.of_nat (String.length d2), rest).
Proof.
  intros H1 H2 Hne Ht Hex. unfold read_unsigned.
  rewrite take_digits_app by done.
  rewrite take_digits_stop by done.
  change ("." +:+ d2 +:+ tail) with (String "." (d2 +:+ tail)). cbv iota beta.
  rewrite take_digits_app by done.
  rewrite take_digits_stop by (by apply exponent_tail_stops).
  assert (∃ len, (0 + String.length d1 + String.length d2)%nat = S len) as [len Hlen].
  { destruct d1; [done|]. simpl. by eexists. }
  rewrite Hlen, Hex, <- Hlen. rewrite dval_app by done.
  do 3 f_equal. lia.
Qed.

Lemma first_digit d1 t :
  all_digits d1 = true → d1 ≠ "" →
  ∃ c rest, d1 +:+ t = String c rest ∧ is_Some (digit_val 10 c).
Proof.
  intros H Hne. destruct d1 as [|c d1]; [done|].
  exists c, (d1 +:+ t). split; [done|]. by eapply all_digits_head.
Qed.

(** [parseFloat] on a sign followed by an unsigned literal that starts with
    a digit. *)
Lemma parseFloat_str_signed (neg : bool) body c rest0 m e rest :
  body = String c rest0 → is_Some (digit_val 10 c) →
  read_unsigned body = Some (m, e, rest) →
  parseFloat_str ((if neg then "-" else "") +:+ body) = dec (signed neg m) e.
Proof.
  intros -> Hc Hr.
  destruct (digit_start c rest0 Hc) as (Ht & Hs & Hi & _).
  unfold parseFloat_str, read_decimal_literal.
  assert (read_sign (trim_start ((if neg then "-" else "") +:+ String c rest0))
          = (neg, String c rest0)) as ->.
  { destruct neg; [reflexivity|]. rewrite app_empty. by rewrite Ht, Hs. }
  by rewrite Hi, Hr.
Qed.

Lemma drop_chars_length j s :
  (j ≤ String.length s)%nat →
  String.length (drop_chars j s) = (String.length s - j)%nat.
Proof.
  intros H. pose proof (app_length (take_chars j s) (drop_chars j s)) as Hl.
  rewrite take_drop_chars, take_chars_length in Hl by done. lia.
Qed.

(** Reading back what [Number::toString] prints, in each of its four
    layouts: the value is the one printed. *)
Lemma read_unsigned_render s e :
  0 < s →
  ∃ c rest0 m e',
    render_abs s e = String c rest0 ∧ is_Some (digit_val 10 c)
    ∧ read_unsigned (render_abs s e) = Some (m, e', "")
    ∧ e' ≤ e ∧ m = s * 10 ^ (e - e').
Proof.
  intros Hs. unfold render_abs.
  set (ds := digits s). set (k := Z.of_nat (String.length ds)).
  assert (all_digits ds = true) as Hall by apply digits_all.
  assert (dval ds 0 = s) as Hval by (unfold ds; rewrite digits_dval; lia).
  assert (0 < k) as Hk by (pose proof (digits_length_pos s); unfold k, ds; lia).
  assert (ds ≠ "") as Hne by (intros Heq; unfold k in Hk; rewrite Heq in Hk; simpl in Hk; lia).
  assert (read_exponent "" = (0, "")) as Hex0 by reflexivity.
  assert (exponent_tail "") as Ht0 by (by left).
  destruct ((k <=? k + e) && (k + e <=? 21)) eqn:Ha.
  { apply andb_true_iff in Ha as [Ha1 Ha2].
    apply Z.leb_le in Ha1. apply Z.leb_le in Ha2.
    set (d1 := ds +:+ repeat_char "0" (Z.to_nat (k + e - k))).
    assert (all_digits d1 = true) as H1
      by (unfold d1; by rewrite all_digits_app, Hall, zeros_all).
    assert (d1 ≠ "") as Hne1 by (unfold d1; destruct ds; done).
    destruct (first_digit d1 "" H1 Hne1) as (c & rest0 & Hc & Hd).
    rewrite app_nil_r_str in Hc.
    exists c, rest0, (dval d1 0), 0. split_and!; [done|done| |lia|].
    - rewrite <- (app_nil_r_str d1) at 1.
      by rewrite (read_unsigned_int d1 "" 0 "").
    - unfold d1. rewrite dval_app, zeros_dval, Hval by done.
      do 2 f_equal. lia. }
  destruct ((0 <? k + e) && (k + e <=? 21)) eqn:Hb.
  { apply andb_true_iff in Hb as [Hb1 Hb2].
    apply Z.ltb_lt in Hb1. apply Z.leb_le in Hb2.
    apply andb_false_iff in Ha.
    assert (k + e < k) as Hlt
      by (destruct Ha as [Ha|Ha]; [apply Z.leb_gt in Ha|apply Z.leb_gt in Ha]; lia).
    set (j := Z.to_nat (k + e)).
    assert (j ≤ String.length ds)%nat as Hj by (unfold j, k in *; lia).
    destruct (take_drop_digits j ds Hall) as [H1 H2].
    assert (take_chars j ds ≠ "") as Hne1.
    { intros Heq. pose proof (take_chars_length j ds Hj) as Hl.
      rewrite Heq in Hl. simpl in Hl. unfold j in Hl. lia. }
    destruct (first_digit (take_chars j ds) ("." +:+ drop_chars j ds) H1 Hne1)
      as (c & rest0 & Hc & Hd).
    exists c, rest0, s, e. split_and!; [done|done| |lia|].
    - rewrite <- (app_nil_r_str (drop_chars j ds)).
      rewrite (read_unsigned_frac _ _ "" 0 "") by done.
      rewrite take_drop_chars, Hval, drop_chars_length by done.
      do 3 f_equal. unfold j, k in *. lia.
    - rewrite Z.sub_diag. simpl. lia. }
  destruct ((-6 <? k + e) && (k + e <=? 0)) eqn:Hc.
  { apply andb_true_iff in Hc as [Hc1 Hc2].
    apply Z.ltb_lt in Hc1. apply Z.leb_le in Hc2.
    set (d2 := repeat_char "0" (Z.to_nat (- (k + e))) +:+ ds).
    assert (all_digits d2 = true) as H2
      by (unfold d2; by rewrite all_digits_app, zeros_all, Hall).
    exists "0"%char, ("." +:+ d2), s, e. split_and!; [done|by eexists| |lia|].
    - change ("0." +:+ d2) with ("0" +:+ "." +:+ d2).
      rewrite <- (app_nil_r_str d2).
      rewrite (read_unsigned_frac "0" d2 "" 0 "") by done.
      rewrite dval_app by done.
      change (dval "0" 0) with 0.
      unfold d2 at 1. rewrite dval_app, zeros_dval by apply zeros_all.
      rewrite Z.mul_0_l, Hval.
      unfold d2. rewrite app_length, zeros_length.
      do 3 f_equal. unfold k in *. lia.
    - rewrite Z.sub_diag. simpl. lia. }
  set (ex := k + e - 1).
  set (tail := "e" +:+ (if ex <? 0 then "-" else "+") +:+ digits (Z.abs ex)).
  assert (read_exponent tail = (ex, "")) as Hex by apply read_exponent_render.
  assert (exponent_tail tail) as Ht by (right; by eexists).
  destruct (Z.eqb_spec k 1) as [Hk1|Hk1].
  - destruct (first_digit ds tail Hall Hne) as (c & rest0 & Hcr & Hd).
    exists c, rest0, s, e. split_and!; [done|done| |lia|].
    + rewrite (read_unsigned_int ds tail ex "") by done.
      rewrite Hval. do 3 f_equal. unfold ex. lia.
    + rewrite Z.sub_diag. simpl. lia.
  - assert (1 ≤ String.length ds)%nat as Hj by (unfold k in *; lia).
    destruct (take_drop_digits 1 ds Hall) as [H1 H2].
    assert (take_chars 1 ds ≠ "") as Hne1 by (destruct ds; done).
    destruct (first_digit (take_chars 1 ds) ("." +:+ drop_chars 1 ds +:+ tail)
                H1 Hne1) as (c & rest0 & Hcr & Hd).
    exists c, rest0, s, e. split_and!; [done|done| |lia|].
    + rewrite (read_unsigned_frac _ _ tail ex "") by done.
      rewrite take_drop_chars, Hval, drop_chars_length by done.
      do 3 f_equal. unfold ex, k in *. lia.
    + rewrite Z.sub_diag. simpl. lia.
Qed.

(** [parseFloat] gives back every canonical number that is printed for
    it. *)
Lemma parseFloat_num x : canonical x → parseFloat (JNum x) = x.
Proof.
  intros Hx. unfold parseFloat. simpl ToString.
  destruct x as [|[]|m e]; try reflexivity.
  unfold num_to_string. rewrite dec_id by done.
  destruct Hx as [[-> ->]|[Hm Hmod]]; [reflexivity|].
  apply Z.eqb_neq in Hm as Hm'. rewrite Hm'.
  destruct (read_unsigned_render (Z.abs m) e ltac:(lia))
    as (c & rest0 & m1 & e1 & Hc & Hd & Hr & He & Hv).
  rewrite (parseFloat_str_signed (m <? 0) _ c rest0 m1 e1 "" Hc Hd Hr).
  apply dec_of_value; try done.
  - rewrite Hv. unfold signed. destruct (Z.ltb_spec m 0); lia.
Qed.

(** *** The normaliser on its own output *)

Lemma parseFloat_canonical v : canonical (parseFloat v).
Proof.
  unfold parseFloat, parseFloat_str, read_decimal_literal.
  destruct (read_sign _) as [neg s1].
  destruct (starts_with "Infinity" s1); [done|].
  destruct (read_unsigned s1) as [[[m e] rest]|]; [|done].
  apply dec_canonical.
Qed.

Lemma num_or_zero_canonical x : canonical x → canonical (num_or_zero x).
Proof.
  destruct x as [| |m e]; simpl; try done; [by left|].
  destruct (m =? 0); [by left|done].
Qed.

Lemma num_or_zero_idem x : num_or_zero (num_or_zero x) = num_or_zero x.
Proof.
  destruct x as [| |m e]; simpl; try done.
  destruct (m =? 0) eqn:Hm; simpl; [done|]. by rewrite Hm.
Qed.

Lemma or_else_truthy v d : truthy d = true → truthy (or_else v d) = true.
Proof. intros Hd. unfold or_else. by destruct (truthy v) eqn:Hv. Qed.

Lemma or_else_keep v d : truthy v = true → or_else v d = v.
Proof. intros Hv. unfold or_else. by rewrite Hv. Qed.

(** A defaulted cell read again keeps its value, whatever the new default. *)
Lemma or_else_again v d d' :
  truthy d = true → or_else (or_else v d) d' = or_else v d.
Proof. intros Hd. apply or_else_keep. by apply or_else_truthy. Qed.

Lemma int_or_zero_again z :
  Z.abs z < 10 ^ 21 → int_or_zero (parseInt (JNum (num_of_Z z))) = z.
Proof. intros Hz. by rewrite parseInt_num_of_Z. Qed.

Lemma num_or_zero_again v :
  num_or_zero (parseFloat (JNum (num_or_zero (parseFloat v))))
  = num_or_zero (parseFloat v).
Proof.
  rewrite parseFloat_num
    by (apply num_or_zero_canonical, parseFloat_canonical).
  apply num_or_zero_idem.
Qed.

(** C4 fails as stated.  A record handed back as a raw row under its own
    property names is not read: the normaliser looks for "Part_Name",
    "Part_Code" and so on, finds none of them and answers the record of
    defaults, so the name "Bolt" comes back as "Unknown Part" although the id
    was not synthetic.  And even under the raw column names, a stock of
    10^21 is printed as "1e+21" and comes back as 1. *)
Lemma renormalize_differs :
  let r := normalize "2024-05-01" "k3j9x0q2a" bolt_row in
  let r' := normalize "2024-05-01" "k3j9x0q2a" (to_object r) in
  let h := normalize "2024-05-01" "k3j9x0q2a" huge_row in
  let h' := normalize "2024-05-01" "k3j9x0q2a" (to_columns h) in
  id r = JStr "B7" ∧ partName r = JStr "Bolt"
  ∧ partName r' = JStr "Unknown Part" ∧ currentStock r = 12 ∧ currentStock r' = 0
  ∧ ¬ same_but_id r' r
  ∧ id h = JStr "B7" ∧ currentStock h = 10 ^ 21 ∧ currentStock h' = 1
  ∧ ¬ same_but_id h' h.
Proof.
  split_and!; try by vm_compute.
  - intros (_ & H & _). by vm_compute in H.
  - intros (_ & _ & _ & H & _). by vm_compute in H.
Qed.

(** C4, amended: handed back under the raw column names, a canonical
    record whose four integer fields are at most [2^53] in absolute value
    (the integers that [parseInt] reads and [String] prints digit for digit)
    is normalised to itself, field for field, the id apart; and the id is the
    same too when the row had a part code.  (The load date, an ISO date, is
    not the empty string.) *)
Theorem renormalize_columns (today token today' token' : string) (item : Row) :
  today ≠ "" →
  let r := normalize today token item in
  Z.abs (currentStock r) ≤ 2 ^ 53 → Z.abs (minRequired r) ≤ 2 ^ 53 →
  Z.abs (maxThreshold r) ≤ 2 ^ 53 → Z.abs (inProcess r) ≤ 2 ^ 53 →
  let r' := normalize today' token' (to_columns r) in
  same_but_id r' r
  ∧ (truthy (cell item "Part_Code") = true → id r' = id r).
Proof.
  intros Htoday r H1 H2 H3 H4 r'.
  assert (2 ^ 53 < 10 ^ 21) as Hsafe by done.
  apply Z.le_lt_trans with (p := 10 ^ 21) in H1, H2, H3, H4; try exact Hsafe.
  assert (truthy (JStr today) = true) as Hdate
    by (simpl; by rewrite bool_decide_eq_false_2).
  assert (cell (to_columns r) "Part_Code" = partCode r) as Ecode by reflexivity.
  assert (cell (to_columns r) "Equipment_Category" = equipmentCategory r)
    as Ecat by reflexivity.
  assert (cell (to_columns r) "Part_Name" = partName r) as Ename by reflexivity.
  assert (cell (to_columns r) "Current_Stock" = JNum (num_of_Z (currentStock r)))
    as Ecs by reflexivity.
  assert (cell (to_columns r) "Minimum_Required" = JNum (num_of_Z (minRequired r)))
    as Emr by reflexivity.
  assert (cell (to_columns r) "Maximum_Threshold" = JNum (num_of_Z (maxThreshold r)))
    as Emt by reflexivity.
  assert (cell (to_columns r) "In_Process" = JNum (num_of_Z (inProcess r)))
    as Eip by reflexivity.
  assert (cell (to_columns r) "Unit_Cost" = JNum (unitCost r)) as Euc by reflexivity.
  assert (cell (to_columns r) "Supplier" = supplier r) as Esup by reflexivity.
  assert (cell (to_columns r) "Last_Updated" = lastUpdated r) as Elu by reflexivity.
  assert (cell (to_columns r) "Status" = status r) as Est by reflexivity.
  assert (currentStock r' = currentStock r) as Hcs
    by (unfold r'; simpl; rewrite Ecs; by apply int_or_zero_again).
  assert (minRequired r' = minRequired r) as Hmr
    by (unfold r'; simpl; rewrite Emr; by apply int_or_zero_again).
  assert (unitCost r' = unitCost r) as Huc
    by (unfold r'; simpl; rewrite Euc; apply num_or_zero_again).
  unfold same_but_id. split_and!.
  - unfold r'. simpl. rewrite Ecat. by apply or_else_again.
  - unfold r'. simpl. rewrite Ename. by apply or_else_again.
  - unfold r'. simpl. rewrite Ecode. by apply or_else_again.
  - exact Hcs.
  - exact Hmr.
  - unfold r'. simpl. rewrite Emt. by apply int_or_zero_again.
  - unfold r'. simpl. rewrite Eip. by apply int_or_zero_again.
  - exact Huc.
  - unfold r'. simpl. rewrite Esup. by apply or_else_again.
  - unfold r'. simpl. rewrite Elu. by apply or_else_again.
  - unfold r'. simpl. rewrite Est. by apply or_else_again.
  - change (stockLevel r') with (getStockLevel (currentStock r') (minRequired r')).
    by rewrite Hcs, Hmr.
  - change (totalValue r')
      with (num_mul (num_of_Z (currentStock r')) (unitCost r')).
    by rewrite Hcs, Huc.
  - intros Hcode. unfold r'. simpl. rewrite Ecode.
    unfold r. simpl.
    by rewrite !(or_else_keep (cell item "Part_Code")) by done.
Qed.

Lemma renormalize_columns_witness :
  let r := normalize "2024-05-01" "k3j9x0q2a" bolt_row in
  same_but_id (normalize "2024-06-01" "p0o9i8u7y" (to_columns r)) r.
Proof.
  refine (proj1 (renormalize_columns "2024-05-01" "k3j9x0q2a"
                   "2024-06-01" "p0o9i8u7y" bolt_row _ _ _ _ _));
    by vm_compute.
Defined.

(** ** Generic facts on the sort *)

Lemma insert_sorted_elem_of {A} (comparefn : A → A → Z) x y (l : list A) :
  y ∈ insert_sorted comparefn x l ↔ y = x ∨ y ∈ l.
Proof. by rewrite insert_sorted_perm, elem_of_cons. Qed.

(** The sort orders the array by any transitive relation that the
    comparator decides on the elements of the array. *)
Lemma sort_sorted {A} (comparefn : A → A → Z) (R : relation A) (l : list A) :
  Transitive R →
  (∀ a b, a ∈ l → b ∈ l → if comparefn a b >? 0 then R b a else R a b) →
  StronglySorted R (sort comparefn l).
Proof.
  intros HR Hcmp. induction l as [|x l IH]; simpl; [constructor|].
  assert (StronglySorted R (sort comparefn l)) as Hs.
  { apply IH. intros a b Ha Hb. apply Hcmp; by apply elem_of_cons; right. }
  assert (∀ y, y ∈ sort comparefn l → if comparefn x y >? 0 then R y x else R x y)
    as Hx.
  { intros y Hy. apply Hcmp; [by apply elem_of_cons; left|].
    apply elem_of_cons. right. by rewrite <- (sort_perm comparefn l). }
  clear IH Hcmp. induction Hs as [|y s Hs IHs Hall]; simpl.
  - repeat constructor.
  - pose proof (Hx y ltac:(by apply elem_of_cons; left)) as Hxy.
    destruct (comparefn x y >? 0).
    + constructor.
      * apply IHs. intros z Hz. apply Hx. by apply elem_of_cons; right.
      * apply Forall_forall. intros z Hz.
        apply insert_sorted_elem_of in Hz as [->|Hz]; [done|].
        by eapply Forall_forall in Hall.
    + constructor; [by constructor|].
      constructor; [done|].
      apply Forall_forall. intros z Hz.
      eapply Forall_forall in Hall; [|done]. by etrans.
Qed.

(** An array that the comparator finds in order is left as it is. *)
Lemma sort_fixed {A} (comparefn : A → A → Z) (l : list A) :
  StronglySorted (λ a b, comparefn a b ≤ 0) l → sort comparefn l = l.
Proof.
  induction 1 as [|x l Hs IH Hall]; simpl; [done|].
  rewrite IH. destruct l as [|y l]; simpl; [done|].
  apply Forall_cons in Hall as [Hxy _].
  destruct (Z.gtb_spec (comparefn x y) 0); [lia|done].
Qed.

(** ** More on the aggregator *)

Lemma count_level_perm (lv : StockLevel) (l l' : list SparePart) :
  l ≡ₚ l' → count_level lv l = count_level lv l'.
Proof. intros H. unfold count_level. by rewrite H. Qed.

Lemma count_level_cons (lv : StockLevel) (item : SparePart) (l : list SparePart) :
  count_level lv (item :: l)
  = (if decide (stockLevel item = lv) then 1 else 0) + count_level lv l.
Proof.
  unfold count_level. rewrite filter_cons.
  destruct (decide (stockLevel item = lv)); simpl; lia.
Qed.

Lemma foldl_add_level (l : list SparePart) : ∀ c,
  let c' := foldl add_level c l in
  n_OUT_OF_STOCK c' = n_OUT_OF_STOCK c + count_level OUT_OF_STOCK l
  ∧ n_LOW_STOCK c' = n_LOW_STOCK c + count_level LOW_STOCK l
  ∧ n_MEDIUM_STOCK c' = n_MEDIUM_STOCK c + count_level MEDIUM_STOCK l
  ∧ n_HIGH_STOCK c' = n_HIGH_STOCK c + count_level HIGH_STOCK l.
Proof.
  induction l as [|item l IH]; intros c; simpl.
  - unfold count_level. simpl. lia.
  - destruct (IH (add_level c item)) as (H1 & H2 & H3 & H4).
    rewrite H1, H2, H3, H4, !count_level_cons.
    unfold add_level. destruct (stockLevel item); simpl; lia.
Qed.

Lemma count_level_total (l : list SparePart) :
  count_level OUT_OF_STOCK l + count_level LOW_STOCK l
  + count_level MEDIUM_STOCK l + count_level HIGH_STOCK l
  = Z.of_nat (length l).
Proof.
  induction l as [|item l IH]; [done|].
  rewrite !count_level_cons. simpl length.
  destruct (stockLevel item); simpl; lia.
Qed.

(** X1: in the statistics the four counts of [stockLevelBreakdown] add up to
    [totalParts], and its OUT_OF_STOCK and LOW_STOCK entries are the
    [outOfStock] and [lowStock] figures computed separately (before the
    array is sorted). *)
Theorem stats_level_breakdown (st : Server) :
  let s := (dashboard_stats st).1 in
  let c := stockLevelBreakdown s in
  n_OUT_OF_STOCK c + n_LOW_STOCK c + n_MEDIUM_STOCK c + n_HIGH_STOCK c
    = s_totalParts s
  ∧ n_OUT_OF_STOCK c = s_outOfStock s
  ∧ n_LOW_STOCK c = s_lowStock s
  ∧ 0 ≤ n_MEDIUM_STOCK c ∧ 0 ≤ n_HIGH_STOCK c.
Proof.
  simpl.
  destruct (foldl_add_level (sort by_recency (sparePartsData st))
              {| n_OUT_OF_STOCK := 0; n_LOW_STOCK := 0;
                 n_MEDIUM_STOCK := 0; n_HIGH_STOCK := 0 |})
    as (H1 & H2 & H3 & H4).
  rewrite H1, H2, H3, H4. simpl.
  rewrite !(count_level_perm _ _ _ (sort_perm by_recency (sparePartsData st))).
  pose proof (count_level_total (sparePartsData st)).
  split_and!; try lia; unfold count_level; lia.
Qed.

Lemma breakdown_sum_insert f (m : gmap string Breakdown) k b :
  breakdown_sum f (<[k:=b]> m)
  = f b + breakdown_sum f m - from_option f 0 (m !! k).
Proof.
  unfold breakdown_sum. destruct (m !! k) as [b0|] eqn:Hk; simpl.
  - rewrite <- insert_delete_eq.
    rewrite map_fold_insert_L; [|intros; lia|by rewrite lookup_delete_eq].
    rewrite (map_fold_delete_L _ _ k b0 m); [lia|intros; lia|done].
  - rewrite map_fold_insert_L; [lia|intros; lia|done].
Qed.

Lemma add_equipment_sums m item :
  breakdown_sum b_totalParts (add_equipment m item)
    = breakdown_sum b_totalParts m + 1
  ∧ breakdown_sum b_criticalParts (add_equipment m item)
    = breakdown_sum b_criticalParts m + (if critical item then 1 else 0).
Proof.
  unfold add_equipment. rewrite !breakdown_sum_insert. fold (critical item).
  destruct (m !! ToString (equipmentCategory item)); simpl;
    destruct (critical item); lia.
Qed.

Lemma add_equipment_ok l m item :
  breakdown_ok l m → item ∈ l → breakdown_ok l (add_equipment m item).
Proof.
  intros Hm Hitem k b. unfold add_equipment.
  destruct (decide (ToString (equipmentCategory item) = k)) as [<-|Hne].
  - rewrite lookup_insert_eq. intros [= <-]. simpl.
    destruct (m !! ToString (equipmentCategory item)) as [b0|] eqn:Hk; simpl.
    + destruct (Hm _ _ Hk) as (? & ? & _).
      split_and!; [lia|destruct (_ || _); lia|destruct (_ || _); lia|by eexists].
    + split_and!; [lia|destruct (_ || _); lia|destruct (_ || _); lia|by eexists].
  - rewrite lookup_insert_ne by done. apply Hm.
Qed.

Lemma foldl_add_equipment (l0 l : list SparePart) : ∀ m,
  breakdown_ok l0 m → l ⊆ l0 →
  let m' := foldl add_equipment m l in
  breakdown_ok l0 m'
  ∧ breakdown_sum b_totalParts m'
    = breakdown_sum b_totalParts m + Z.of_nat (length l)
  ∧ breakdown_sum b_criticalParts m'
    = breakdown_sum b_criticalParts m
      + count_level OUT_OF_STOCK l + count_level LOW_STOCK l
  ∧ ∀ item, item ∈ l → is_Some (m' !! ToString (equipmentCategory item)).
Proof.
  induction l as [|item l IH]; intros m Hm Hsub; simpl.
  - unfold count_level. simpl. split_and!; [done|lia|lia|]. by intros ? ?%elem_of_nil.
  - assert (item ∈ l0) as Hin by (apply Hsub; by left).
    assert (l ⊆ l0) as Hsub' by (intros x Hx; apply Hsub; by right).
    destruct (IH (add_equipment m item) (add_equipment_ok _ _ _ Hm Hin) Hsub')
      as (Hok & Ht & Hc & Hkeys).
    destruct (add_equipment_sums m item) as [Ht1 Hc1].
    split_and!; [done| | |].
    + rewrite Ht, Ht1. lia.
    + rewrite Hc, Hc1, !count_level_cons. unfold critical, is_level.
      repeat case_bool_decide; repeat case_decide; simpl; try lia; congruence.
    + intros x [->|Hx]%elem_of_cons; [|by apply Hkeys].
      assert (∀ l1 m1, is_Some (m1 !! ToString (equipmentCategory item)) →
                is_Some (foldl add_equipment m1 l1 !! ToString (equipmentCategory item)))
        as Hkeep.
      { clear. induction l1 as [|y l1 IH1]; intros m1 H1; simpl; [done|].
        apply IH1. unfold add_equipment.
        destruct (decide (ToString (equipmentCategory y)
                          = ToString (equipmentCategory item))) as [->|Hne].
        - rewrite lookup_insert_eq. by eexists.
        - by rewrite lookup_insert_ne. }
      apply Hkeep. unfold add_equipment. rewrite lookup_insert_eq. by eexists.
Qed.

(** X2: in [equipmentBreakdown] the [totalParts] of the categories add up to
    the [totalParts] of the statistics and their [criticalParts] to
    [outOfStock + lowStock]; every category listed holds at least one
    record and at most as many critical parts as parts; and the categories
    listed are exactly those of the records.  This is for data in which no
    category is spelt like a property that every object inherits
    ("constructor", "toString", ...): the handler would find such a key
    already present and never create the entry. *)
Theorem stats_equipment_breakdown (st : Server) :
  Forall (λ item, ToString (equipmentCategory item) ∉ prototype_names)
    (sparePartsData st) →
  let s := (dashboard_stats st).1 in
  let m := equipmentBreakdown s in
  breakdown_sum b_totalParts m = s_totalParts s
  ∧ breakdown_sum b_criticalParts m = s_outOfStock s + s_lowStock s
  ∧ (∀ k b, m !! k = Some b →
       1 ≤ b_totalParts b ∧ 0 ≤ b_criticalParts b ≤ b_totalParts b)
  ∧ (∀ k, is_Some (m !! k)
       ↔ ∃ item, item ∈ sparePartsData st ∧ ToString (equipmentCategory item) = k).
Proof.
  intros _. simpl.
  set (data := sparePartsData st). set (sorted := sort by_recency data).
  assert (sorted ≡ₚ data) as Hperm by apply sort_perm.
  assert (breakdown_ok data ∅) as H0 by (intros k b Hk; by rewrite lookup_empty in Hk).
  assert (sorted ⊆ data) as Hsub by (intros x Hx; by rewrite <- Hperm).
  destruct (foldl_add_equipment data sorted ∅ H0 Hsub) as (Hok & Ht & Hc & Hkeys).
  assert (breakdown_sum b_totalParts (∅ : gmap string Breakdown) = 0) as E1
    by (unfold breakdown_sum; by rewrite map_fold_empty).
  assert (breakdown_sum b_criticalParts (∅ : gmap string Breakdown) = 0) as E2
    by (unfold breakdown_sum; by rewrite map_fold_empty).
  split_and!.
  - rewrite Ht, E1, Hperm. lia.
  - rewrite Hc, E2, !(count_level_perm _ _ _ Hperm). lia.
  - intros k b Hk. destruct (Hok k b Hk) as (? & ? & _). done.
  - intros k. split.
    + intros [b Hk]. destruct (Hok k b Hk) as (_ & _ & Hex). done.
    + intros (item & Hin & <-). apply Hkeys. by rewrite Hperm.
Qed.

Lemma stats_equipment_breakdown_witness :
  let s := (dashboard_stats two_parts).1 in
  breakdown_sum b_totalParts (equipmentBreakdown s) = 2
  ∧ is_Some (equipmentBreakdown s !! "UNKNOWN").
Proof.
  assert (Forall (λ item, ToString (equipmentCategory item) ∉ prototype_names)
            (sparePartsData two_parts)) as H.
  { repeat constructor; apply (bool_decide_unpack _); by vm_compute. }
  destruct (stats_equipment_breakdown two_parts H) as (Ht & _ & _ & Hk).
  split; [exact Ht|].
  apply Hk. exists (sample "apple" "A1" "2024-01-01"). split; [|reflexivity].
  apply elem_of_cons. by left.
Defined.

Lemma slice_prefix {A} (l : list A) (n : Z) : 0 ≤ n → slice l 0 n = take (Z.to_nat n) l.
Proof.
  intros Hn. unfold slice.
  change (0 <? 0) with false. cbv iota.
  destruct (Z.ltb_spec n 0); [lia|].
  rewrite (Z.min_l 0) by lia. change (Z.to_nat 0) with 0%nat.
  rewrite drop_0, Z.sub_0_r.
  destruct (Z.le_gt_cases n (Z.of_nat (length l))).
  - by rewrite Z.min_l.
  - rewrite Z.min_r, Nat2Z.id by lia. rewrite !take_ge; [done|lia..].
Qed.

Lemma StronglySorted_weaken {A} (R R' : relation A) (l : list A) :
  (∀ a b, R a b → R' a b) → StronglySorted R l → StronglySorted R' l.
Proof.
  intros HR. induction 1 as [|x l Hs IH Hall]; constructor; [done|].
  eapply Forall_impl; [exact Hall|]. intros y. apply HR.
Qed.

Lemma sort_by_recency_sorted (l : list SparePart) :
  Forall dated l → StronglySorted not_older (sort by_recency l).
Proof.
  intros Hd. apply sort_sorted.
  - intros a b c (Ha & Hb & Hab) (_ & Hc & Hbc). split_and!; [done|done|lia].
  - intros a b Ha Hb.
    eapply Forall_forall in Ha as Hda; [|exact Hd].
    eapply Forall_forall in Hb as Hdb; [|exact Hd].
    unfold not_older, time_of, by_recency.
    destruct Hda as [ta Hta], Hdb as [tb Htb].
    assert (dated a) by (by eexists). assert (dated b) by (by eexists).
    rewrite Hta, Htb. simpl.
    destruct (Z.gtb_spec (tb - ta) 0); split_and!; try done; lia.
Qed.

(** X3: [recentActivity] is the first ten records of the array as the
    handler leaves it: at most ten of them, all of them records of the data.
    When the [lastUpdated] of every record is a number in the range of time
    values or an ISO string that fixes the instant (a date "YYYY", "YYYY-MM"
    or "YYYY-MM-DD", or a date-time with "Z" or an offset), the array is
    left newest first, so [recentActivity] is newest first and no record
    outside it is more recent than one inside. *)
Theorem stats_recent_activity (st : Server) :
  let s := (dashboard_stats st).1 in
  let after := sparePartsData (dashboard_stats st).2 in
  recentActivity s = take 10 after
  ∧ length (recentActivity s) = (10 `min` length (sparePartsData st))%nat
  ∧ (∀ item, item ∈ recentActivity s → item ∈ sparePartsData st)
  ∧ (Forall dated (sparePartsData st) →
     StronglySorted not_older after
     ∧ StronglySorted not_older (recentActivity s)
     ∧ ∀ a b, a ∈ recentActivity s → b ∈ drop 10 after → time_of b ≤ time_of a).
Proof.
  simpl. set (data := sparePartsData st). set (sorted := sort by_recency data).
  assert (sorted ≡ₚ data) as Hperm by apply sort_perm.
  rewrite (slice_prefix sorted 10) by lia. change (Z.to_nat 10) with 10%nat.
  split_and!; [done| | |].
  - rewrite length_take. by rewrite (Permutation_length Hperm).
  - intros item Hin. rewrite <- Hperm. by eapply subseteq_take.
  - intros Hd. pose proof (sort_by_recency_sorted data Hd) as Hs. fold sorted in Hs.
    split_and!; [done| |].
    + rewrite <- (take_drop 10 sorted) in Hs.
      by apply StronglySorted_app_1_l in Hs.
    + intros a b Ha Hb. rewrite <- (take_drop 10 sorted) in Hs.
      by destruct (StronglySorted_app_1_elem_of _ _ _ _ _ Hs Ha Hb) as (_ & _ & ?).
Qed.

Lemma stats_recent_activity_witness :
  StronglySorted not_older (recentActivity (dashboard_stats two_parts).1).
Proof.
  assert (Forall dated (sparePartsData two_parts)) as H
    by (repeat constructor; by eexists).
  destruct (stats_recent_activity two_parts) as (_ & _ & _ & Hs).
  exact (proj1 (proj2 (Hs H))).
Defined.

(** X4: once the handler has run on data in which the [lastUpdated] of
    every record is a number in the range of time values or an ISO string
    that fixes the instant (a date "YYYY", "YYYY-MM" or "YYYY-MM-DD", or a
    date-time with "Z" or an offset), a second run leaves the array as the
    first run left it: the order settles after one call. *)
Theorem stats_settles (st : Server) :
  Forall dated (sparePartsData st) →
  (dashboard_stats (dashboard_stats st).2).2 = (dashboard_stats st).2.
Proof.
  intros Hd. simpl. f_equal. apply sort_fixed.
  eapply StronglySorted_weaken; [|by apply sort_by_recency_sorted].
  intros a b ([ta Hta] & [tb Htb] & Hle).
  unfold time_of in Hle. unfold by_recency. rewrite Hta, Htb in *. simpl in Hle. lia.
Qed.

Lemma stats_settles_witness :
  (dashboard_stats (dashboard_stats two_parts).2).2 = (dashboard_stats two_parts).2.
Proof.
  apply stats_settles. repeat constructor; by eexists.
Defined.

(** ** More on the query engine *)

Lemma when_filter (p : option string) (P : string → SparePart → Prop)
    `{!∀ s x, Decision (P s x)} (test : string → SparePart → bool)
    (l : list SparePart) :
  (∀ s x, P s x ↔ test s x = true) →
  when p (λ s l, Some (filter (P s) l)) l
  = Some (filter (λ item, criterion p test item = true) l).
Proof.
  intros HP. unfold when, criterion. destruct (supplied p) as [s|].
  - f_equal. apply list_filter_iff. intros x. apply HP.
  - f_equal. induction l as [|x l IH]; [done|].
    rewrite filter_cons_True by done. by rewrite <- IH.
Qed.

(** The handler's [filteredData] in two steps: the exact-match filters,
    which cannot fail, then the search and the sort. *)
Lemma filteredData_split (data : list SparePart) (q : Query) :
  filteredData data q
  = when (q_search q) (λ s l, filterM (search_match (toLowerCase s)) l)
      (filter (λ item, matches q item = true) data)
    ≫= when (q_sortBy q) (λ s l, Some (sort (compare_field s (sort_order q)) l)).
Proof.
  unfold filteredData.
  rewrite (when_filter (q_equipment q) _
             (λ s item, strict_eq_str (equipmentCategory item) s)) by done.
  simpl.
  rewrite (when_filter (q_stockLevel q) _
             (λ s item, bool_decide (level_name (stockLevel item) = s)))
    by (intros; by rewrite bool_decide_eq_true).
  simpl.
  rewrite (when_filter (q_status q) _ (λ s item, strict_eq_str (status item) s))
    by done.
  simpl. rewrite !list_filter_filter.
  erewrite (list_filter_iff _ (λ item, matches q item = true)); [done|].
  intros x. unfold matches. rewrite !andb_true_iff. tauto.
Qed.

Lemma when_absent {A} (p : option string) f (l : list A) :
  supplied p = None → when p f l = Some l.
Proof. intros H. unfold when. by rewrite H. Qed.

Lemma when_supplied {A} (p : option string) f (l : list A) s :
  supplied p = Some s → when p f l = f s l.
Proof. intros H. unfold when. by rewrite H. Qed.

Lemma when_sort_perm (p : option string) (ord : Z) (l l' : list SparePart) :
  when p (λ s l, Some (sort (compare_field s ord) l)) l = Some l' → l' ≡ₚ l.
Proof.
  unfold when. destruct (supplied p); intros [= <-]; [apply sort_perm|done].
Qed.

Lemma when_sort_some (p : option string) (ord : Z) (l : list SparePart) :
  ∃ l', when p (λ s l, Some (sort (compare_field s ord) l)) l = Some l'.
Proof. unfold when. destruct (supplied p); by eexists. Qed.

(** X5: a query without a search term never answers 500.  Its records are
    exactly the records of the data that pass every supplied exact-match
    criterion (equipment, stockLevel, status), each as often as it occurs in
    the data; without [sortBy] they come in the order of the data. *)
Theorem query_without_search (st : Server) (q : Query) :
  supplied (q_search q) = None →
  ∃ l, filteredData (sparePartsData st) q = Some l
    ∧ get_spare_parts st q = Ok (paginate st q l)
    ∧ l ≡ₚ filter (λ item, matches q item = true) (sparePartsData st)
    ∧ (supplied (q_sortBy q) = None →
       l = filter (λ item, matches q item = true) (sparePartsData st)).
Proof.
  intros Hs.
  destruct (when_sort_some (q_sortBy q) (sort_order q)
              (filter (λ item, matches q item = true) (sparePartsData st)))
    as [l Hl].
  assert (filteredData (sparePartsData st) q = Some l) as Hfd.
  { rewrite filteredData_split. by rewrite (when_absent (q_search q)). }
  exists l. unfold get_spare_parts. rewrite Hfd.
  split_and!; [done|done|by eapply when_sort_perm|].
  intros Hn. unfold when in Hl. rewrite Hn in Hl. by injection Hl.
Qed.

Lemma query_without_search_witness :
  ∃ l, filteredData (sparePartsData two_parts) (sort_by "partName") = Some l
    ∧ l ≡ₚ sparePartsData two_parts.
Proof.
  destruct (query_without_search two_parts (sort_by "partName") eq_refl)
    as (l & Hl & _ & Hp & _).
  exists l. split; [exact Hl|]. exact Hp.
Defined.

Lemma filterM_some {A} (p : A → option bool) (f : A → bool) (l : list A) :
  Forall (λ x, p x = Some (f x)) l →
  filterM p l = Some (filter (λ x, f x = true) l).
Proof.
  induction 1 as [|x l Hx Hl IH]; [done|].
  simpl. rewrite Hx, IH. simpl. rewrite filter_cons.
  destruct (f x); by case_decide.
Qed.

Lemma filterM_none {A} (p : A → option bool) (l : list A) x :
  x ∈ l → p x = None → filterM p l = None.
Proof.
  intros Hin Hx. induction l as [|y l IH]; [by apply elem_of_nil in Hin|].
  apply elem_of_cons in Hin as [<-|Hin]; simpl.
  - by rewrite Hx.
  - rewrite IH by done. by destruct (p y).
Qed.

Lemma search_match_strings (searchTerm : string) (item : SparePart) :
  is_str (partName item) = true → is_str (partCode item) = true →
  search_match searchTerm item = Some (search_hit searchTerm item).
Proof.
  unfold search_match, search_hit.
  destruct (partName item); try done. destruct (partCode item); try done.
  intros _ _. simpl. by destruct (includes _ _).
Qed.

(** X6: a query with a search term.  When every record has a string for
    name and for code, the handler answers and its records are those that
    pass the exact-match criteria and whose lower-cased name or code
    contains the lower-cased term.  When a record that passes the
    exact-match criteria has a name that is not a string (a numeric cell,
    say), the handler answers 500 whatever the term. *)
Theorem query_with_search (st : Server) (q : Query) (term : string) :
  supplied (q_search q) = Some term →
  (Forall (λ item, is_str (partName item) = true ∧ is_str (partCode item) = true)
     (sparePartsData st) →
   ∃ l, get_spare_parts st q = Ok (paginate st q l)
     ∧ l ≡ₚ filter (λ item, matches q item && search_hit (toLowerCase term) item = true)
              (sparePartsData st))
  ∧ (∀ item, item ∈ sparePartsData st → matches q item = true →
       is_str (partName item) = false →
       get_spare_parts st q = InternalServerError).
Proof.
  intros Hs. unfold get_spare_parts. rewrite filteredData_split.
  rewrite (when_supplied (q_search q) _ _ term Hs). split.
  - intros Hstr.
    rewrite (filterM_some _ (search_hit (toLowerCase term))).
    + simpl. rewrite list_filter_filter.
      set (l4 := filter _ (sparePartsData st)).
      destruct (when_sort_some (q_sortBy q) (sort_order q) l4) as [l Hl].
      exists l. rewrite Hl. split; [done|].
      rewrite (when_sort_perm _ _ _ _ Hl). unfold l4.
      erewrite list_filter_iff; [done|].
      intros x. rewrite andb_true_iff. tauto.
    + apply Forall_forall. intros x Hx.
      apply list_elem_of_filter in Hx as [_ Hx].
      eapply Forall_forall in Hstr as [? ?]; [|exact Hx].
      by apply search_match_strings.
  - intros item Hin Hm Hname.
    rewrite (filterM_none _ _ item); [done| |].
    + by apply list_elem_of_filter.
    + unfold search_match. by destruct (partName item).
Qed.

Lemma query_with_search_witness :
  (∃ l, get_spare_parts two_parts (search_for "ZEB")
        = Ok (paginate two_parts (search_for "ZEB") l)
        ∧ part_names l = [JStr "Zebra"])
  ∧ get_spare_parts
      {| sparePartsData := [normalize "2024-05-01" "k3j9x0q2a" numeric_name_row];
         lastSyncTime := "" |} (search_for "bolt")
    = InternalServerError.
Proof.
  split.
  - destruct (query_with_search two_parts (search_for "ZEB") "ZEB" eq_refl)
      as [Hok _].
    destruct Hok as (l & Hl & Hp); [repeat constructor|].
    exists l. split; [exact Hl|].
    apply Permutation_singleton_r in Hp. by rewrite Hp.
  - eapply (proj2 (query_with_search _ (search_for "bolt") "bolt" eq_refl)
              (normalize "2024-05-01" "k3j9x0q2a" numeric_name_row));
      [by apply elem_of_cons; left|done|done].
Defined.

(** X7: the total and the outcome of a query depend on its four filtering
    parameters only: two queries that differ in [sortBy], [sortOrder],
    [page] or [limit] both answer 500 or both answer with the same total,
    and then hold the same filtered records. *)
Theorem total_ignores_sort_and_page (st : Server) (q q' : Query) :
  q_equipment q = q_equipment q' → q_stockLevel q = q_stockLevel q' →
  q_status q = q_status q' → q_search q = q_search q' →
  match get_spare_parts st q, get_spare_parts st q' with
  | Ok body, Ok body' => total body = total body'
  | InternalServerError, InternalServerError => True
  | _, _ => False
  end
  ∧ match filteredData (sparePartsData st) q, filteredData (sparePartsData st) q' with
    | Some l, Some l' => l ≡ₚ l'
    | None, None => True
    | _, _ => False
    end.
Proof.
  intros He Hl Hs Hq. unfold get_spare_parts. rewrite !filteredData_split.
  assert (∀ item, matches q item = matches q' item) as Hm
    by (intros item; unfold matches; by rewrite He, Hl, Hs).
  rewrite (list_filter_iff _ (λ item, matches q' item = true))
    by (intros x; by rewrite Hm).
  rewrite Hq.
  destruct (when (q_search q') _ _) as [l4|]; simpl; [|done].
  destruct (when_sort_some (q_sortBy q) (sort_order q) l4) as [l H1].
  destruct (when_sort_some (q_sortBy q') (sort_order q') l4) as [l' H2].
  rewrite H1, H2. apply when_sort_perm in H1. apply when_sort_perm in H2.
  assert (l ≡ₚ l') as Hp by (by rewrite H1, H2).
  split; [|done]. simpl. by rewrite Hp.
Qed.

Lemma total_ignores_sort_and_page_witness :
  match get_spare_parts two_parts (sort_by "partName"),
        get_spare_parts two_parts (page_query "7" "1") with
  | Ok body, Ok body' => total body = total body'
  | InternalServerError, InternalServerError => True
  | _, _ => False
  end.
Proof.
  exact (proj1 (total_ignores_sort_and_page two_parts (sort_by "partName")
                  (page_query "7" "1") eq_refl eq_refl eq_refl eq_refl)).
Defined.

(** ** More on pagination *)

Lemma slice_nonneg {A} (l : list A) (start final : Z) :
  0 ≤ start ≤ final →
  slice l start final = take (Z.to_nat (final - start)) (drop (Z.to_nat start) l).
Proof.
  intros [H0 H1]. unfold slice.
  destruct (Z.ltb_spec start 0); [lia|]. destruct (Z.ltb_spec final 0); [lia|].
  set (len := Z.of_nat (length l)).
  destruct (Z.le_gt_cases len start).
  - rewrite (Z.min_r start), (Z.min_r final) by lia.
    rewrite !drop_ge by (unfold len in *; lia). by rewrite !take_nil.
  - rewrite (Z.min_l start) by lia.
    destruct (Z.le_gt_cases final len); [by rewrite Z.min_l|].
    rewrite (Z.min_r final) by lia.
    rewrite !take_ge; [done|rewrite length_drop; unfold len in *; lia..].
Qed.

Lemma concat_pages {A} (l : list A) (lim : nat) : ∀ n,
  concat ((λ i, take lim (drop (i * lim) l)) <$> seq 0 n) = take (n * lim) l.
Proof.
  induction n as [|n IH]; [done|].
  rewrite seq_S, fmap_app, concat_app, IH. simpl.
  rewrite app_nil_r, take_take_drop. f_equal. lia.
Qed.

Lemma ceil_div_least a b : 0 < b → (ceil_div a b - 1) * b < a.
Proof.
  intros Hb. unfold ceil_div.
  pose proof (Z.mul_succ_div_gt (- a) b Hb). nia.
Qed.

(** X8: with a positive limit and a page from 1 on, both at most [2^53]
    (the integers that [parseInt] reads exactly), the page is the [limit]
    records that follow the first [(page - 1) * limit] ones, so it never
    holds more than [limit] records; a page up to [totalPages] is not empty;
    and the pages 1 to [totalPages], one after the other, are exactly the
    filtered records. *)
Theorem pages_cover (st : Server) (q : Query) (filtered : list SparePart) :
  0 < limit_of q ≤ 2 ^ 53 → 1 ≤ page_of q ≤ 2 ^ 53 →
  let body := paginate st q filtered in
  let lim := Z.to_nat (limit_of q) in
  data body = take lim (drop ((Z.to_nat (page_of q) - 1) * lim) filtered)
  ∧ (length (data body) ≤ lim)%nat
  ∧ (page_of q ≤ totalPages body → data body ≠ [])
  ∧ concat ((λ i, take lim (drop (i * lim) filtered))
              <$> seq 0 (Z.to_nat (totalPages body))) = filtered.
Proof.
  intros [Hl _] [Hp _]. simpl.
  change (int_or 1 _) with (page_of q). change (int_or 50 _) with (limit_of q).
  set (lim := limit_of q) in *. set (p := page_of q) in *.
  set (len := Z.of_nat (length filtered)).
  assert (slice filtered ((p - 1) * lim) (p * lim)
          = take (Z.to_nat lim) (drop ((Z.to_nat p - 1) * Z.to_nat lim) filtered))
    as ->.
  { rewrite slice_nonneg by nia. f_equal; [f_equal; lia|f_equal; nia]. }
  split_and!; [done| | |].
  - rewrite length_take. lia.
  - intros Hle Hnil. apply (f_equal length) in Hnil.
    rewrite length_take, length_drop in Hnil. simpl in Hnil.
    pose proof (ceil_div_least len lim Hl). unfold len in *. nia.
  - rewrite concat_pages. apply take_ge.
    pose proof (ceil_div_ge len lim Hl). fold len. unfold len in *.
    assert (0 ≤ ceil_div (Z.of_nat (length filtered)) lim) by nia. nia.
Qed.

Lemma pages_cover_witness :
  let body := paginate many_parts (page_query "2" "50") (sparePartsData many_parts) in
  length (data body) = 50%nat ∧ totalPages body = 3.
Proof.
  destruct (pages_cover many_parts (page_query "2" "50")
              (sparePartsData many_parts)) as (Hd & _); [by vm_compute..|].
  split; [|reflexivity]. cbv zeta in *. rewrite Hd. reflexivity.
Defined.

(** ** Sorting on an integer field *)

Lemma num_ltb_scale a e b f g :
  g ≤ e → g ≤ f →
  num_ltb (Dec a e) (Dec b f) = (a * 10 ^ (e - g) <? b * 10 ^ (f - g)).
Proof.
  intros He Hf. simpl.
  set (h := Z.min e f).
  assert (0 < 10 ^ (h - g)) as Hpos by (apply Z.pow_pos_nonneg; lia).
  replace (e - g) with ((e - h) + (h - g)) by lia.
  replace (f - g) with ((f - h) + (h - g)) by lia.
  rewrite !Z.pow_add_r by lia.
  apply eq_true_iff_eq. rewrite !Z.ltb_lt. nia.
Qed.

(** [<] on two integers held as numbers is [<] on the integers. *)
Lemma num_ltb_of_Z a b : num_ltb (num_of_Z a) (num_of_Z b) = (a <? b).
Proof.
  unfold num_of_Z.
  destruct (dec_spec a 0) as (a' & e' & -> & Ha).
  destruct (dec_spec b 0) as (b' & f' & -> & Hb).
  assert (0 ≤ e' ∧ a' * 10 ^ e' = a) as [? <-].
  { destruct Ha as [(-> & -> & ->)|(_ & _ & _ & ? & ->)]; [done|].
    by rewrite Z.sub_0_r. }
  assert (0 ≤ f' ∧ b' * 10 ^ f' = b) as [? <-].
  { destruct Hb as [(-> & -> & ->)|(_ & _ & _ & ? & ->)]; [done|].
    by rewrite Z.sub_0_r. }
  rewrite (num_ltb_scale _ _ _ _ 0) by lia. by rewrite !Z.sub_0_r.
Qed.

Lemma int_field_read sortField key (a : SparePart) :
  int_field sortField = Some key → field a sortField = JNum (num_of_Z (key a)).
Proof.
  unfold int_field. intros H.
  repeat case_decide; simplify_eq; reflexivity.
Qed.

(** X9: sorted on [currentStock], [minRequired], [maxThreshold] or
    [inProcess], the records come by non-decreasing value of that field,
    and with [sortOrder=desc] by non-increasing value. *)
Theorem sort_by_integer_field (data : list SparePart) (q : Query)
    (sortField : string) (key : SparePart → Z) (l : list SparePart) :
  supplied (q_sortBy q) = Some sortField →
  int_field sortField = Some key →
  filteredData data q = Some l →
  StronglySorted
    (λ a b, if bool_decide (q_sortOrder q = Some "desc")
            then key b ≤ key a else key a ≤ key b) l.
Proof.
  intros Hs Hk. rewrite filteredData_split.
  destruct (when (q_search q) _ _) as [l4|]; simpl; [|done].
  rewrite (when_supplied (q_sortBy q) _ _ sortField Hs). intros [= <-].
  apply sort_sorted.
  - intros a b c. case_bool_decide; lia.
  - intros a b _ _. unfold compare_field, js_lt, sort_order.
    rewrite !(int_field_read sortField key) by done. simpl ToNumber.
    rewrite !num_ltb_of_Z.
    destruct (Z.ltb_spec (key a) (key b)), (Z.ltb_spec (key b) (key a));
      case_bool_decide; simpl; lia.
Qed.

Lemma sort_by_integer_field_witness :
  ∃ l, filteredData
         ((normalize "2024-05-01" "k3j9x0q2a" ∘ stock_row) <$> ["9"; "10"; "2"])
         (sort_by "currentStock") = Some l
    ∧ currentStock <$> l = [2; 9; 10]
    ∧ StronglySorted (λ a b, currentStock a ≤ currentStock b) l.
Proof.
  eexists. split; [reflexivity|]. split; [reflexivity|].
  exact (sort_by_integer_field _ (sort_by "currentStock") "currentStock"
           currentStock _ eq_refl eq_refl eq_refl).
Defined.

(** ** [app.get('/api/spare-parts/:id')] *)

Lemma array_find_some {A} (p : A → bool) (l : list A) x :
  array_find p l = Some x →
  p x = true ∧ ∃ i : nat, l !! i = Some x
                 ∧ ∀ (j : nat) y, (j < i)%nat → l !! j = Some y → p y = false.
Proof.
  induction l as [|y l IH]; [done|]. simpl.
  destruct (p y) eqn:Hy.
  - intros [= <-]. split; [done|]. exists 0%nat. split; [done|]. intros; lia.
  - intros H. destruct (IH H) as (Hx & i & Hi & Hlt). split; [done|].
    exists (S i). split; [done|]. intros [|j] z Hj Hz; simpl in Hz.
    + by simplify_eq.
    + eapply Hlt; [|done]. lia.
Qed.

Lemma array_find_none {A} (p : A → bool) (l : list A) :
  array_find p l = None ↔ ∀ x, x ∈ l → p x = false.
Proof.
  induction l as [|y l IH]; simpl.
  - split; [by intros _ x ?%elem_of_nil|done].
  - destruct (p y) eqn:Hy.
    + split; [done|]. intros H. rewrite H in Hy; [done|by left].
    + rewrite IH. split.
      * intros H x [->|Hx]%elem_of_cons; [done|by apply H].
      * intros H x Hx. apply H. by right.
Qed.

Lemma strict_eq_str_spec v s : strict_eq_str v s = true ↔ v = JStr s.
Proof.
  destruct v; simpl; try (split; [done|by intros [=]]).
  rewrite bool_decide_eq_true. split; [by intros ->|by intros [=]].
Qed.

(** X10: the lookup by id answers the first record, in the order of the
    array, whose id is the requested string, and 404 exactly when no record
    has it.  An id that is not a string is never matched: a row whose part
    code is a numeric cell gets that number as id, and no request finds
    it. *)
Theorem get_spare_part_spec (st : Server) (s : string) :
  (∀ part, get_spare_part st s = PartOk part →
     id part = JStr s
     ∧ ∃ i : nat, sparePartsData st !! i = Some part
         ∧ ∀ (j : nat) other, (j < i)%nat → sparePartsData st !! j = Some other →
             id other ≠ JStr s)
  ∧ (get_spare_part st s = PartNotFound
     ↔ ∀ item, item ∈ sparePartsData st → id item ≠ JStr s)
  ∧ (∀ part, is_str (id part) = false → get_spare_part st s ≠ PartOk part)
  ∧ (∀ today token row x,
       cell row "Part_Code" = JNum x → truthy (JNum x) = true →
       sparePartsData st = [normalize today token row] →
       get_spare_part st s = PartNotFound).
Proof.
  unfold get_spare_part.
  assert (∀ part, array_find (λ item, strict_eq_str (id item) s) (sparePartsData st)
                  = Some part → id part = JStr s) as Hid.
  { intros part H. apply array_find_some in H as [H _]. by apply strict_eq_str_spec. }
  split_and!.
  - intros part H.
    destruct (array_find _ _) as [p|] eqn:Hf; [|done]. injection H as ->.
    split; [by apply Hid|].
    apply array_find_some in Hf as (_ & i & Hi & Hlt).
    exists i. split; [done|]. intros j other Hj Ho Heq.
    apply strict_eq_str_spec in Heq. by rewrite (Hlt j other Hj Ho) in Heq.
  - destruct (array_find _ _) as [p|] eqn:Hf.
    + split; [done|]. intros H. exfalso.
      apply array_find_some in Hf as (Hp & i & Hi & _).
      apply (H p); [by eapply list_elem_of_lookup_2|by apply strict_eq_str_spec].
    + split; [|done]. intros _ item Hin Heq.
      apply strict_eq_str_spec in Heq.
      by rewrite (proj1 (array_find_none _ _) Hf item Hin) in Heq.
  - intros part Hstr H.
    destruct (array_find _ _) as [p|] eqn:Hf; [|done]. injection H as ->.
    rewrite (Hid part eq_refl) in Hstr. done.
  - intros today token row x Hc Ht ->. simpl.
    unfold or_else. rewrite Hc, Ht. done.
Qed.

(** ** [app.get('/api/equipment-categories')] *)

Lemma same_value_zero_refl a : same_value_zero a a = true.
Proof. unfold same_value_zero. destruct a; by apply bool_decide_eq_true_2. Qed.

Lemma truthy_canon x : truthy (JNum (canon x)) = truthy (JNum x).
Proof.
  destruct x as [| |m e]; try done. simpl.
  destruct (dec_spec m e) as (m' & e' & -> & [(-> & -> & _)|(Hm & Hm' & _)]);
    [done|]. simpl.
  apply Z.eqb_neq in Hm, Hm'. by rewrite Hm, Hm'.
Qed.

(** Two values that [Set] holds for the same are both truthy or both falsy,
    and equal the same strings. *)
Lemma same_value_zero_alike a b s :
  same_value_zero a b = true →
  truthy a = truthy b ∧ strict_eq_str a s = strict_eq_str b s.
Proof.
  unfold same_value_zero.
  destruct a as [|c|x|t], b as [|c'|x'|t'];
    intros H%bool_decide_eq_true; simplify_eq; try done.
  split; [|done]. by rewrite <- (truthy_canon x), <- (truthy_canon x'), H.
Qed.

Lemma set_values_spec (l : list JsVal) : ∀ seen,
  (∀ x, x ∈ set_values seen l → x ∈ l ∧ existsb (same_value_zero x) seen = false)
  ∧ (∀ x, x ∈ l → existsb (same_value_zero x) seen = true
                  ∨ ∃ y, y ∈ set_values seen l ∧ same_value_zero x y = true)
  ∧ NoDup (set_values seen l).
Proof.
  induction l as [|a l IH]; intros seen; simpl.
  - split_and!; [by intros x ?%elem_of_nil|by intros x ?%elem_of_nil|constructor].
  - destruct (existsb (same_value_zero a) seen) eqn:Ha.
    + destruct (IH seen) as (H1 & H2 & H3). split_and!; [| |done].
      * intros x Hx. destruct (H1 x Hx). split; [by right|done].
      * intros x [->|Hx]%elem_of_cons; [by left|by apply H2].
    + destruct (IH (a :: seen)) as (H1 & H2 & H3). split_and!.
      * intros x [->|Hx]%elem_of_cons; [by split; [left|]|].
        destruct (H1 x Hx) as [? Hex]. split; [by right|].
        simpl in Hex. by apply orb_false_iff in Hex as [_ ?].
      * intros x [->|Hx]%elem_of_cons.
        { right. exists a. split; [by left|apply same_value_zero_refl]. }
        destruct (H2 x Hx) as [Hex|(y & Hy & Hxy)].
        -- simpl in Hex. apply orb_true_iff in Hex as [Hxa|Hex]; [|by left].
           right. exists a. split; [by left|done].
        -- right. exists y. split; [by right|done].
      * constructor; [|done]. intros Hin.
        destruct (H1 a Hin) as [_ Hex]. simpl in Hex.
        by rewrite same_value_zero_refl in Hex.
Qed.

Lemma default_compare_order (a b : JsVal) :
  if default_compare a b >? 0
  then String.le (ToString b) (ToString a)
  else String.le (ToString a) (ToString b).
Proof.
  unfold default_compare, String.le, String.ltb, String.leb.
  rewrite (String.compare_antisym (ToString a) (ToString b)).
  by destruct (String.compare (ToString b) (ToString a)).
Qed.

(** X11: the list of categories holds each category of the data once,
    leaves out "UNKNOWN" and any falsy value, holds nothing that is not the
    category of a record, and is sorted by the code units of the strings of
    its values (so every upper-case name comes before every lower-case
    one). *)
Theorem get_equipment_categories_spec (st : Server) :
  let cs := get_equipment_categories st in
  NoDup cs
  ∧ (∀ c, c ∈ cs →
       truthy c = true ∧ c ≠ JStr "UNKNOWN"
       ∧ ∃ item, item ∈ sparePartsData st ∧ equipmentCategory item = c)
  ∧ (∀ item, item ∈ sparePartsData st →
       truthy (equipmentCategory item) = true →
       equipmentCategory item ≠ JStr "UNKNOWN" →
       ∃ c, c ∈ cs ∧ same_value_zero (equipmentCategory item) c = true)
  ∧ StronglySorted (λ a b, String.le (ToString a) (ToString b)) cs.
Proof.
  simpl. unfold get_equipment_categories.
  set (all := equipmentCategory <$> sparePartsData st).
  set (kept := filter _ (set_values [] all)).
  destruct (set_values_spec all []) as (H1 & H2 & H3).
  assert (sort default_compare kept ≡ₚ kept) as Hperm by apply sort_perm.
  split_and!.
  - rewrite Hperm. by apply NoDup_filter.
  - intros c Hc. rewrite Hperm in Hc.
    apply list_elem_of_filter in Hc as [Hc Hin].
    apply andb_true_iff in Hc as [Ht Hu]. apply negb_true_iff in Hu.
    split_and!; [done| |].
    + intros ->. done.
    + destruct (H1 c Hin) as [Hall _]. by apply list_elem_of_fmap in Hall as (item & -> & ?); eauto.
  - intros item Hin Ht Hu.
    destruct (H2 (equipmentCategory item)) as [Hex|(y & Hy & Hxy)];
      [by apply list_elem_of_fmap; eauto|done|].
    exists y. split; [|done]. rewrite Hperm. apply list_elem_of_filter. split; [|done].
    destruct (same_value_zero_alike _ _ "UNKNOWN" Hxy) as [<- <-].
    rewrite Ht. simpl. apply negb_true_iff.
    destruct (strict_eq_str _ _) eqn:Heq; [|done].
    by apply strict_eq_str_spec in Heq.
  - apply sort_sorted; [|intros a b _ _; apply default_compare_order].
    intros a b c Hab Hbc. by etrans.
Qed.

Lemma get_spare_part_spec_witness :
  get_spare_part
    {| sparePartsData := [normalize "2024-05-01" "k3j9x0q2a" numeric_code_row];
       lastSyncTime := "" |} "4711" = PartNotFound
  ∧ ∃ part, get_spare_part two_parts "Z1" = PartOk part ∧ id part = JStr "Z1".
Proof.
  split.
  - destruct (get_spare_part_spec
                {| sparePartsData := [normalize "2024-05-01" "k3j9x0q2a" numeric_code_row];
                   lastSyncTime := "" |} "4711") as (_ & _ & _ & H).
    exact (H "2024-05-01" "k3j9x0q2a" numeric_code_row (Dec 4711 0)
             eq_refl eq_refl eq_refl).
  - destruct (get_spare_part_spec two_parts "Z1") as (H & _).
    eexists. split; [reflexivity|]. exact (proj1 (H _ eq_refl)).
Defined.

Lemma get_equipment_categories_spec_witness :
  get_equipment_categories mixed_categories
    = [JStr "HAIL_TESTER"; JStr "PCT"; JStr "pct"]
  ∧ ∃ c, c ∈ get_equipment_categories mixed_categories
         ∧ same_value_zero (JStr "pct") c = true.
Proof.
  split; [reflexivity|].
  destruct (get_equipment_categories_spec mixed_categories) as (_ & _ & H & _).
  apply (H (normalize "2024-05-01" "k3j9x0q2a" (category_row "pct")));
    [|done|done].
  apply elem_of_cons. by left.
Defined.

(** ** More on the loader *)

Lemma processSparePartsData_elem today rnd rows : ∀ k r,
  r ∈ processSparePartsData today rnd k rows →
  ∃ token item, item ∈ rows ∧ r = normalize today token item.
Proof.
  induction rows as [|item rows IH]; intros k r Hr; simpl in Hr.
  - by apply elem_of_nil in Hr.
  - apply elem_of_cons in Hr as [->|Hr].
    + exists (rnd k), item. split; [by left|done].
    + destruct (IH _ _ Hr) as (token & item' & ? & ?).
      exists token, item'. split; [by right|done].
Qed.

Lemma readExcelData_elem today rnd k src r :
  r ∈ readExcelData today rnd k src → ∃ token item, r = normalize today token item.
Proof.
  assert (∀ rows, r ∈ processSparePartsData today rnd k rows →
            ∃ token item, r = normalize today token item) as Hp.
  { intros rows Hr. apply processSparePartsData_elem in Hr as (t & i & _ & ?).
    by exists t, i. }
  destruct src as [| |wb]; simpl; try (by intros ?%elem_of_nil).
  destruct (Sheets wb !! "Spare_Parts_Inventory"); [apply Hp|].
  destruct (SheetNames wb) as [|n ns]; [by intros ?%elem_of_nil|].
  case_bool_decide; [by intros ?%elem_of_nil|apply Hp].
Qed.

Lemma getStockLevel_out cs mr : getStockLevel cs mr = OUT_OF_STOCK ↔ cs = 0.
Proof.
  unfold getStockLevel. destruct (Z.eqb_spec cs 0); [done|].
  split; [|done]. by repeat case_match.
Qed.

Lemma template_truthy s token : truthy (JStr (s +:+ "-" +:+ token)) = true.
Proof.
  simpl. apply negb_true_iff, bool_decide_eq_false. by destruct s.
Qed.

(** X12: whatever the source, every record that the loader returns has a
    truthy id, category, name, code, supplier, date and status (none is
    [undefined] or empty), a unit cost that is not [NaN], a stock level that
    is the classification of its own [currentStock] and [minRequired], so
    OUT_OF_STOCK exactly when the stock is 0, and a total value that is the
    product of its stock and unit cost.  (The load date is not empty.) *)
Theorem loaded_record_invariants (today : string) (rnd : nat → string)
    (k : nat) (src : Source) (r : SparePart) :
  today ≠ "" →
  r ∈ readExcelData today rnd k src →
  truthy (id r) = true ∧ truthy (equipmentCategory r) = true
  ∧ truthy (partName r) = true ∧ truthy (partCode r) = true
  ∧ truthy (supplier r) = true ∧ truthy (lastUpdated r) = true
  ∧ truthy (status r) = true
  ∧ unitCost r ≠ NaN ∧ canonical (unitCost r)
  ∧ stockLevel r = getStockLevel (currentStock r) (minRequired r)
  ∧ (stockLevel r = OUT_OF_STOCK ↔ currentStock r = 0)
  ∧ totalValue r = num_mul (num_of_Z (currentStock r)) (unitCost r).
Proof.
  intros Htoday Hr. apply readExcelData_elem in Hr as (token & item & ->).
  assert (truthy (JStr today) = true) as Hdate
    by (simpl; by rewrite bool_decide_eq_false_2).
  simpl. split_and!; try (by apply or_else_truthy); try done.
  - apply or_else_truthy, template_truthy.
  - by destruct (parseFloat _) as [| |m e]; simpl; [| |destruct (m =? 0)].
  - apply num_or_zero_canonical, parseFloat_canonical.
  - apply getStockLevel_out.
Qed.

Lemma loaded_record_invariants_witness :
  let r := normalize "2024-05-01" "k3j9x0q2a"
             (<["Equipment_Category" := JStr "PCT"]> ∅) in
  r ∈ readExcelData "2024-05-01" (λ _, "k3j9x0q2a") 0 (Readable first_sheet_only)
  ∧ truthy (id r) = true ∧ stockLevel r = OUT_OF_STOCK.
Proof.
  intros r.
  assert (r ∈ readExcelData "2024-05-01" (λ _, "k3j9x0q2a") 0
                (Readable first_sheet_only)) as Hr.
  { apply elem_of_cons. right. apply elem_of_cons. by left. }
  assert ("2024-05-01" ≠ "") as Hne by done.
  pose proof (loaded_record_invariants "2024-05-01" (λ _, "k3j9x0q2a") 0
                (Readable first_sheet_only) r Hne Hr) as H.
  split; [exact Hr|]. split; [exact (proj1 H)|reflexivity].
Defined.

(** X13: a refresh replaces the data whatever it was: the new state does not
    depend on the old one.  After it the query without parameters answers
    with the number of loaded records as total and the first 50 of them; the
    total is 0 when the file is missing or unreadable, and the number of
    rows of the sheet "Spare_Parts_Inventory" when the workbook has it. *)
Theorem refresh_then_query (today now : string) (rnd : nat → string) (k : nat)
    (src : Source) (st st0 : Server) :
  let st' := refresh_data today now rnd k src st in
  st' = refresh_data today now rnd k src st0
  ∧ ∃ body, get_spare_parts st' no_criteria = Ok body
      ∧ total body = Z.of_nat (length (sparePartsData st'))
      ∧ data body = take 50 (sparePartsData st')
      ∧ lastSync body = now
      ∧ (src = NotFound ∨ src = ReadThrows → total body = 0 ∧ data body = [])
      ∧ (∀ wb rows, src = Readable wb →
           Sheets wb !! "Spare_Parts_Inventory" = Some rows →
           total body = Z.of_nat (length rows)).
Proof.
  simpl. split; [done|]. eexists. split; [reflexivity|]. simpl.
  split_and!; [done|by rewrite (slice_prefix _ 50)|done| |].
  - by intros [-> | ->].
  - intros wb rows -> Hs. simpl. rewrite Hs. simpl.
    by rewrite processSparePartsData_length.
Qed.

Lemma refresh_then_query_witness :
  ∃ body, get_spare_parts
            (refresh_data "2024-05-01" "12:00" (λ _, "k3j9x0q2a") 0
               (Readable named_sheet) many_parts) no_criteria = Ok body
    ∧ total body = 2.
Proof.
  destruct (refresh_then_query "2024-05-01" "12:00" (λ _, "k3j9x0q2a") 0
              (Readable named_sheet) many_parts many_parts)
    as (_ & body & Hb & _ & _ & _ & _ & Hrows).
  exists body. split; [exact Hb|].
  exact (Hrows named_sheet two_rows eq_refl eq_refl).
Defined.

(** ** The display helpers of [dataUtils] *)

(** X14: each of the four stock levels has a label other than "Unknown" and
    a colour other than the grey of the default, different levels have
    different labels and colours, and any value that is not the name of a
    level gets "Unknown" and the grey. *)
Theorem stock_level_display :
  (∀ l, getStockLevelLabel (JStr (level_name l)) ≠ "Unknown"
        ∧ getStockLevelColor (JStr (level_name l)) ≠ "#757575")
  ∧ (∀ l l', getStockLevelLabel (JStr (level_name l))
             = getStockLevelLabel (JStr (level_name l')) → l = l')
  ∧ (∀ l l', getStockLevelColor (JStr (level_name l))
             = getStockLevelColor (JStr (level_name l')) → l = l')
  ∧ (∀ v, (∀ l, v ≠ JStr (level_name l)) →
          getStockLevelLabel v = "Unknown" ∧ getStockLevelColor v = "#757575").
Proof.
  split_and!.
  - by intros [].
  - by intros [] [].
  - by intros [] [].
  - intros v Hv. unfold getStockLevelLabel, getStockLevelColor.
    destruct (strict_eq_str v "OUT_OF_STOCK") eqn:H1;
      [apply strict_eq_str_spec in H1; by destruct (Hv OUT_OF_STOCK)|].
    destruct (strict_eq_str v "LOW_STOCK") eqn:H2;
      [apply strict_eq_str_spec in H2; by destruct (Hv LOW_STOCK)|].
    destruct (strict_eq_str v "MEDIUM_STOCK") eqn:H3;
      [apply strict_eq_str_spec in H3; by destruct (Hv MEDIUM_STOCK)|].
    destruct (strict_eq_str v "HIGH_STOCK") eqn:H4;
      [apply strict_eq_str_spec in H4; by destruct (Hv HIGH_STOCK)|].
    done.
Qed.

Lemma stock_level_display_witness :
  getStockLevelLabel (JStr "out_of_stock") = "Unknown".
Proof.
  refine (proj1 (proj2 (proj2 (proj2 stock_level_display)) (JStr "out_of_stock") _)).
  by intros [].
Defined.

Lemma upper_word_facts c :
  is_word (upper_word c) = is_word c
  ∧ upper_word (upper_word c) = upper_word c
  ∧ (c ≠ "_"%char → upper_word c ≠ "_"%char).
Proof. by destruct c as [[] [] [] [] [] [] [] []]. Qed.

Lemma replace_underscores_none s : no_underscore (replace_underscores s) = true.
Proof.
  induction s as [|c s IH]; [done|]. simpl. rewrite IH, andb_true_r.
  apply negb_true_iff, bool_decide_eq_false. by case_decide.
Qed.

Lemma replace_underscores_id s : no_underscore s = true → replace_underscores s = s.
Proof.
  induction s as [|c s IH]; [done|]. simpl.
  intros [Hc Hs]%andb_true_iff. apply negb_true_iff, bool_decide_eq_false in Hc.
  rewrite IH by done. by case_decide.
Qed.

Lemma capitalize_words_none s : ∀ b,
  no_underscore s = true → no_underscore (capitalize_words b s) = true.
Proof.
  induction s as [|c s IH]; intros b; [done|]. simpl.
  intros [Hc Hs]%andb_true_iff. apply negb_true_iff, bool_decide_eq_false in Hc.
  rewrite IH, andb_true_r by done.
  apply negb_true_iff, bool_decide_eq_false.
  destruct (negb b && is_word c); [by apply upper_word_facts|done].
Qed.

Lemma capitalize_words_idem s : ∀ b,
  capitalize_words b (capitalize_words b s) = capitalize_words b s.
Proof.
  induction s as [|c s IH]; intros b; [done|]. simpl.
  destruct (upper_word_facts c) as (Hw & Hu & _).
  destruct (negb b && is_word c) eqn:Hb.
  - rewrite Hw, Hb, Hu, IH. done.
  - rewrite Hb, IH. done.
Qed.

Lemma capitalize_words_length s : ∀ b,
  String.length (capitalize_words b s) = String.length s.
Proof. induction s as [|c s IH]; intros b; simpl; [done|]. by rewrite IH. Qed.

Lemma replace_underscores_length s :
  String.length (replace_underscores s) = String.length s.
Proof. induction s as [|c s IH]; simpl; [done|]. by rewrite IH. Qed.

Lemma display_default o :
  no_underscore o = true → capitalize_words false o = o →
  getEquipmentDisplayName (JStr o) = Some o.
Proof.
  intros Ho Hc. unfold getEquipmentDisplayName. f_equal.
  destruct (decide (o = "HAIL_TESTER")) as [->|_]; [done|].
  destruct (decide (o = "MLT_TESTER")) as [->|_]; [done|].
  destruct (decide (o = "THERMAL_CYCLING")) as [->|_]; [done|].
  destruct (decide (o = "DAMP_HEAT")) as [->|_]; [done|].
  destruct (decide (o = "PCT")) as [->|_]; [done|].
  destruct (decide (o = "COMMON_PARTS")) as [->|_]; [done|].
  by rewrite (replace_underscores_id o Ho).
Qed.

(** X15: the display name of a category has the length of the category and
    no underscore, and it is its own display name: naming twice changes
    nothing.  A category that is not a string makes the function throw. *)
Theorem getEquipmentDisplayName_spec (category : JsVal) :
  (∀ name, getEquipmentDisplayName category = Some name →
     getEquipmentDisplayName (JStr name) = Some name
     ∧ no_underscore name = true
     ∧ String.length name = String.length (ToString category))
  ∧ (getEquipmentDisplayName category = None ↔ is_str category = false).
Proof.
  split; [|by destruct category].
  intros name H. destruct category as [| | |s]; try done.
  unfold getEquipmentDisplayName in H. injection H as <-.
  destruct (decide (s = "HAIL_TESTER")) as [->|_]; [by vm_compute|].
  destruct (decide (s = "MLT_TESTER")) as [->|_]; [by vm_compute|].
  destruct (decide (s = "THERMAL_CYCLING")) as [->|_]; [by vm_compute|].
  destruct (decide (s = "DAMP_HEAT")) as [->|_]; [by vm_compute|].
  destruct (decide (s = "PCT")) as [->|_]; [by vm_compute|].
  destruct (decide (s = "COMMON_PARTS")) as [->|_]; [by vm_compute|].
  set (o := capitalize_words false (replace_underscores s)).
  assert (no_underscore o = true) as Ho
    by apply capitalize_words_none, replace_underscores_none.
  split_and!; [|done|].
  - apply display_default; [done|]. apply capitalize_words_idem.
  - unfold o. simpl. by rewrite capitalize_words_length, replace_underscores_length.
Qed.

Lemma getEquipmentDisplayName_spec_witness :
  getEquipmentDisplayName (JStr "Laser Cutter 2") = Some "Laser Cutter 2".
Proof.
  exact (proj1 (proj1 (getEquipmentDisplayName_spec (JStr "laser_cutter_2"))
                  "Laser Cutter 2" eq_refl)).
Defined.

(** ** The front-end filter against the back-end query *)

Lemma with_choice_filter (o : option string) (P : string → SparePart → Prop)
    `{!∀ s x, Decision (P s x)} (test : string → SparePart → bool)
    (l : list SparePart) :
  (∀ s x, P s x ↔ test s x = true) →
  with_choice o (λ s l, Some (filter (P s) l)) l
  = Some (filter (λ item, test_opt o test item = true) l).
Proof.
  intros HP. unfold with_choice, test_opt. destruct o as [s|].
  - f_equal. apply list_filter_iff. intros x. apply HP.
  - f_equal. induction l as [|x l IH]; [done|].
    rewrite filter_cons_True by done. by rewrite <- IH.
Qed.

Lemma filterSpareParts_split (data : list SparePart) (f : Filters) :
  filterSpareParts data f
  = with_choice (supplied (f_search f))
      (λ s l, filterM (search_match_front (toLowerCase s)) l)
      (filter (λ part, matches_front f part = true) data)
    ≫= with_choice (supplied (f_sortBy f))
         (λ s l, sortM (compare_field_front s
                          (if bool_decide (f_sortOrder f = Some "desc") then -1 else 1)) l).
Proof.
  unfold filterSpareParts.
  rewrite (with_choice_filter (chosen (f_equipment f)) _
             (λ s part, strict_eq_str (equipmentCategory part) s)) by done.
  simpl.
  rewrite (with_choice_filter (chosen (f_stockLevel f)) _
             (λ s part, bool_decide (level_name (stockLevel part) = s)))
    by (intros; by rewrite bool_decide_eq_true).
  simpl.
  rewrite (with_choice_filter (chosen (f_status f)) _
             (λ s part, strict_eq_str (status part) s)) by done.
  simpl. rewrite !list_filter_filter.
  erewrite (list_filter_iff _ (λ part, matches_front f part = true)); [done|].
  intros x. unfold matches_front. rewrite !andb_true_iff. tauto.
Qed.

Lemma filter_sublist_mono {A} (P Q : A → Prop)
    `{!∀ x, Decision (P x), !∀ x, Decision (Q x)} (l : list A) :
  (∀ x, x ∈ l → P x → Q x) → filter P l `sublist_of` filter Q l.
Proof.
  intros HPQ. induction l as [|x l IH]; [done|].
  assert (filter P l `sublist_of` filter Q l) as IH'
    by (apply IH; intros y Hy; apply HPQ; by right).
  rewrite !filter_cons. destruct (decide (P x)) as [HP|HP].
  - rewrite decide_True by (apply HPQ; [by left|done]). by constructor.
  - destruct (decide (Q x)); [by constructor|done].
Qed.

Lemma search_match_front_strings (searchTerm : string) (part : SparePart) :
  is_str (partName part) = true → is_str (partCode part) = true →
  is_str (supplier part) = true →
  search_match_front searchTerm part = Some (search_hit_front searchTerm part).
Proof.
  unfold search_match_front, search_hit_front.
  destruct (partName part); try done. destruct (partCode part); try done.
  destruct (supplier part); try done.
  intros _ _ _. simpl. by repeat destruct (includes _ _).
Qed.

(** X16: [filterSpareParts] of the front end against the query of the back
    end, for the same equipment, stock level, status and search term and no
    sorting ('ALL' on the front end standing for no filter).  Without a
    search term the two give the same records in the same order.  With one,
    on records whose name, code and supplier are strings, every record that
    the back end returns is returned by the front end, in the same order:
    the front end also searches the supplier. *)
Theorem front_and_back_filters (data : list SparePart) (f : Filters) (q : Query) :
  chosen (f_equipment f) = supplied (q_equipment q) →
  chosen (f_stockLevel f) = supplied (q_stockLevel q) →
  chosen (f_status f) = supplied (q_status q) →
  supplied (f_search f) = supplied (q_search q) →
  supplied (f_sortBy f) = None → supplied (q_sortBy q) = None →
  (supplied (q_search q) = None → filterSpareParts data f = filteredData data q)
  ∧ (Forall (λ part, is_str (partName part) = true ∧ is_str (partCode part) = true
                     ∧ is_str (supplier part) = true) data →
     ∃ l l', filteredData data q = Some l ∧ filterSpareParts data f = Some l'
             ∧ l `sublist_of` l').
Proof.
  intros He Hl Hs Hq Hf1 Hf2.
  rewrite filterSpareParts_split, filteredData_split.
  unfold when. rewrite Hf1, Hf2, Hq.
  assert (∀ x, matches_front f x = matches q x) as Hm.
  { intros x. unfold matches_front, matches, criterion. by rewrite He, Hl, Hs. }
  rewrite (list_filter_iff _ (λ item, matches q item = true))
    by (intros x; by rewrite Hm).
  set (l3 := filter _ data).
  split.
  - intros Hn. by rewrite Hn.
  - intros Hstr.
    assert (Forall (λ part, is_str (partName part) = true ∧ is_str (partCode part) = true
                            ∧ is_str (supplier part) = true) l3) as Hstr3.
    { apply Forall_forall. intros x Hx. apply list_elem_of_filter in Hx as [_ Hx].
      by eapply Forall_forall in Hstr. }
    destruct (supplied (q_search q)) as [term|]; simpl.
    + rewrite (filterM_some _ (search_hit (toLowerCase term))),
              (filterM_some _ (search_hit_front (toLowerCase term))).
      * simpl. eexists _, _. split_and!; [done|done|].
        apply filter_sublist_mono. intros x Hx.
        eapply Forall_forall in Hstr3 as (_ & _ & Hsup); [|exact Hx].
        unfold search_hit, search_hit_front.
        destruct (partName x), (partCode x), (supplier x); try done.
        intros H. apply orb_true_iff. by left.
      * eapply Forall_impl; [exact Hstr3|]. intros x (? & ? & ?).
        by apply search_match_front_strings.
      * eapply Forall_impl; [exact Hstr3|]. intros x (? & ? & ?).
        by apply search_match_strings.
    + eexists _, _. split_and!; done.
Qed.

Lemma front_and_back_filters_witness :
  ∃ l l', filteredData (sparePartsData two_parts) (search_for "known") = Some l
    ∧ filterSpareParts (sparePartsData two_parts) (front_search "known") = Some l'
    ∧ l = [] ∧ length l' = 2%nat.
Proof.
  destruct (front_and_back_filters (sparePartsData two_parts)
              (front_search "known") (search_for "known")
              eq_refl eq_refl eq_refl eq_refl eq_refl eq_refl) as [_ H].
  destruct H as (l & l' & H1 & H2 & _); [repeat constructor|].
  exists l, l'. split; [exact H1|]. split; [exact H2|].
  vm_compute in H1, H2. by simplify_eq.
Defined.

(** ** The request of the inventory page: [loadSpareParts] of [Reports.jsx] *)

Lemma parseInt_of_string v : parseInt (JStr (ToString v)) = parseInt v.
Proof. reflexivity. Qed.

(** X17: for a grid page from 0 on and a positive page size, with
    [page + 1] and [pageSize] at most [2^53] (so that [page + 1] is exact and
    both travel digit for digit), the request of the inventory page asks the
    back end for page [page + 1] with [pageSize] as limit, so the grid's page
    [page], counted from 0, shows the [pageSize] records after the first
    [page * pageSize] filtered ones; a filter left on 'ALL' or empty is not
    applied; and a search for the very word "ALL" is not sent, so nothing is
    searched. *)
Theorem loadSpareParts_request (st : Server) (filters : FilterState)
    (pm : PaginationModel) (filtered : list SparePart) :
  0 ≤ pm_page pm < 2 ^ 53 → 0 < pm_pageSize pm ≤ 2 ^ 53 →
  let q := loadSpareParts_query filters pm in
  page_of q = pm_page pm + 1
  ∧ limit_of q = pm_pageSize pm
  ∧ supplied (q_equipment q) = chosen (Some (fs_equipment filters))
  ∧ supplied (q_stockLevel q) = chosen (Some (fs_stockLevel filters))
  ∧ supplied (q_status q) = chosen (Some (fs_status filters))
  ∧ (fs_search filters = "ALL" → supplied (q_search q) = None)
  ∧ data (paginate st q filtered)
    = take (Z.to_nat (pm_pageSize pm))
        (drop (Z.to_nat (pm_page pm) * Z.to_nat (pm_pageSize pm)) filtered).
Proof.
  intros Hp Hl q.
  assert (Z.abs (pm_page pm + 1) < 10 ^ 21) as Hp'.
  { apply Z.le_lt_trans with (2 ^ 53); [|done].
    change (2 ^ 53) with 9007199254740992 in *. lia. }
  assert (Z.abs (pm_pageSize pm) < 10 ^ 21) as Hl'.
  { apply Z.le_lt_trans with (2 ^ 53); [|done].
    change (2 ^ 53) with 9007199254740992 in *. lia. }
  assert (page_of q = pm_page pm + 1) as Hpage.
  { unfold page_of, q, loadSpareParts_query. cbn [q_page param].
    rewrite parseInt_of_string, parseInt_num_of_Z by done. simpl.
    destruct (Z.eqb_spec (pm_page pm + 1) 0); [lia|done]. }
  assert (limit_of q = pm_pageSize pm) as Hlimit.
  { unfold limit_of, q, loadSpareParts_query. cbn [q_limit param].
    rewrite parseInt_of_string, parseInt_num_of_Z by done. simpl.
    destruct (Z.eqb_spec (pm_pageSize pm) 0); [lia|done]. }
  assert (∀ s, supplied (unless_all s) = chosen (Some s)) as Hall.
  { intros s. unfold unless_all, chosen, supplied.
    repeat case_bool_decide; simplify_eq; done. }
  split_and!; try done; try apply Hall.
  - intros Hs. unfold q. simpl. by rewrite Hs.
  - simpl data.
    change (int_or 1 _) with (page_of q). change (int_or 50 _) with (limit_of q).
    rewrite Hpage, Hlimit. rewrite slice_nonneg by nia.
    f_equal; [f_equal; lia|f_equal; nia].
Qed.

Lemma loadSpareParts_request_witness :
  let q := loadSpareParts_query
             {| fs_search := ""; fs_equipment := "ALL";
                fs_stockLevel := "ALL"; fs_status := "ALL" |}
             {| pm_page := 0; pm_pageSize := 25 |} in
  page_of q = 1 ∧ limit_of q = 25.
Proof.
  destruct (loadSpareParts_request many_parts
              {| fs_search := ""; fs_equipment := "ALL";
                 fs_stockLevel := "ALL"; fs_status := "ALL" |}
              {| pm_page := 0; pm_pageSize := 25 |} [])
    as (H1 & H2 & _); [by vm_compute..|].
  split; [exact H1|exact H2].
Defined.

(** ** The pie chart of the dashboard: [getStockLevelData] *)

(** X18: fed with the statistics of the back end, the pie chart of the
    dashboard has only slices of positive value, their values add up to
    [totalParts], each slice carries the label and the colour that
    [getStockLevelLabel] and [getStockLevelColor] give to a stock level, and
    the chart is empty exactly when there is no record. *)
Theorem getStockLevelData_spec (st : Server) :
  let stats := (dashboard_stats st).1 in
  let chart := getStockLevelData (Some stats) in
  slice_total chart = s_totalParts stats
  ∧ (∀ item, item ∈ chart →
       0 < slice_value item
       ∧ ∃ l, slice_name item = getStockLevelLabel (JStr (level_name l))
              ∧ slice_color item = getStockLevelColor (JStr (level_name l))
              ∧ slice_value item = count_level l (sparePartsData st))
  ∧ (chart = [] ↔ sparePartsData st = []).
Proof.
  intros stats chart.
  destruct (foldl_add_level (sort by_recency (sparePartsData st))
              {| n_OUT_OF_STOCK := 0; n_LOW_STOCK := 0;
                 n_MEDIUM_STOCK := 0; n_HIGH_STOCK := 0 |})
    as (H1 & H2 & H3 & H4).
  rewrite (count_level_perm _ _ _ (sort_perm by_recency (sparePartsData st))) in H1.
  rewrite (count_level_perm _ _ _ (sort_perm by_recency (sparePartsData st))) in H2.
  rewrite (count_level_perm _ _ _ (sort_perm by_recency (sparePartsData st))) in H3.
  rewrite (count_level_perm _ _ _ (sort_perm by_recency (sparePartsData st))) in H4.
  simpl in H1, H2, H3, H4.
  pose proof (count_level_total (sparePartsData st)) as Htot.
  assert (∀ l, 0 ≤ count_level l (sparePartsData st)) as Hnn
    by (intros l; unfold count_level; lia).
  pose proof (Hnn OUT_OF_STOCK). pose proof (Hnn LOW_STOCK).
  pose proof (Hnn MEDIUM_STOCK). pose proof (Hnn HIGH_STOCK).
  unfold chart, getStockLevelData, stats. simpl stockLevelBreakdown.
  rewrite H1, H2, H3, H4. simpl s_totalParts.
  split_and!.
  - rewrite !filter_cons, filter_nil. simpl slice_value.
    repeat case_decide; simpl; lia.
  - intros item Hin. apply list_elem_of_filter in Hin as [Hpos Hin].
    split; [lia|].
    repeat (apply elem_of_cons in Hin as [->|Hin]);
      [by exists OUT_OF_STOCK|by exists LOW_STOCK
      |by exists MEDIUM_STOCK|by exists HIGH_STOCK|by apply elem_of_nil in Hin].
  - rewrite !filter_cons, filter_nil. simpl slice_value. split.
    + intros Hnil. apply length_zero_iff_nil.
      repeat case_decide; simplify_eq; lia.
    + intros Hd. rewrite Hd in *. unfold count_level. simpl. done.
Qed.

Lemma getStockLevelData_spec_witness :
  slice_total (getStockLevelData (Some (dashboard_stats two_parts).1)) = 2.
Proof. exact (proj1 (getStockLevelData_spec two_parts)). Defined.

(** ** Sorting on a string field *)

Lemma string_ltb_order (s t : string) :
  (String.ltb s t = true → String.le s t ∧ s ≠ t)
  ∧ (String.ltb s t = false → String.le t s).
Proof.
  unfold String.ltb, String.le, String.leb.
  rewrite (String.compare_antisym t s).
  destruct (String.compare s t) eqn:Hc; simpl; split; try done.
  intros _. split; [done|]. intros ->.
  pose proof (String.compare_antisym t t) as H. rewrite Hc in H. done.
Qed.

(** X19: when the value of the sort field is a string on every record,
    the back end returns the records in the code-unit order of these
    strings, ascending, or descending with [sortOrder=desc]. *)
Theorem sort_by_string_field (data : list SparePart) (q : Query)
    (sortField : string) (key : SparePart → string) (l : list SparePart) :
  supplied (q_sortBy q) = Some sortField →
  (∀ a, a ∈ data → field a sortField = JStr (key a)) →
  filteredData data q = Some l →
  StronglySorted
    (λ a b, if bool_decide (q_sortOrder q = Some "desc")
            then String.le (key b) (key a) else String.le (key a) (key b)) l.
Proof.
  intros Hs Hk. rewrite filteredData_split.
  destruct (when (q_search q) _ _) as [l4|] eqn:H4; simpl; [|done].
  rewrite (when_supplied (q_sortBy q) _ _ sortField Hs). intros [= <-].
  assert (∀ a, a ∈ l4 → a ∈ data) as Hsub.
  { intros a Ha. unfold when in H4.
    destruct (supplied (q_search q)); simplify_eq.
    - assert (∀ (p : SparePart → option bool) (l l' : list SparePart) x,
                filterM p l = Some l' → x ∈ l' → x ∈ l) as Hfm.
      { clear. intros p l. induction l as [|y l IH]; intros l' x H Hx; simpl in H.
        - by simplify_eq.
        - destruct (p y) as [b|]; simpl in H; [|done].
          destruct (filterM p l) as [r|]; simpl in H; [|done]. simplify_eq.
          destruct b; [apply elem_of_cons in Hx as [->|Hx]; [by left|]|];
            right; by eapply IH. }
      eapply Hfm in H4; [|done]. by apply list_elem_of_filter in H4 as [_ ?].
    - by apply list_elem_of_filter in Ha as [_ ?]. }
  apply sort_sorted.
  - intros a b c. case_bool_decide; intros; by etrans.
  - intros a b Ha Hb. unfold compare_field, js_lt, sort_order.
    rewrite !Hk by auto.
    destruct (string_ltb_order (key a) (key b)) as [Hab1 Hab2].
    destruct (string_ltb_order (key b) (key a)) as [Hba1 Hba2].
    destruct (String.ltb (key a) (key b)) eqn:E1,
             (String.ltb (key b) (key a)) eqn:E2;
      case_bool_decide; simpl; try (by apply Hab1); try (by apply Hba1);
      try (by apply Hab2); try (by apply Hba2).
Qed.

Lemma sort_by_string_field_witness :
  ∃ l, filteredData (sparePartsData two_parts) (sort_by "partCode") = Some l
    ∧ StronglySorted
        (λ a b, String.le (ToString (partCode a)) (ToString (partCode b))) l.
Proof.
  eexists. split; [reflexivity|].
  refine (sort_by_string_field (sparePartsData two_parts) (sort_by "partCode")
            "partCode" (λ a, ToString (partCode a)) _ eq_refl _ eq_refl).
  intros a Ha.
  repeat (apply elem_of_cons in Ha as [->|Ha]); [reflexivity..|].
  by apply elem_of_nil in Ha.
Defined.

(** ** The sort of the front end *)

Lemma insert_sortedM_some {A} (cmpM : A → A → option Z) (cmp : A → A → Z) x
    (l : list A) :
  (∀ y, y ∈ l → cmpM x y = Some (cmp x y)) →
  insert_sortedM cmpM x l = Some (insert_sorted cmp x l).
Proof.
  induction l as [|y l IH]; intros H; simpl; [done|].
  rewrite (H y) by (by left). simpl.
  destruct (cmp x y >? 0); [|done].
  rewrite IH by (intros z Hz; apply H; by right). done.
Qed.

Lemma sortM_some {A} (cmpM : A → A → option Z) (cmp : A → A → Z) (l : list A) :
  (∀ a b, a ∈ l → b ∈ l → cmpM a b = Some (cmp a b)) →
  sortM cmpM l = Some (sort cmp l).
Proof.
  induction l as [|x l IH]; intros H; simpl; [done|].
  rewrite IH by (intros a b Ha Hb; apply H; by right). simpl.
  apply insert_sortedM_some. intros y Hy. apply H; [by left|].
  right. by rewrite <- (sort_perm cmp l).
Qed.

(** X20: on records whose value of the sort field is a string, and with no
    search term, [filterSpareParts] does not throw; it returns the records
    that pass its exact-match filters, in the code-unit order of the
    lower-cased strings (reversed with 'desc'): the case of the letters does
    not count. *)
Theorem front_sort_case_insensitive (spareParts : list SparePart) (f : Filters)
    (sortField : string) (key : SparePart → string) :
  supplied (f_sortBy f) = Some sortField →
  supplied (f_search f) = None →
  (∀ a, a ∈ spareParts → field a sortField = JStr (key a)) →
  ∃ l, filterSpareParts spareParts f = Some l
    ∧ l ≡ₚ filter (λ part, matches_front f part = true) spareParts
    ∧ StronglySorted
        (λ a b, if bool_decide (f_sortOrder f = Some "desc")
                then String.le (toLowerCase (key b)) (toLowerCase (key a))
                else String.le (toLowerCase (key a)) (toLowerCase (key b))) l.
Proof.
  intros Hs Hn Hk. rewrite filterSpareParts_split, Hs, Hn. simpl.
  set (ord := if bool_decide (f_sortOrder f = Some "desc") then -1 else 1).
  set (l3 := filter _ spareParts).
  assert (∀ a, a ∈ l3 → a ∈ spareParts) as Hsub
    by (intros a Ha; by apply list_elem_of_filter in Ha as [_ ?]).
  rewrite (sortM_some _ (compare_lower ord key)).
  - eexists. split_and!; [done|apply sort_perm|].
    apply sort_sorted.
    + intros a b c. case_bool_decide; intros; by etrans.
    + intros a b _ _. unfold compare_lower, three_way, js_lt, ord.
      destruct (string_ltb_order (toLowerCase (key a)) (toLowerCase (key b)))
        as [Hab1 Hab2].
      destruct (string_ltb_order (toLowerCase (key b)) (toLowerCase (key a)))
        as [Hba1 Hba2].
      destruct (String.ltb (toLowerCase (key a)) (toLowerCase (key b))) eqn:E1,
               (String.ltb (toLowerCase (key b)) (toLowerCase (key a))) eqn:E2;
        case_bool_decide; simpl; try (by apply Hab1); try (by apply Hba1);
        try (by apply Hab2); try (by apply Hba2).
  - intros a b Ha Hb. unfold compare_field_front, compare_lower.
    by rewrite !Hk by auto.
Qed.

Lemma front_sort_case_insensitive_witness :
  ∃ l, filterSpareParts (sparePartsData two_parts)
         {| f_equipment := None; f_stockLevel := None; f_status := None;
            f_search := None; f_sortBy := Some "partName"; f_sortOrder := None |}
       = Some l
    ∧ part_names l = [JStr "apple"; JStr "Zebra"].
Proof.
  destruct (front_sort_case_insensitive (sparePartsData two_parts)
              {| f_equipment := None; f_stockLevel := None; f_status := None;
                 f_search := None; f_sortBy := Some "partName"; f_sortOrder := None |}
              "partName" (λ a, ToString (partName a)) eq_refl eq_refl)
    as (l & Hl & _).
  { intros a Ha.
    repeat (apply elem_of_cons in Ha as [->|Ha]); [reflexivity..|].
    by apply elem_of_nil in Ha. }
  exists l. split; [exact Hl|].
  vm_compute in Hl. by simplify_eq.
Defined.
